(** * Cumulus granule ingest: discovery, checksum-verified staging,
      download locking and post-processing moves.

    A shallow embedding of [packages/ingest/granule.js] (classes [Discover]
    and [Granule], [selector], [getCmrFiles], [moveGranuleFiles]) and of
    [download] and [syncGranule] of [tasks/sync-granule/index.js], together
    with the properties the specification states about them and further
    properties of the code.

    JavaScript promises are modelled by a state-and-error monad over a
    [World] that holds the object store, the provider's files, the lock
    leases and a trace of the calls made to the outside. *)

From Stdlib Require Import ZArith Ascii.
From stdpp Require Import base option list strings gmap.

Open Scope string_scope.

(** ** JavaScript values that reach truthiness tests and [===] *)

(** Checksum types and values come from PDRs and listings: they are absent,
    strings, or numbers ([checksumS3Objects('CKSUM', ...)] is a number). *)
Inductive jsval : Type :=
| JSUndefined
| JSNull
| JSStr (s : string)
| JSNum (z : Z).

#[global] Instance jsval_eq_dec : EqDecision jsval.
Proof. solve_decision. Defined.

(** [if (v)]: undefined, null, the empty string and 0 are falsy. *)
Definition truthy (v : jsval) : bool :=
  match v with
  | JSUndefined | JSNull => false
  | JSStr s => negb (String.eqb s "")
  | JSNum z => negb (Z.eqb z 0)
  end.

(** [a !== b] on such values: different type or different payload. *)
Definition strict_neq (a b : jsval) : bool := negb (bool_decide (a = b)).

(** A property that is missing or holds a string: [undefined] is [None]. *)
Definition truthy_str (o : option string) : bool :=
  match o with
  | Some s => negb (String.eqb s "")
  | None => false
  end.

(** [a || b] on optional strings. *)
Definition js_or (a b : option string) : option string :=
  if truthy_str a then a else b.

(** ** Errors and promise outcomes *)

(** [InvalidChecksum] carries what its message is built from: the file's
    name, [file.checksumType] and [file.checksumValue]. *)
Inductive error : Type :=
| InvalidChecksum (fileName : string) (type value : jsval)
| ResourcesLockedError (message : string)
| RemoteResourceError (message : string)
| S3Error (code : string)
| TypeError (message : string)
| Error (message : string).

#[global] Instance error_eq_dec : EqDecision error.
Proof. solve_decision. Defined.

Inductive outcome (A : Type) : Type :=
| Resolved (a : A)
| Rejected (e : error).
Arguments Resolved {A} a.
Arguments Rejected {A} e.

Definition is_resolved {A} (r : outcome A) : bool :=
  match r with Resolved _ => true | Rejected _ => false end.

(** ** Records *)

(** One entry of [collection.files]. *)
Record FileRule : Type := mkFileRule {
  regex : string;
  rule_bucket : string;            (* key into the [buckets] object *)
  rule_url_path : option string
}.

Record Collection : Type := mkCollection {
  coll_name : string;
  dataType : option string;
  version : option string;
  granuleIdExtraction : string;
  files : list FileRule;
  coll_url_path : option string
}.

(** A file object, from listing to staged record.  Properties the code
    may find missing are optional. *)
Record File : Type := mkFile {
  name : string;
  path : string;
  checksumType : jsval;
  checksumValue : jsval;
  granuleId : option string;
  bucket : option string;
  filename : option string;
  filepath : option string;
  fileStagingDir : option string;
  url_path : option string
}.

#[global] Instance File_eq_dec : EqDecision File.
Proof. solve_decision. Defined.

Record GranuleRecord : Type := mkGranuleRecord {
  g_granuleId : string;
  g_dataType : option string;
  g_version : option string;
  g_files : list File
}.

(** One entry of the [buckets] configuration object. *)
Record BucketConfig : Type := mkBucketConfig {
  bucket_name : string;
  bucket_type : string
}.

Record Provider : Type := mkProvider {
  provider_id : string;
  protocol : string
}.

(** ** Calls to the outside, in the order they take effect *)

Inductive Event : Type :=
| HeadObject (b k : string)
| GetBucketVersioning (b : option string)
| PutBucketVersioning (b : string)
| Download (remotePath : string)
| Sync (remotePath b k : string)
| ChecksumS3Objects (type : jsval) (b k : string)
| CopyObject (sb sk tb tk : string)
| DeleteObject (b k : string)
| PutObject (b k : string)
| GetObject (b k : string)
| Publish (cmrFilename : string)
| LockProceed (providerId granule : string)
| LockRemove (providerId granule : string)
| LogError (message : string)
| LogException (e : error).

#[global] Instance Event_eq_dec : EqDecision Event.
Proof. solve_decision. Defined.

(** ** The world *)

Record World : Type := mkWorld {
  objects : gmap (string * string) string;   (* (Bucket, Key) -> body *)
  versioning : gset string;                  (* buckets with Status = Enabled *)
  headFailures : gset (string * string);     (* head requests that fail, not with NotFound *)
  remote : gmap string string;               (* provider files by remote path *)
  locks : gset (string * string);            (* leases: (provider id, granule id) *)
  configStore : gmap (string * string) Collection;  (* (dataType, version) -> collection *)
  trace : list Event
}.

Definition set_objects (f : gmap (string * string) string -> gmap (string * string) string)
    (w : World) : World :=
  mkWorld (f (objects w)) (versioning w) (headFailures w) (remote w) (locks w) (configStore w) (trace w).

Definition set_versioning (f : gset string -> gset string) (w : World) : World :=
  mkWorld (objects w) (f (versioning w)) (headFailures w) (remote w) (locks w) (configStore w) (trace w).

Definition set_locks (f : gset (string * string) -> gset (string * string))
    (w : World) : World :=
  mkWorld (objects w) (versioning w) (headFailures w) (remote w) (f (locks w)) (configStore w) (trace w).

Definition emit (e : Event) (w : World) : World :=
  mkWorld (objects w) (versioning w) (headFailures w) (remote w) (locks w) (configStore w) (trace w ++ [e]).

(** ** Promises as a state-and-error monad *)

Definition M (A : Type) : Type := World -> outcome A * World.

Definition ret {A} (a : A) : M A := fun w => (Resolved a, w).
Definition throw {A} (e : error) : M A := fun w => (Rejected e, w).

(** [await]: a rejection propagates, the effects made so far stay. *)
Definition bind {A B} (m : M A) (k : A -> M B) : M B :=
  fun w =>
    match m w with
    | (Resolved a, w') => k a w'
    | (Rejected e, w') => (Rejected e, w')
    end.

Definition tell (e : Event) : M unit := fun w => (Resolved tt, emit e w).
Definition modify (f : World -> World) : M unit := fun w => (Resolved tt, f w).
Definition gets {A} (f : World -> A) : M A := fun w => (Resolved (f w), w).

Notation "'await' x <- m 'in' k" := (bind m (fun x => k))
  (at level 10, x name, m at level 100, k at level 200).
Notation "'exec' m 'in' k" := (bind m (fun _ => k))
  (at level 10, m at level 100, k at level 200).

(** [try { m } catch (e) { h e }]. *)
Definition catch {A} (m : M A) (h : error -> M A) : M A :=
  fun w =>
    match m w with
    | (Resolved a, w') => (Resolved a, w')
    | (Rejected e, w') => h e w'
    end.

(** A synchronous result taken into a promise. *)
Definition lift {A} (r : outcome A) : M A := fun w => (r, w).

(** [try { m } finally { h }]. *)
Definition finally {A} (m : M A) (h : M unit) : M A :=
  fun w =>
    match m w with
    | (r, w') =>
        match h w' with
        | (Resolved _, w'') => (r, w'')
        | (Rejected e, w'') => (Rejected e, w'')
        end
    end.

(** [Promise.all] over promises that were all started: every one of them
    runs (here in list order), and the result rejects with the first
    rejection met. *)
Fixpoint promiseAll {A} (ms : list (M A)) : M (list A) :=
  match ms with
  | [] => ret []
  | m :: rest =>
      fun w =>
        match m w with
        | (r, w') =>
            match promiseAll rest w' with
            | (rs, w'') =>
                (match r, rs with
                 | Resolved a, Resolved l => Resolved (a :: l)
                 | Rejected e, _ => Rejected e
                 | Resolved _, Rejected e => Rejected e
                 end, w'')
            end
        end
  end.

(** ** What the code takes from Node and from npm packages *)

(** The regular-expression engine, [path.join], [url-join], the digest
    functions behind [checksumS3Objects], the two S3-URI helpers of
    [@cumulus/common/aws] and [constructCollectionId] of [@cumulus/common].
    [str_match re s] is [s.match(re)] for a non-global pattern: [None] for
    [null], otherwise the array of the whole match and the capture groups,
    an unset group being [None]. *)
Class Runtime : Type := {
  str_match : string -> string -> option (list (option string));
  path_join : string -> string -> string;
  urljoin : string -> string -> string;
  digest : jsval -> string -> jsval;
  parseS3Uri : string -> option (string * string);
  buildS3Uri : string -> string -> string;
  constructCollectionId : option string -> option string -> string
}.

Definition matches `{Runtime} (re s : string) : bool :=
  match str_match re s with Some _ => true | None => false end.

(** [arr[i]] on a match array: out of range is [undefined]. *)
Definition capture (arr : list (option string)) (i : nat) : option string :=
  mjoin (arr !! i).

(** A call whose promise is dropped: its effects land, its rejection is
    nobody's. *)
Definition detached (m : M unit) : M unit :=
  fun w => (Resolved tt, snd (m w)).

(** ** Strings as the code cuts them *)

(** [s.indexOf(needle)]: [None] is -1. *)
Definition indexOf (needle s : string) : option nat := String.index 0 needle s.

(** [s.replace(needle, repl)] with a string pattern: the first occurrence. *)
Definition replace_first (needle repl s : string) : string :=
  match indexOf needle s with
  | Some i =>
      String.substring 0 i s +:+ repl +:+
      String.substring (i + String.length needle) (String.length s - (i + String.length needle)) s
  | None => s
  end.

(** [s.split(' ')[0]]. *)
Definition first_token (s : string) : string :=
  match indexOf " " s with
  | Some i => String.substring 0 i s
  | None => s
  end.

(** [s.endsWith(suffix)]. *)
Definition endsWith (suffix s : string) : bool :=
  let n := String.length s in
  let k := String.length suffix in
  (k <=? n)%nat && String.eqb (String.substring (n - k) k s) suffix.

(** [if (k[0] === '/') k = k.substr(1)]. *)
Definition strip_leading_slash (k : string) : string :=
  match k with
  | String "/"%char rest => rest
  | _ => k
  end.

(** ** The object store and the protocol client, as the code calls them *)

Section Services.
Context `{Runtime}.

(** Modelled from the spec: [aws.s3ObjectExists] of [@cumulus/common/aws]
    (not among the sources), the store's existence-check: it resolves to
    whether the object is there, and rejects when the request itself
    fails. *)
Definition s3ObjectExists (b k : string) : M bool :=
  fun w =>
    let w' := emit (HeadObject b k) w in
    if bool_decide ((b, k) ∈ headFailures w)
    then (Rejected (S3Error "Forbidden"), w')
    else (Resolved (bool_decide (is_Some (objects w !! (b, k)))), w').

(** Modelled from the spec: [aws.checksumS3Objects(type, bucket, key)] of
    [@cumulus/common/aws]: the digest of the stored object's body. *)
Definition checksumS3Objects (type : jsval) (b k : string) : M jsval :=
  fun w =>
    let w' := emit (ChecksumS3Objects type b k) w in
    match objects w !! (b, k) with
    | Some body => (Resolved (digest type body), w')
    | None => (Rejected (S3Error "NoSuchKey"), w')
    end.

(** Modelled from the spec: [this.sync(remotePath, bucket, key)] of the
    protocol mixins ([ftp.js], [sftp.js], [http.js], [s3.js]; only their
    tests are among the sources): the provider's file is stream-copied to
    the store and the object's S3 URI is returned. *)
Definition sync (remotePath b k : string) : M string :=
  fun w =>
    let w' := emit (Sync remotePath b k) w in
    match remote w !! remotePath with
    | Some body => (Resolved (buildS3Uri b k), set_objects (insert (b, k) body) w')
    | None => (Rejected (RemoteResourceError remotePath), w')
    end.

(** Modelled from the spec: [this.download(remotePath, localPath)] of the
    protocol mixins followed by [fs.readFile(localPath, 'utf8')]: the text
    of the provider's file.  The temporary directory is local and leaves
    nothing behind. *)
Definition download (remotePath : string) : M string :=
  fun w =>
    let w' := emit (Download remotePath) w in
    match remote w !! remotePath with
    | Some body => (Resolved body, w')
    | None => (Rejected (RemoteResourceError remotePath), w')
    end.

End Services.

(** ** The [Granule] class: ingest of one granule's files *)

Module Granule.
Section Methods.
Context `{Runtime}.

(** The fields of [this] that the methods read or write. *)
Record t : Type := mk {
  this_buckets : gmap string BucketConfig;
  this_collection : option Collection;
  this_provider : Provider;
  this_fileStagingDir : string;
  this_checksumFiles : gmap string File;
  this_duplicateHandling : string
}.

Definition set_checksumFiles (f : gmap string File -> gmap string File) (g : t) : t :=
  mk (this_buckets g) (this_collection g) (this_provider g) (this_fileStagingDir g)
     (f (this_checksumFiles g)) (this_duplicateHandling g).

(** Where the effects of a call that is not awaited land, relative to the
    transfer that follows it: both orders can happen. *)
Inductive Schedule : Type :=
| LandsBeforeSync
| LandsAfterSync.

(** [getUrlPath(file)] over [this.collection]: every file definition is
    visited in order, and each one that matches and has a [url_path]
    overwrites what the earlier ones set. *)
Definition getUrlPath (c : Collection) (file : File) : option string :=
  let urlPath :=
    foldl (fun urlPath fileDef =>
             if matches (regex fileDef) (name file) && truthy_str (rule_url_path fileDef)
             then rule_url_path fileDef
             else urlPath)
          (Some "") (files c) in
  if truthy_str urlPath then urlPath else coll_url_path c.

(** [findCollectionFileConfigForFile(file)]. *)
Definition findCollectionFileConfigForFile (c : Collection) (file : File) : option FileRule :=
  List.find (fun fileConfig => matches (regex fileConfig) (name file)) (files c).

(** [filterChecksumFiles(file)]: the answer for [Array.prototype.filter]
    and [this] afterwards. *)
Definition filterChecksumFiles (g : t) (file : File) : bool * t :=
  match indexOf ".md5" (name file) with
  | Some (S _) =>
      (false, set_checksumFiles (insert (replace_first ".md5" "" (name file)) file) g)
  | _ => (true, g)
  end.

(** [getChecksumFromFile(file)]. *)
Definition getChecksumFromFile (g : t) (file : File) : M (jsval * jsval) :=
  if truthy (checksumType file) && truthy (checksumValue file)
  then ret (checksumType file, checksumValue file)
  else
    match this_checksumFiles g !! name file with
    | Some checksumInfo =>
        let checksumRemotePath := path_join (path checksumInfo) (name checksumInfo) in
        await checksumFile <- download checksumRemotePath in
        ret (JSStr "md5", JSStr (first_token checksumFile))
    | None => ret (JSNull, JSNull)
    end.

(** [validateChecksum(file, bucket, key)]. *)
Definition validateChecksum (g : t) (file : File) (b key : string) : M unit :=
  await tv <- getChecksumFromFile g file in
  if negb (truthy (fst tv)) || negb (truthy (snd tv)) then ret tt
  else
    await sum <- checksumS3Objects (fst tv) b key in
    if strict_neq (snd tv) sum
    then throw (InvalidChecksum (name file) (checksumType file) (checksumValue file))
    else ret tt.

(** [enableBucketVersioning(bucket)], once both of its requests have been
    answered.  The second request is not awaited inside the method. *)
Definition enableBucketVersioning (b : option string) : M unit :=
  exec tell (GetBucketVersioning b) in
  match b with
  | None => throw (S3Error "MissingRequiredParameter")
  | Some b =>
      await enabled <- gets (fun w => bool_decide (b ∈ versioning w)) in
      if enabled then ret tt
      else
        exec tell (PutBucketVersioning b) in
        modify (set_versioning (union {[ b ]}))
  end.

(** [this.collection.files] when there is no collection. *)
Definition the_collection (g : t) : M Collection :=
  match this_collection g with
  | Some c => ret c
  | None => throw (TypeError "Cannot read property 'files' of undefined")
  end.

(** [if (duplicateHandling === 'version') this.enableBucketVersioning(file.bucket)]:
    the call is not awaited. *)
Definition versioningCall (file : File) (duplicateHandling : string) : M unit :=
  if String.eqb duplicateHandling "version"
  then detached (enableBucketVersioning (bucket file))
  else ret tt.

(** The effects of a call that is not awaited land at the point the schedule
    names and nowhere else. *)
Definition landing (sched point : Schedule) (m : M unit) : M unit :=
  match sched, point with
  | LandsBeforeSync, LandsBeforeSync => m
  | LandsAfterSync, LandsAfterSync => m
  | _, _ => ret tt
  end.

(** [ingestFile(file, bucket, duplicateHandling)]; [sched] says on which
    side of the transfer the versioning call lands. *)
Definition ingestFile (g : t) (sched : Schedule) (file : File)
    (b duplicateHandling : string) : M File :=
  await exists_ <- s3ObjectExists b (path_join (this_fileStagingDir g) (name file)) in
  if exists_ && String.eqb duplicateHandling "skip" then ret file
  else
    exec landing sched LandsBeforeSync (versioningCall file duplicateHandling) in
    let fileRemotePath := path_join (path file) (name file) in
    let fullKey := strip_leading_slash (path_join (this_fileStagingDir g) (name file)) in
    await filename_ <-
      finally (sync fileRemotePath b fullKey)
              (landing sched LandsAfterSync (versioningCall file duplicateHandling)) in
    exec validateChecksum g file b fullKey in
    await c <- the_collection g in
    ret (mkFile (name file) (path file) (checksumType file) (checksumValue file)
                (granuleId file) (Some b) (Some filename_) (filepath file)
                (Some (this_fileStagingDir g)) (getUrlPath c file)).

(** [granule.files.filter((f) => this.filterChecksumFiles(f))]: the data
    files, and [this] with the sidecars recorded. *)
Fixpoint filterFiles (g : t) (fs : list File) : list File * t :=
  match fs with
  | [] => ([], g)
  | f :: rest =>
      let (keep, g1) := filterChecksumFiles g f in
      let (kept, g2) := filterFiles g1 rest in
      (if keep then f :: kept else kept, g2)
  end.

Definition missingDataTypeOrVersion : error :=
  Error "Downloading the collection failed because dataType or version was missing!".

(** [ingest(granule, bucket)]: the granule with its staged files, and
    [this] as the call leaves it. *)
Definition ingest (g : t) (sched : File -> Schedule) (granule : GranuleRecord)
    (b : string) : M (t * GranuleRecord) :=
  await cdv <-
    match this_collection g with
    | None =>
        match g_dataType granule, g_version granule with
        | Some d, Some v =>
            if truthy_str (Some d) && truthy_str (Some v) then
              await found <- gets (fun w => configStore w !! (d, v)) in
              match found with
              | Some c => ret (c, g_dataType granule, g_version granule)
              | None => throw (Error "collection configuration not found")
              end
            else throw missingDataTypeOrVersion
        | _, _ => throw missingDataTypeOrVersion
        end
    | Some c =>
        ret (c,
             (if truthy_str (g_dataType granule) then g_dataType granule
              else js_or (dataType c) (Some (coll_name c))),
             (if truthy_str (g_version granule) then g_version granule else version c))
    end in
  let c := fst (fst cdv) in
  let dataType_ := snd (fst cdv) in
  let version_ := snd cdv in
  let c' := mkCollection (coll_name c) (dataType c) (version c) (granuleIdExtraction c)
                         (files c) (js_or (coll_url_path c) (Some "")) in
  let collectionId := constructCollectionId dataType_ version_ in
  let g1 := mk (this_buckets g) (Some c') (this_provider g)
               (path_join (this_fileStagingDir g) collectionId)
               (this_checksumFiles g) (this_duplicateHandling g) in
  let (dataFiles, g2) := filterFiles g1 (g_files granule) in
  await files_ <-
    promiseAll (map (fun f => ingestFile g2 (sched f) f b (this_duplicateHandling g2))
                    dataFiles) in
  ret (g2, mkGranuleRecord (g_granuleId granule) dataType_ version_ files_).

(** The constructor, for a concrete subclass: a default applies to an
    argument that is [undefined]. *)
Definition construct (buckets_ : gmap string BucketConfig) (collection_ : option Collection)
    (provider : Provider) (fileStagingDir_ duplicateHandling_ : option string) : t :=
  mk buckets_ collection_ provider (default "file-staging" fileStagingDir_) ∅
     (default "replace" duplicateHandling_).

(** [Object.assign(cloneDeep(file), { bucket })]. *)
Definition set_bucket (file : File) (b : string) : File :=
  mkFile (name file) (path file) (checksumType file) (checksumValue file)
         (granuleId file) (Some b) (filename file) (filepath file)
         (fileStagingDir file) (url_path file).

(** [Object.assign(cloneDeep(file), { url_path })]. *)
Definition set_url_path (file : File) (u : option string) : File :=
  mkFile (name file) (path file) (checksumType file) (checksumValue file)
         (granuleId file) (bucket file) (filename file) (filepath file)
         (fileStagingDir file) u.

(** [addBucketToFile(file)]. *)
Definition addBucketToFile (g : t) (file : File) : outcome File :=
  match this_collection g with
  | None => Rejected (TypeError "Cannot read property 'files' of undefined")
  | Some c =>
      match findCollectionFileConfigForFile c file with
      | None =>
          Rejected (Error ("Unable to update file. Cannot find file config for file "
                           +:+ name file))
      | Some fileConfig =>
          match this_buckets g !! rule_bucket fileConfig with
          | None => Rejected (TypeError "Cannot read property 'name' of undefined")
          | Some bucketConfig => Resolved (set_bucket file (bucket_name bucketConfig))
          end
      end
  end.

(** [addUrlPathToFile(file)]. *)
Definition addUrlPathToFile (g : t) (file : File) : outcome File :=
  match this_collection g with
  | None => Rejected (TypeError "Cannot read property 'files' of undefined")
  | Some c =>
      let foundFileConfigUrlPath :=
        match findCollectionFileConfigForFile c file with
        | Some fileConfig => rule_url_path fileConfig
        | None => None
        end in
      Resolved (set_url_path file
                  (js_or foundFileConfigUrlPath (js_or (coll_url_path c) (Some ""))))
  end.

(** [getBucket(file)]; [deprecate()] prints a warning and nothing else. *)
Definition getBucket (g : t) (file : File) : outcome File :=
  match addBucketToFile g file with
  | Resolved withBucket => addUrlPathToFile g withBucket
  | Rejected e => Rejected e
  end.

End Methods.

(** The classes that [selector] chooses from: a base class with the mixin
    of a protocol. *)
Inductive Class_ : Type :=
| SftpDiscoverGranules
| FtpDiscoverGranules
| HttpDiscoverGranules
| S3DiscoverGranules
| SftpGranule
| FtpGranule
| HttpGranule
| S3Granule.

(** [selector(type, protocol)]. *)
Definition selector (type protocol : string) : outcome Class_ :=
  if String.eqb type "discover" then
    if String.eqb protocol "sftp" then Resolved SftpDiscoverGranules
    else if String.eqb protocol "ftp" then Resolved FtpDiscoverGranules
    else if String.eqb protocol "http" || String.eqb protocol "https"
    then Resolved HttpDiscoverGranules
    else if String.eqb protocol "s3" then Resolved S3DiscoverGranules
    else Rejected (Error ("Protocol " +:+ protocol +:+ " is not supported."))
  else if String.eqb type "ingest" then
    if String.eqb protocol "sftp" then Resolved SftpGranule
    else if String.eqb protocol "ftp" then Resolved FtpGranule
    else if String.eqb protocol "http" || String.eqb protocol "https"
    then Resolved HttpGranule
    else if String.eqb protocol "s3" then Resolved S3Granule
    else Rejected (Error ("Protocol " +:+ protocol +:+ " is not supported."))
  else Rejected (Error (type +:+ " is not supported")).

End Granule.

(** ** The download lock *)

Module Lock.

(** Modelled from the spec: [lock.proceed(bucket, provider, granuleId)] of
    [packages/ingest/lock.js], which is not among the sources.  The lease
    is keyed by provider and granule; a lease that is still held after the
    retries makes the call resolve to [false]. *)
Definition proceed (b : string) (provider : Provider) (granuleId : string) : M bool :=
  fun w =>
    let w' := emit (LockProceed (provider_id provider) granuleId) w in
    if bool_decide ((provider_id provider, granuleId) ∈ locks w)
    then (Resolved false, w')
    else (Resolved true, set_locks (union {[ (provider_id provider, granuleId) ]}) w').

(** Modelled from the spec: [lock.removeLock(bucket, providerId, granuleId)]
    deletes the lease of that key unconditionally. *)
Definition removeLock (b providerId granuleId : string) : M unit :=
  fun w =>
    (Resolved tt,
     set_locks (fun l => l ∖ {[ (providerId, granuleId) ]})
               (emit (LockRemove providerId granuleId) w)).

End Lock.

(** ** [tasks/sync-granule]: the guarded download *)

Module SyncGranule.
Section Download.

(** The ingest object: its state and its [ingest] method. *)
Context {I : Type}.
Variable ingest_method : I -> GranuleRecord -> string -> M (I * GranuleRecord).

(** [for (const g of granules) { try { ... } catch (e) { ... } }]. *)
Fixpoint download_loop (ingest : I) (b : string) (provider : Provider)
    (granules : list GranuleRecord) (updatedGranules : list GranuleRecord)
    : M (list GranuleRecord) :=
  match granules with
  | [] => ret updatedGranules
  | g :: rest =>
      await ir <-
        catch (ingest_method ingest g b)
              (fun e =>
                 exec Lock.removeLock b (provider_id provider) (g_granuleId g) in
                 exec tell (LogException e) in
                 throw e) in
      download_loop (fst ir) b provider rest (updatedGranules ++ [snd ir])
  end.

(** [download(ingest, bucket, provider, granules)]. *)
Definition download (ingest : I) (b : string) (provider : Provider)
    (granules : list GranuleRecord) : M (list GranuleRecord) :=
  match granules with
  | [] => throw (TypeError "Cannot read property 'granuleId' of undefined")
  | g0 :: _ =>
      await proceed <- Lock.proceed b provider (g_granuleId g0) in
      if negb proceed then
        let err :=
          ResourcesLockedError "Download lock remained in place after multiple tries" in
        exec tell (LogException err) in
        throw err
      else
        await updatedGranules <- download_loop ingest b provider granules [] in
        exec Lock.removeLock b (provider_id provider) (g_granuleId g0) in
        ret updatedGranules
  end.

End Download.

(** [config.pdr]. *)
Record Pdr : Type := mkPdr {
  pdr_name : string;
  pdr_path : string
}.

(** [event.config], as [syncGranule] reads it.  The two fields after
    [cfg_collection] are [duplicateHandling] and [process] of
    [config.collection]; they are read only when there is a collection. *)
Record Config : Type := mkConfig {
  cfg_stack : string;
  cfg_buckets : gmap string BucketConfig;
  cfg_provider : option Provider;
  cfg_collection : option Collection;
  cfg_collection_duplicateHandling : option string;
  cfg_collection_process : option string;
  cfg_downloadBucket : string;
  cfg_duplicateHandling : option string;
  cfg_fileStagingDir : option string;
  cfg_pdr : option Pdr
}.

(** What the task resolves to. *)
Record Output : Type := mkOutput {
  out_granules : list GranuleRecord;
  out_process : option string;
  out_pdr : option Pdr
}.

(** What the task rejects with: one of the two errors it makes itself, or
    the error that came out of [download] or [selector]. *)
Inductive TaskError : Type :=
| ProviderNotFound (message : string)
| ConnectionTimeout (message : string)
| Raised (e : error).

Inductive TaskResult : Type :=
| Returned (output : Output)
| Failed (e : TaskError).

Section Task.
Context `{Runtime}.

(** On which side of each transfer the versioning call lands. *)
Variable sched : File -> Granule.Schedule.

(** [e.toString()], and whether [e.details && e.details.status === 'timeout']
    holds: errors carry no [details] here. *)
Variable toString : error -> string.
Variable timedOut : error -> bool.

(** [config.duplicateHandling], or the collection's when that is unset. *)
Definition duplicateHandlingOf (config : Config) : option string :=
  if negb (truthy_str (cfg_duplicateHandling config))
     && bool_decide (is_Some (cfg_collection config))
     && truthy_str (cfg_collection_duplicateHandling config)
  then cfg_collection_duplicateHandling config
  else cfg_duplicateHandling config.

(** [path.join(config.fileStagingDir || 'file-staging', stack)]. *)
Definition fileStagingDirOf (config : Config) : string :=
  path_join (if truthy_str (cfg_fileStagingDir config)
             then default "" (cfg_fileStagingDir config)
             else "file-staging")
            (cfg_stack config).

(** The ingest object that [syncGranule] builds for a provider. *)
Definition ingestObjectOf (config : Config) (provider : Provider) : Granule.t :=
  Granule.construct (cfg_buckets config) (cfg_collection config) provider
                    (Some (fileStagingDirOf config)) (duplicateHandlingOf config).

(** The [catch] handler's choice of the error to throw. *)
Definition errorToThrow (e : error) : TaskError :=
  if bool_decide (is_Some (indexOf "ECONNREFUSED" (toString e)))
  then Raised (RemoteResourceError "Connection Refused")
  else if timedOut e then ConnectionTimeout "connection Timed out"
  else Raised e.

(** [log.error(err)] for an error of the task. *)
Definition logTaskError (e : TaskError) : Event :=
  match e with
  | ProviderNotFound message | ConnectionTimeout message => LogError message
  | Raised e => LogException e
  end.

(** [syncGranule(event)] on [event.config] and [event.input.granules].
    [ingest.end], where the mixin has one, closes the connection to the
    provider and touches nothing else. *)
Definition syncGranule (config : Config) (granules : list GranuleRecord) (w : World)
    : TaskResult * World :=
  match cfg_provider config with
  | None =>
      let err := ProviderNotFound "Provider info not provided" in
      (Failed err, emit (logTaskError err) w)
  | Some provider =>
      match Granule.selector "ingest" (protocol provider) with
      | Rejected e => (Failed (Raised e), w)
      | Resolved _ =>
          let ingest := ingestObjectOf config provider in
          match download (fun g granule b => Granule.ingest g sched granule b)
                         ingest (cfg_downloadBucket config) provider granules w with
          | (Resolved granules_, w') =>
              (Returned
                 (mkOutput granules_
                    (if bool_decide (is_Some (cfg_collection config))
                        && truthy_str (cfg_collection_process config)
                     then cfg_collection_process config else None)
                    (cfg_pdr config)),
               w')
          | (Rejected e, w') =>
              (Failed (errorToThrow e), emit (logTaskError (errorToThrow e)) w')
          end
      end
  end.

End Task.
End SyncGranule.

(** ** The [Discover] class *)

(** [_.groupBy(l, key)]: one entry per key, each with its elements in the
    order of [l].  The entries are kept in the order the keys first appear;
    [Object.keys] moves keys that read as array indices to the front, which
    no property below depends on. *)
Fixpoint groupBy_add {A} (k : string) (x : A) (groups : list (string * list A))
    : list (string * list A) :=
  match groups with
  | [] => [(k, [x])]
  | (k', xs) :: rest =>
      if String.eqb k k' then (k', (xs ++ [x])%list) :: rest
      else (k', xs) :: groupBy_add k x rest
  end.

Definition groupBy {A} (l : list A) (key : A -> string) : list (string * list A) :=
  foldl (fun groups x => groupBy_add (key x) x groups) [] l.

(** [String(v)] of a property that is a string or [undefined]. *)
Definition js_string (o : option string) : string := default "undefined" o.

(** [omit(file, 'granuleId')]. *)
Definition omit_granuleId (file : File) : File :=
  mkFile (name file) (path file) (checksumType file) (checksumValue file)
         None (bucket file) (filename file) (filepath file)
         (fileStagingDir file) (url_path file).

Module Discover.
Section Methods.
Context `{Runtime}.

Record t : Type := mk {
  this_buckets : gmap string BucketConfig;
  this_collection : Collection;
  this_provider : Provider
}.

(** The constructor, for a concrete subclass: it reads
    [this.buckets[f.bucket].name] for every file definition of the
    collection. *)
Definition construct (buckets_ : gmap string BucketConfig) (c : Collection)
    (provider : Provider) : outcome t :=
  if forallb (fun f => bool_decide (is_Some (buckets_ !! rule_bucket f))) (files c)
  then Resolved (mk buckets_ c provider)
  else Rejected (TypeError "Cannot read property 'name' of undefined").

(** [fileTypeConfigForFile(file)]. *)
Definition fileTypeConfigForFile (g : t) (file : File) : option FileRule :=
  List.find (fun fileTypeConfig => matches (regex fileTypeConfig) (name file))
            (files (this_collection g)).

(** [setGranuleInfo(file)]: reading a property of [null] or [undefined]
    throws. *)
Definition setGranuleInfo (g : t) (file : File) : outcome File :=
  match str_match (granuleIdExtraction (this_collection g)) (name file) with
  | None => Rejected (TypeError "Cannot read property '1' of null")
  | Some granuleIdMatch =>
      let granuleId_ := capture granuleIdMatch 1 in
      match fileTypeConfigForFile g file with
      | None => Rejected (TypeError "Cannot read property 'bucket' of undefined")
      | Some fileTypeConfig =>
          match this_buckets g !! rule_bucket fileTypeConfig with
          | None => Rejected (TypeError "Cannot read property 'name' of undefined")
          | Some bucketConfig =>
              Resolved
                (mkFile (name file) (path file) (checksumType file) (checksumValue file)
                        granuleId_ (Some (bucket_name bucketConfig))
                        (filename file) (filepath file) (fileStagingDir file)
                        (js_or (rule_url_path fileTypeConfig)
                               (js_or (coll_url_path (this_collection g)) (Some ""))))
          end
      end
  end.

(** [l.map(f)] for an [f] that may throw: the first exception ends it. *)
Fixpoint map_throwing {A B} (f : A -> outcome B) (l : list A) : outcome (list B) :=
  match l with
  | [] => Resolved []
  | x :: rest =>
      match f x with
      | Rejected e => Rejected e
      | Resolved y =>
          match map_throwing f rest with
          | Rejected e => Rejected e
          | Resolved ys => Resolved (y :: ys)
          end
      end
  end.

(** The existence check of one discovered file, [null] when it exists. *)
Definition checkNew (discoveredFile : File) : M (option File) :=
  match bucket discoveredFile with
  | None =>
      exec tell (HeadObject "" (name discoveredFile)) in
      throw (S3Error "MissingRequiredParameter")
  | Some b =>
      await exists_ <- s3ObjectExists b (name discoveredFile) in
      ret (if exists_ then None else Some discoveredFile)
  end.

(** The body of the [try] block of [discover]. *)
Definition listDiscovered (g : t) (list_ : M (list File)) : M (list File) :=
  await listed <- list_ in
  lift (map_throwing (setGranuleInfo g)
          (List.filter (fun file => bool_decide (is_Some (fileTypeConfigForFile g file)))
             (List.filter (fun file => matches (granuleIdExtraction (this_collection g)) (name file))
                listed))).

(** The last statements of [discover]: the new files grouped by granule
    id, one granule per group. *)
Definition buildGranules (g : t) (newFiles : list File) : list GranuleRecord :=
  let filesByGranuleId := groupBy newFiles (fun file => js_string (granuleId file)) in
  map (fun group =>
         mkGranuleRecord (fst group)
                         (dataType (this_collection g))
                         (version (this_collection g))
                         (map omit_granuleId (snd group)))
      filesByGranuleId.

(** [discover()]; [list_] is [this.list()] of the protocol mixin. *)
Definition discover (g : t) (list_ : M (list File)) : M (list GranuleRecord) :=
  await discoveredFiles <-
    catch (listDiscovered g list_)
          (fun err => exec tell (LogException err) in ret []) in
  await checked <- promiseAll (map checkNew discoveredFiles) in
  let newFiles := omap id checked in
  ret (buildGranules g newFiles).

End Methods.
End Discover.

(** ** Moving staged files and rewriting the metadata document *)

(** One entry of the [destinations] argument of [moveGranuleFiles]. *)
Record Destination : Type := mkDestination {
  dest_regex : string;
  dest_bucket : string;
  dest_filepath : string
}.

Record OnlineAccessUrl : Type := mkUrl {
  URL : string;
  URLDescription : string
}.

(** What [updateMetadata] takes from the process environment, from
    [JSON.parse], from [xml2js] and from [./cmr].  [rewriteMetadata] stands
    for parsing the document, putting the URLs under [OnlineAccessURLs] and
    building the XML again; [publishToCmr] is the answer of the catalog. *)
Class CmrRuntime : Type := {
  env_bucket : string;
  env_stackName : string;
  parseBucketsJson : string -> outcome (list (string * BucketConfig));
  rewriteMetadata : string -> list OnlineAccessUrl -> outcome string;
  publishToCmr : string -> string -> outcome unit
}.

Module Mover.
Section Functions.
Context `{Runtime} `{CmrRuntime}.

(** [aws.getS3Object(bucket, key)], its body. *)
Definition getS3Object (b k : string) : M string :=
  fun w =>
    let w' := emit (GetObject b k) w in
    match objects w !! (b, k) with
    | Some body => (Resolved body, w')
    | None => (Rejected (S3Error "NoSuchKey"), w')
    end.

(** [getMetadata(xmlFilePath)]. *)
Definition getMetadata (xmlFilePath : option string) : M string :=
  match xmlFilePath with
  | None => throw (Error "XML Metadata file not provided")
  | Some uri =>
      if negb (truthy_str (Some uri)) then throw (Error "XML Metadata file not provided")
      else
        match str_match "^s3:\/\/(.+?)\/(.+)$" uri with
        | None => throw (TypeError "Cannot read property '1' of null")
        | Some parts =>
            match capture parts 1, capture parts 2 with
            | Some b, Some k => getS3Object b k
            | _, _ => throw (S3Error "MissingRequiredParameter")
            end
        end
  end.

(** [postS3Object(destination)], without the optional delete. *)
Definition postS3Object (b k : option string) (body : string) : M unit :=
  match b, k with
  | Some b, Some k =>
      exec tell (PutObject b k) in
      modify (set_objects (insert (b, k) body))
  | _, _ => throw (S3Error "MissingRequiredParameter")
  end.

(** The body of the [forEach] of [contructOnlineAccessUrls]: the URL of one
    file, if its bucket is protected or public. *)
Definition onlineAccessUrl (bucketsObject : list (string * BucketConfig))
    (distEndpoint : string) (file : File) : outcome (option OnlineAccessUrl) :=
  match List.find (fun kv => bool_decide (bucket file = Some (bucket_name (snd kv))))
                  bucketsObject with
  | None => Rejected (TypeError "Cannot read property 'type' of undefined")
  | Some (_, cfg) =>
      if String.eqb (bucket_type cfg) "protected" then
        Resolved (Some (mkUrl (urljoin distEndpoint
                                 (urljoin (bucket_name cfg) (js_string (filepath file))))
                              "File to download"))
      else if String.eqb (bucket_type cfg) "public" then
        Resolved (Some (mkUrl ("https://" +:+ bucket_name cfg +:+ ".s3.amazonaws.com/"
                                 +:+ js_string (filepath file))
                              "File to download"))
      else Resolved None
  end.

(** [contructOnlineAccessUrls(files, distEndpoint)]. *)
Definition contructOnlineAccessUrls (files_ : list File) (distEndpoint : string)
    : M (list OnlineAccessUrl) :=
  await bucketsString <-
    getS3Object env_bucket (env_stackName +:+ "/workflows/buckets.json") in
  await bucketsObject <- lift (parseBucketsJson bucketsString) in
  await urls <-
    lift (Discover.map_throwing (onlineAccessUrl bucketsObject distEndpoint) files_) in
  ret (omap id urls).

(** [updateMetadata(granuleId, cmrFile, files, distEndpoint, published)]. *)
Definition updateMetadata (granuleId_ : string) (cmrFile : File) (files_ : list File)
    (distEndpoint : string) (published : bool) : M unit :=
  await urls <- contructOnlineAccessUrls files_ distEndpoint in
  await metadata <- getMetadata (filename cmrFile) in
  await xml <- lift (rewriteMetadata metadata urls) in
  exec (if published then
          exec tell (Publish (js_string (filename cmrFile))) in
          lift (publishToCmr xml granuleId_)
        else ret tt) in
  postS3Object (bucket cmrFile) (filepath cmrFile) xml.

(** [copyGranuleFile(source, target)]: the copy source is the URL-encoded
    join of bucket and key, which the store reads back as that object. *)
Definition copyGranuleFile (sb sk tb tk : string) : M unit :=
  fun w =>
    let w' := emit (CopyObject sb sk tb tk) w in
    match objects w !! (sb, sk) with
    | Some body => (Resolved tt, set_objects (insert (tb, tk) body) w')
    | None => (Rejected (S3Error "NoSuchKey"), emit (LogError "Failed to copy") w')
    end.

(** [moveGranuleFile(source, target)]: copy, then delete the source. *)
Definition moveGranuleFile (sb sk tb tk : string) : M unit :=
  exec copyGranuleFile sb sk tb tk in
  exec tell (DeleteObject sb sk) in
  modify (set_objects (delete (sb, sk))).

(** What the callback of [sourceFiles.map] does with one file. *)
Inductive Request : Type :=
| Throws (e : error)                         (* the callback itself throws *)
| Skips (key : string)                       (* no destination: only [filepath] is set *)
| Moves (sb sk tb tk : string).              (* a move is requested *)

Definition request (destinations : list Destination) (file : File) : Request :=
  let destination :=
    List.find (fun dest => matches (dest_regex dest) (name file)) destinations in
  match filename file ≫= parseS3Uri with
  | None => Throws (TypeError "uri must be a S3 uri, e.g. s3://bucketname")
  | Some (pb, pk) =>
      match destination with
      | Some d => Moves pb pk (dest_bucket d) (urljoin (dest_filepath d) (name file))
      | None => Skips pk
      end
  end.

Definition set_filepath (file : File) (k : string) : File :=
  mkFile (name file) (path file) (checksumType file) (checksumValue file)
         (granuleId file) (bucket file) (filename file) (Some k)
         (fileStagingDir file) (url_path file).

Definition set_location (file : File) (tb tk : string) : File :=
  mkFile (name file) (path file) (checksumType file) (checksumValue file)
         (granuleId file) (Some tb) (Some (buildS3Uri tb tk)) (Some tk)
         (fileStagingDir file) (url_path file).

(** [sourceFiles.map(...)]: the files the callback was called on, each
    with what it requested, and the exception that ended the [map], if
    any.  The files after a throwing callback are not visited. *)
Fixpoint visit (destinations : list Destination) (sourceFiles : list File)
    : list (File * Request) * option error :=
  match sourceFiles with
  | [] => ([], None)
  | file :: rest =>
      match request destinations file with
      | Throws e => ([], Some e)
      | req =>
          let (visited, thrown) := visit destinations rest in
          ((file, req) :: visited, thrown)
      end
  end.

(** One request carried out: its outcome, the file object afterwards, and
    the world.  A move that fails leaves the file object as it was. *)
Definition performOne (file : File) (req : Request) (w : World)
    : outcome unit * File * World :=
  match req with
  | Throws e => (Rejected e, file, w)
  | Skips k => (Resolved tt, set_filepath file k, w)
  | Moves sb sk tb tk =>
      match moveGranuleFile sb sk tb tk w with
      | (Resolved _, w1) => (Resolved tt, set_location file tb tk, w1)
      | (Rejected e, w1) => (Rejected e, file, w1)
      end
  end.

(** [Promise.all] over the requests: all of them are carried out (here in
    list order), the first rejection is the outcome. *)
Fixpoint perform (requests : list (File * Request)) (w : World)
    : outcome unit * list File * World :=
  match requests with
  | [] => (Resolved tt, [], w)
  | (file, req) :: rest =>
      let '(r1, file', w1) := performOne file req w in
      let '(r, rest', w') := perform rest w1 in
      (match r1 with Rejected e => Rejected e | Resolved _ => r end, file' :: rest', w')
  end.

(** [sourceFiles.map(...)] followed by [await Promise.all(...)]: the
    outcome, the file objects as the requests leave them, and the world.
    The moves requested before a callback threw are still carried out. *)
Definition moveFileRequests (destinations : list Destination) (sourceFiles : list File)
    (w : World) : outcome unit * list File * World :=
  let (visited, thrown) := visit destinations sourceFiles in
  let '(r, files_, w') := perform visited w in
  (match thrown with Some e => Rejected e | None => r end,
   (files_ ++ drop (length visited) sourceFiles)%list, w').

(** [moveGranuleFiles(granuleId, sourceFiles, destinations, distEndpoint,
    published)]. *)
Definition moveGranuleFiles (granuleId_ : string) (sourceFiles : list File)
    (destinations : list Destination) (distEndpoint : string) (published : bool)
    (w : World) : outcome unit * list File * World :=
  let '(r, files_, w1) := moveFileRequests destinations sourceFiles w in
  match r with
  | Rejected e => (Rejected e, files_, w1)
  | Resolved _ =>
      let xmlFile := List.filter (fun file => endsWith ".cmr.xml" (name file)) files_ in
      match xmlFile with
      | [cmrFile] =>
          let (r', w2) := updateMetadata granuleId_ cmrFile files_ distEndpoint published w1 in
          (r', files_, w2)
      | _ :: _ :: _ =>
          (Resolved tt, files_, emit (LogError "more than one .cmr.xml found") w1)
      | [] => (Resolved tt, files_, w1)
      end
  end.

End Functions.
End Mover.

(** ** Reading the metadata documents of a granule *)

Module CmrFiles.

(** How [getGranuleId] and [getCmrFiles] end: with a value, with the
    rejection of a call they make, or with the [ReferenceError] of reading
    a variable that is not defined. *)
Inductive Result (A : Type) : Type :=
| Returns (a : A)
| Rejects (e : error)
| ReferenceError (message : string).
Arguments Returns {A} a.
Arguments Rejects {A} e.
Arguments ReferenceError {A} message.

Section Functions.
Context `{Runtime}.

(** [path.basename], and [parseXmlString] ([xml2js] with the options of
    [@cumulus/cmrjs]) with the type of the objects it makes. *)
Context {Xml : Type}.
Variable basename : string -> string.
Variable parseXmlString : string -> outcome Xml.

(** One element of the result of [getCmrFiles]. *)
Record CmrFileObject : Type := mkCmrFileObject {
  cmr_filename : string;
  cmr_metadata : string;
  cmr_metadataObject : Xml;
  cmr_granuleId : option string
}.

(** [getGranuleId(uri, regex)].  The message of the error for a name that
    does not match is built from [filename], which the function does not
    define: in strict mode reading it throws. *)
Definition getGranuleId (uri regex : string) : Result (option string) :=
  match str_match regex (basename uri) with
  | Some match_ => Returns (capture match_ 1)
  | None => ReferenceError "filename is not defined"
  end.

(** The loop of [getCmrFiles(input, granuleIdExtraction)] over the entries
    that are left, [files] being what was pushed so far. *)
Fixpoint getCmrFiles_loop (input : list (option string)) (granuleIdExtraction_ : string)
    (files_ : list CmrFileObject) (w : World) : Result (list CmrFileObject) * World :=
  match input with
  | [] => (Returns files_, w)
  | filename_ :: rest =>
      if truthy_str filename_ && matches ".*\.cmr\.xml$" (default "" filename_) then
        match Mover.getMetadata filename_ w with
        | (Rejected e, w1) => (Rejects e, w1)
        | (Resolved metadata, w1) =>
            match parseXmlString metadata with
            | Rejected e => (Rejects e, w1)
            | Resolved metadataObject =>
                match getGranuleId (default "" filename_) granuleIdExtraction_ with
                | Returns granuleId_ =>
                    getCmrFiles_loop rest granuleIdExtraction_
                      (files_ ++ [mkCmrFileObject (default "" filename_) metadata
                                                  metadataObject granuleId_])%list
                      w1
                | Rejects e => (Rejects e, w1)
                | ReferenceError message => (ReferenceError message, w1)
                end
            end
        end
      else getCmrFiles_loop rest granuleIdExtraction_ files_ w
  end.

(** [getCmrFiles(input, granuleIdExtraction)]. *)
Definition getCmrFiles (input : list (option string)) (granuleIdExtraction_ : string)
    (w : World) : Result (list CmrFileObject) * World :=
  getCmrFiles_loop input granuleIdExtraction_ [] w.

End Functions.
End CmrFiles.

(** ** A concrete runtime and sample data *)

Module Sample.

(** The matches that the sample data needs, as [String.prototype.match]
    returns them; every other pair asked for below is a pair that does not
    match. *)
Definition matchTable : list (string * string * list (option string)) :=
  [ ("^([a-z0-9]+)\.", "g1.hdf", [Some "g1."; Some "g1"]);
    ("^([a-z0-9]+)\.", "g1.txt", [Some "g1."; Some "g1"]);
    ("^([a-z0-9]+)\.", "g1.cmr.xml", [Some "g1."; Some "g1"]);
    ("^([a-z0-9]+)\.", "g2.hdf", [Some "g2."; Some "g2"]);
    ("^([a-z0-9]+)\.", "g2.txt", [Some "g2."; Some "g2"]);
    ("\.hdf$", "g1.hdf", [Some ".hdf"]);
    ("\.hdf$", "g2.hdf", [Some ".hdf"]);
    ("\.txt$", "g1.txt", [Some ".txt"]);
    ("\.txt$", "g2.txt", [Some ".txt"]);
    ("\.cmr\.xml$", "g1.cmr.xml", [Some ".cmr.xml"]);
    ("^g1", "g1.hdf", [Some "g1"]);
    ("^g1", "g1.txt", [Some "g1"]);
    ("^g1", "g1.cmr.xml", [Some "g1"]);
    ("^s3:\/\/(.+?)\/(.+)$", "s3://public-bucket/staged/g1.cmr.xml",
       [Some "s3://public-bucket/staged/g1.cmr.xml"; Some "public-bucket";
        Some "staged/g1.cmr.xml"]) ].

Definition sample_match (re s : string) : option (list (option string)) :=
  snd <$> List.find (fun e => String.eqb (fst (fst e)) re && String.eqb (snd (fst e)) s)
                    matchTable.

(** ["s3://bucket/key"] cut at the first slash after the scheme. *)
Definition sample_parseS3Uri (uri : string) : option (string * string) :=
  if String.prefix "s3://" uri then
    let rest := String.substring 5 (String.length uri - 5) uri in
    match String.index 0 "/" rest with
    | Some i =>
        Some (String.substring 0 i rest,
              String.substring (i + 1) (String.length rest - (i + 1)) rest)
    | None => None
    end
  else None.

(** Path segments that need no normalisation are joined by a slash; the
    digests stand for CKSUM (a number) and md5 (a string). *)
#[global] Instance runtime : Runtime := {|
  str_match := sample_match;
  path_join := fun a b => a +:+ "/" +:+ b;
  urljoin := fun a b => a +:+ "/" +:+ b;
  digest := fun type body =>
    match type with
    | JSStr "md5" => JSStr ("md5-of-" +:+ body)
    | _ => JSNum (Z.of_nat (String.length body))
    end;
  parseS3Uri := sample_parseS3Uri;
  buildS3Uri := fun b k => "s3://" +:+ b +:+ "/" +:+ k;
  constructCollectionId := fun d v => js_string d +:+ "___" +:+ js_string v
|}.

Definition buckets : gmap string BucketConfig :=
  {[ "internal" := mkBucketConfig "internal-bucket" "internal";
     "protected" := mkBucketConfig "protected-bucket" "protected";
     "public" := mkBucketConfig "public-bucket" "public" ]}.

Definition collection : Collection :=
  mkCollection "MOD09GQ" (Some "MOD09GQ") (Some "006") "^([a-z0-9]+)\."
    [ mkFileRule "\.hdf$" "protected" (Some "hdf-path");
      mkFileRule "\.txt$" "public" None;
      mkFileRule "^g1" "protected" (Some "g1-path") ]
    (Some "default-path").

Definition provider : Provider := mkProvider "PODAAC" "ftp".

(** A listing entry. *)
Definition listed (n : string) (type value : jsval) : File :=
  mkFile n "/granules" type value None None None None None None.

Definition ingestObject (duplicateHandling : string) : Granule.t :=
  Granule.mk buckets (Some collection) provider "file-staging" ∅ duplicateHandling.

Definition emptyWorld : World := mkWorld ∅ ∅ ∅ ∅ ∅ ∅ [].

(** The provider holds two granule files and a checksum sidecar. *)
Definition providerFiles : gmap string string :=
  {[ "/granules/g1.hdf" := "DATA-1";
     "/granules/g1.txt" := "TEXT-1";
     "/granules/g1.txt.md5" := "md5-of-TEXT-1 g1.txt" ]}.

Definition world0 : World := mkWorld ∅ ∅ ∅ providerFiles ∅ ∅ [].

(** The same, with [g1.hdf] already staged from an earlier run. *)
Definition worldStaged : World :=
  mkWorld {[ ("internal-bucket", "file-staging/g1.hdf") := "OLD-DATA" ]}
          ∅ ∅ providerFiles ∅ ∅ [].

Definition discoverObject : Discover.t := Discover.mk buckets collection provider.

(** What the provider lists: three granule files and a file that the
    extraction pattern does not match. *)
Definition listing : list File :=
  [ listed "g1.hdf" JSUndefined JSUndefined;
    listed "g1.txt" JSUndefined JSUndefined;
    listed "g2.hdf" JSUndefined JSUndefined;
    listed "README" JSUndefined JSUndefined ].

(** The granules that are new when the store is empty. *)
Definition discoveredGranules : list GranuleRecord :=
  [ mkGranuleRecord "g1" (Some "MOD09GQ") (Some "006")
      [ mkFile "g1.hdf" "/granules" JSUndefined JSUndefined None (Some "protected-bucket")
               None None None (Some "hdf-path");
        mkFile "g1.txt" "/granules" JSUndefined JSUndefined None (Some "public-bucket")
               None None None (Some "default-path") ];
    mkGranuleRecord "g2" (Some "MOD09GQ") (Some "006")
      [ mkFile "g2.hdf" "/granules" JSUndefined JSUndefined None (Some "protected-bucket")
               None None None (Some "hdf-path") ] ].

(** A store that answers the existence check of [g1.hdf] with an error. *)
Definition worldHeadFails : World :=
  mkWorld ∅ ∅ {[ ("protected-bucket", "g1.hdf") ]} providerFiles ∅ ∅ [].

(** The environment of [updateMetadata]: the buckets document, a rewrite
    that records how many URLs it was given, and a catalog that accepts. *)
#[global] Instance cmrRuntime : CmrRuntime := {|
  env_bucket := "internal-bucket";
  env_stackName := "stack";
  parseBucketsJson := fun _ =>
    Resolved [ ("internal", mkBucketConfig "internal-bucket" "internal");
               ("protected", mkBucketConfig "protected-bucket" "protected");
               ("public", mkBucketConfig "public-bucket" "public") ];
  rewriteMetadata := fun metadata urls =>
    Resolved (metadata +:+ "+" +:+ String.concat "," (map URL urls));
  publishToCmr := fun _ _ => Resolved tt
|}.

(** A staged file object. *)
Definition stagedFile (n b : string) (fp : option string) : File :=
  mkFile n "/granules" JSUndefined JSUndefined None (Some b)
         (Some ("s3://" +:+ b +:+ "/staged/" +:+ n)) fp None None.

(** Text files go to the public bucket, under [moved]. *)
Definition destinations : list Destination :=
  [ mkDestination "\.txt$" "public-bucket" "moved" ].

(** A text file, and a data file whose object has no [filepath]. *)
Definition stagedFiles : list File :=
  [ stagedFile "g1.txt" "internal-bucket" (Some "staged/g1.txt");
    stagedFile "g1.hdf" "internal-bucket" None ].


(** The same with one metadata document. *)
Definition stagedFilesOneCmr : list File :=
  [ stagedFile "g1.txt" "internal-bucket" (Some "staged/g1.txt");
    stagedFile "g1.cmr.xml" "public-bucket" (Some "staged/g1.cmr.xml") ].

Definition worldMove : World :=
  mkWorld {[ ("internal-bucket", "staged/g1.txt") := "TEXT-1";
             ("internal-bucket", "staged/g1.hdf") := "DATA-1";
             ("public-bucket", "staged/g1.cmr.xml") := "<Granule/>";
             ("public-bucket", "staged/g2.cmr.xml") := "<Granule/>";
             ("internal-bucket", "stack/workflows/buckets.json") := "{}" ]}
          ∅ ∅ ∅ ∅ ∅ [].

(** Two granules of one file each; the provider has the first file only. *)
Definition granule1 : GranuleRecord :=
  mkGranuleRecord "g1" (Some "MOD09GQ") (Some "006")
    [listed "g1.hdf" JSUndefined JSUndefined].

Definition granule2 : GranuleRecord :=
  mkGranuleRecord "g2" (Some "MOD09GQ") (Some "006")
    [listed "g2.hdf" JSUndefined JSUndefined].

(** The [ingest] method of the sample ingest object. *)
Definition ingest_method (g : Granule.t) (granule : GranuleRecord) (b : string)
    : M (Granule.t * GranuleRecord) :=
  Granule.ingest g (fun _ => Granule.LandsBeforeSync) granule b.

(** A granule of a text file and its checksum sidecar. *)
Definition granuleWithSidecar : GranuleRecord :=
  mkGranuleRecord "g1" (Some "MOD09GQ") (Some "006")
    [ listed "g1.txt" JSUndefined JSUndefined;
      listed "g1.txt.md5" JSUndefined JSUndefined ].

(** The same when the provider's sidecar names another digest. *)
Definition worldBadSidecar : World :=
  mkWorld ∅ ∅ ∅
          {[ "/granules/g1.txt" := "TEXT-1";
             "/granules/g1.txt.md5" := "md5-of-OTHER g1.txt" ]}
          ∅ ∅ [].

(** The versioning call lands before the transfer, for every file. *)
Definition sched (file : File) : Granule.Schedule := Granule.LandsBeforeSync.

(** The configuration of a [sync-granule] task. *)
Definition taskConfig : SyncGranule.Config :=
  SyncGranule.mkConfig "stack" buckets (Some provider) (Some collection) None None
                       "internal-bucket" None None None.

(** [e.toString()]: the name of the error and its message. *)
Definition toString (e : error) : string :=
  match e with
  | InvalidChecksum fileName _ _ => "InvalidChecksum: Invalid checksum for " +:+ fileName
  | ResourcesLockedError message => "ResourcesLockedError: " +:+ message
  | RemoteResourceError message => "RemoteResourceError: " +:+ message
  | S3Error code => code
  | TypeError message => "TypeError: " +:+ message
  | Error message => "Error: " +:+ message
  end.

(** No error carries [details]. *)
Definition timedOut (e : error) : bool := false.

(** A world in which the lease of [g1] is held. *)
Definition worldLocked : World :=
  mkWorld ∅ ∅ ∅ providerFiles {[ ("PODAAC", "g1") ]} ∅ [].

(** The same environment with a catalog that refuses every document. *)
Definition cmrRuntimeDown : CmrRuntime := {|
  env_bucket := "internal-bucket";
  env_stackName := "stack";
  parseBucketsJson := parseBucketsJson;
  rewriteMetadata := rewriteMetadata;
  publishToCmr := fun _ _ => Rejected (Error "CMR Error: 503")
|}.


(** The sample runtime with a pattern engine that also knows the pattern of
    [getCmrFiles]. *)
Definition runtimeCmr : Runtime := {|
  str_match := fun re s =>
    if String.eqb re ".*\.cmr\.xml$" then
      if endsWith ".cmr.xml" s then Some [Some s] else None
    else sample_match re s;
  path_join := path_join;
  urljoin := urljoin;
  digest := digest;
  parseS3Uri := parseS3Uri;
  buildS3Uri := buildS3Uri;
  constructCollectionId := constructCollectionId
|}.

(** [path.basename] of an S3 URI of the sample data. *)
Definition basename (uri : string) : string :=
  if String.eqb uri "s3://public-bucket/staged/g1.cmr.xml" then "g1.cmr.xml" else uri.

(** A parser that accepts every document. *)
Definition parseXmlString (xml : string) : outcome string := Resolved xml.

(** A file that only the first file definition matches. *)
Definition otherFile : File := listed "g2.hdf" JSUndefined JSUndefined.

End Sample.

(** ** Notions the properties are stated with *)

(** The calls to the lock, as they appear in a trace. *)
Definition lockEvent (e : Event) : bool :=
  match e with
  | LockProceed _ _ | LockRemove _ _ => true
  | _ => false
  end.

(** A promise that neither calls the lock nor changes the leases. *)
Definition quiet {A} (m : M A) : Prop :=
  forall w,
    List.filter lockEvent (trace (snd (m w))) = List.filter lockEvent (trace w)
    /\ locks (snd (m w)) = locks w.

(** What a call may do: the objects it may write or delete and those it
    may delete, by key; the buckets whose versioning it may switch on; the
    leases it may take or release, by key; the calls it may make to the
    outside. *)
Record Footprint : Type := mkFootprint {
  objectKeys : string * string -> Prop;
  deletedKeys : string * string -> Prop;
  versionedBuckets : string -> Prop;
  leases : string * string -> Prop;
  events : Event -> Prop
}.

(** [w'] comes from [w] within the footprint: every object outside
    [objectKeys] is as before, every object outside [deletedKeys] is still
    there, versioning is never switched off and is switched on only for
    [versionedBuckets], every lease outside [leases] is as before, the
    provider's files, the failing requests and the configuration store are
    untouched, and the trace has grown by calls in [events] only. *)
Definition changesOnly (fp : Footprint) (w w' : World) : Prop :=
  (forall key, ~ objectKeys fp key -> objects w' !! key = objects w !! key)
  /\ (forall key, ~ deletedKeys fp key ->
        is_Some (objects w !! key) -> is_Some (objects w' !! key))
  /\ (forall x, x ∈ versioning w -> x ∈ versioning w')
  /\ (forall x, x ∈ versioning w' -> x ∈ versioning w \/ versionedBuckets fp x)
  /\ (forall l, ~ leases fp l -> (l ∈ locks w' <-> l ∈ locks w))
  /\ remote w' = remote w
  /\ headFailures w' = headFailures w
  /\ configStore w' = configStore w
  /\ exists called, trace w' = (trace w ++ called)%list /\ Forall (events fp) called.

(** A promise that stays within a footprint, from every world. *)
Definition framed (fp : Footprint) {A} (m : M A) : Prop :=
  forall w, changesOnly fp w (snd (m w)).

(** The footprint of a call that changes nothing and only makes calls in
    [events_]. *)
Definition readsOnly (events_ : Event -> Prop) : Footprint :=
  mkFootprint (fun _ => False) (fun _ => False) (fun _ => False) (fun _ => False) events_.

(** The calls that [discover] makes once it has the listing: existence
    checks, and the log of a caught exception. *)
Definition discoverEvent (e : Event) : Prop :=
  match e with
  | HeadObject _ _ | LogException _ => True
  | _ => False
  end.

(** The calls that [ingest] makes for some bucket: existence checks,
    transfers and checksums of objects of that bucket, downloads of
    sidecars, and, when duplicates are versioned, the two versioning
    requests. *)
Definition ingestEvent (b duplicateHandling : string) (e : Event) : Prop :=
  match e with
  | HeadObject b' _ | Sync _ b' _ | ChecksumS3Objects _ b' _ => b' = b
  | Download _ => True
  | GetBucketVersioning _ | PutBucketVersioning _ => duplicateHandling = "version"
  | _ => False
  end.

(** What [ingest] may do for some granules: write objects of the bucket it
    is given and, when duplicates are versioned, switch on the versioning
    of the buckets that the granules' files name. *)
Definition ingestFootprint (b duplicateHandling : string) (granules : list GranuleRecord)
    (leases_ : string * string -> Prop) (events_ : Event -> Prop) : Footprint :=
  mkFootprint (fun key => fst key = b)
              (fun _ => False)
              (fun x => duplicateHandling = "version"
                        /\ exists granule file,
                             granule ∈ granules /\ file ∈ g_files granule
                             /\ bucket file = Some x)
              leases_
              (fun e => ingestEvent b duplicateHandling e \/ events_ e).

(** The calls to the lock for a provider, and the logging of an error. *)
Definition lockOrLogEvent (providerId : string) (e : Event) : Prop :=
  match e with
  | LockProceed p _ | LockRemove p _ => p = providerId
  | LogException _ | LogError _ => True
  | _ => False
  end.

(** A name that [filterChecksumFiles] takes for a checksum sidecar:
    [.md5] occurs in it, and not at the very start. *)
Definition isChecksumFile (fileName : string) : bool :=
  match indexOf ".md5" fileName with
  | Some (S _) => true
  | _ => false
  end.

(** The name a sidecar is recorded under. *)
Definition checksumKey (fileName : string) : string := replace_first ".md5" "" fileName.

(** The sidecar that [ingest] records for a file name: the last file of the
    granule that is a checksum sidecar of that name. *)
Definition sidecarOf (files_ : list File) (fileName : string) : option File :=
  last (List.filter (fun f => isChecksumFile (name f)
                              && String.eqb (checksumKey (name f)) fileName) files_).

(** The calls to the catalog, as they appear in a trace. *)
Definition publishEvent (e : Event) : bool :=
  match e with
  | Publish _ => true
  | _ => false
  end.

(** The writes to the store, as they appear in a trace. *)
Definition writeEvent (e : Event) : bool :=
  match e with
  | PutObject _ _ | CopyObject _ _ _ _ | DeleteObject _ _ | Sync _ _ _ => true
  | _ => false
  end.

Section Reading.
Context `{Runtime}.

(** A file definition provides a [url_path] for a file when its regex
    matches the file's name and its own [url_path] is set. *)
Definition provides (file : File) (fileDef : FileRule) : bool :=
  matches (regex fileDef) (name file) && truthy_str (rule_url_path fileDef).

(** The [url_path] the specification describes: that of the matching file
    definition that provides one, and the collection's default when none
    does.  The specification calls that definition the most specific one;
    where several matching definitions provide a [url_path], it is the one
    listed last. *)
Definition resolvedUrlPath (c : Collection) (file : File) : option string :=
  match last (List.filter (provides file) (files c)) with
  | Some fileDef => rule_url_path fileDef
  | None => coll_url_path c
  end.

(** The key [ingestFile] asks the store about, and the key it writes. *)
Definition checkedKey (g : Granule.t) (file : File) : string :=
  path_join (Granule.this_fileStagingDir g) (name file).

Definition stagedKey (g : Granule.t) (file : File) : string :=
  strip_leading_slash (checkedKey g file).

(** Where a file object says the provider keeps the file. *)
Definition remotePathOf (file : File) : string := path_join (path file) (name file).

(** [ingestFile] leaves early: the staged object is found and duplicates
    are skipped. *)
Definition skipsExisting (g : Granule.t) (file : File) (b duplicateHandling : string)
    (w : World) : bool :=
  bool_decide (is_Some (objects w !! (b, checkedKey g file)))
  && String.eqb duplicateHandling "skip".

(** The checksum that applies to a file: the one on the file object when
    type and value are both set, otherwise the first word of its sidecar
    with type md5, when a sidecar was recorded for the file's name, the
    provider has it and it is not empty. *)
Definition applicableChecksum (g : Granule.t) (file : File)
    (providerFiles : gmap string string) : option (jsval * jsval) :=
  if truthy (checksumType file) && truthy (checksumValue file)
  then Some (checksumType file, checksumValue file)
  else
    match Granule.this_checksumFiles g !! name file with
    | Some sidecar =>
        match providerFiles !! remotePathOf sidecar with
        | Some text =>
            if String.eqb (first_token text) "" then None
            else Some (JSStr "md5", JSStr (first_token text))
        | None => None
        end
    | None => None
    end.

(** The two requests of [enableBucketVersioning]. *)
Definition versioningEvent (e : Event) : bool :=
  match e with
  | GetBucketVersioning _ | PutBucketVersioning _ => true
  | _ => false
  end.

(** What [ingestFile] does after the transfer. *)
Definition afterTransfer (g : Granule.t) (file : File) (b : string) : M File :=
  exec Granule.validateChecksum g file b (stagedKey g file) in
  await c <- Granule.the_collection g in
  ret (mkFile (name file) (path file) (checksumType file) (checksumValue file)
              (granuleId file) (Some b) (Some (buildS3Uri b (stagedKey g file)))
              (filepath file) (Some (Granule.this_fileStagingDir g))
              (Granule.getUrlPath c file)).

(** The granule id that the collection's pattern extracts from a file
    name: its first capture group, when the pattern matches and the group
    is set. *)
Definition extractedId (g : Discover.t) (fileName : string) : option string :=
  str_match (granuleIdExtraction (Discover.this_collection g)) fileName
    ≫= fun granuleIdMatch => capture granuleIdMatch 1.

(** The destination object of a discovered file is in the store. *)
Definition existsInStore (store : gmap (string * string) string) (file : File) : bool :=
  match bucket file with
  | Some b => bool_decide (is_Some (store !! (b, name file)))
  | None => false
  end.

(** The existence check of a discovered file fails. *)
Definition checkFails (failures : gset (string * string)) (file : File) : bool :=
  match bucket file with
  | Some b => bool_decide ((b, name file) ∈ failures)
  | None => true
  end.

(** The files [discover] goes on with, and the world it goes on in: what
    the [try] block produced, or nothing when it threw. *)
Definition discoveredFiles (g : Discover.t) (list_ : M (list File)) (w : World)
    : list File * World :=
  match Discover.listDiscovered g list_ w with
  | (Resolved discovered, w0) => (discovered, w0)
  | (Rejected e, w0) => ([], emit (LogException e) w0)
  end.

(** The new files: those whose destination object is not in the store. *)
Definition newFiles (store : gmap (string * string) string) (discovered : list File)
    : list File :=
  List.filter (fun file => negb (existsInStore store file)) discovered.

(** The first destination, in the order of the list, whose regex matches
    the file's name. *)
Definition firstDestination (destinations : list Destination) (file : File)
    : option Destination :=
  List.find (fun dest => matches (dest_regex dest) (name file)) destinations.

(** A file object after [moveGranuleFiles], against the object before: it
    carries the location its first matching destination gives it, or, when
    no destination matches, its bucket and filename as before and as
    filepath the key of its filename. *)
Definition movedAsRouted (destinations : list Destination) (file file' : File) : Prop :=
  name file' = name file
  /\ match firstDestination destinations file with
     | Some d =>
         bucket file' = Some (dest_bucket d)
         /\ filepath file' = Some (urljoin (dest_filepath d) (name file))
         /\ filename file'
            = Some (buildS3Uri (dest_bucket d) (urljoin (dest_filepath d) (name file)))
     | None =>
         bucket file' = bucket file
         /\ filename file' = filename file
         /\ exists pb pk, filename file ≫= parseS3Uri = Some (pb, pk)
                          /\ filepath file' = Some pk
     end.

(** The objects that the moves of some files read and then delete. *)
Definition moveSources (destinations : list Destination) (sourceFiles : list File)
    : list (string * string) :=
  omap (fun file =>
          match Mover.request destinations file with
          | Mover.Moves sb sk _ _ => Some (sb, sk)
          | _ => None
          end) sourceFiles.

(** The keys that the moves of some files write. *)
Definition moveTargets (destinations : list Destination) (sourceFiles : list File)
    : list (string * string) :=
  omap (fun file =>
          match Mover.request destinations file with
          | Mover.Moves _ _ tb tk => Some (tb, tk)
          | _ => None
          end) sourceFiles.

(** What the moves from [sources] to [targets] may do: write the targets,
    delete the sources, and log a failed copy. *)
Definition moveFootprint (sources targets : list (string * string)) : Footprint :=
  mkFootprint (fun key => key ∈ sources \/ key ∈ targets)
              (fun key => key ∈ sources)
              (fun _ => False)
              (fun _ => False)
              (fun e => match e with
                        | CopyObject sb sk tb tk => (sb, sk) ∈ sources /\ (tb, tk) ∈ targets
                        | DeleteObject b k => (b, k) ∈ sources
                        | LogError _ => True
                        | _ => False
                        end).

(** The calls that [updateMetadata] makes before it writes the document:
    reads of the store and, when the granule is published, the request to
    the catalog. *)
Definition metadataReadEvent (published : bool) (e : Event) : Prop :=
  match e with
  | GetObject _ _ => True
  | Publish _ => published = true
  | _ => False
  end.

(** What [updateMetadata] may do: besides those calls, write the object
    that the metadata file's [bucket] and [filepath] name. *)
Definition metadataFootprint (cmrFile : File) (published : bool) : Footprint :=
  mkFootprint (fun key => bucket cmrFile = Some (fst key) /\ filepath cmrFile = Some (snd key))
              (fun _ => False)
              (fun _ => False)
              (fun _ => False)
              (fun e => metadataReadEvent published e
                        \/ exists b k, e = PutObject b k
                                       /\ bucket cmrFile = Some b /\ filepath cmrFile = Some k).

(** A file that gets an online access URL: the first entry of the buckets
    document that has the file's bucket as its name is protected or
    public. *)
Definition distributed (bucketsObject : list (string * BucketConfig)) (file : File) : bool :=
  match List.find (fun kv => bool_decide (bucket file = Some (bucket_name (snd kv))))
                  bucketsObject with
  | Some (_, cfg) =>
      String.eqb (bucket_type cfg) "protected" || String.eqb (bucket_type cfg) "public"
  | None => false
  end.


(** The entries of an input of [getCmrFiles] that name a metadata
    document. *)
Definition cmrEntries (input : list (option string)) : list string :=
  omap (fun entry =>
          if truthy_str entry && matches ".*\.cmr\.xml$" (default "" entry)
          then entry else None) input.

(** Reads of the store, as they appear in a trace. *)
Definition readEvent (e : Event) : Prop :=
  match e with
  | GetObject _ _ => True
  | _ => False
  end.


End Reading.

(** * Properties *)

(** ** [getUrlPath]: which [url_path] a staged file gets *)

Section UrlPath.
Context `{Runtime}.

Lemma last_filter_holds {A} (p : A -> bool) (l : list A) (x : A) :
  last (List.filter p l) = Some x -> p x = true.
Proof.
  intros Hlast.
  assert (Hin : In x (List.filter p l)).
  { apply list_elem_of_In. apply last_Some_elem_of. exact Hlast. }
  apply List.filter_In in Hin. tauto.
Qed.

Lemma getUrlPath_loop (file : File) (l : list FileRule) (acc : option string) :
  foldl (fun urlPath fileDef =>
           if matches (regex fileDef) (name file) && truthy_str (rule_url_path fileDef)
           then rule_url_path fileDef else urlPath) acc l
  = match last (List.filter (provides file) l) with
    | Some fileDef => rule_url_path fileDef
    | None => acc
    end.
Proof.
  revert acc. induction l as [|d l IH] using rev_ind; intros acc; [reflexivity|].
  rewrite foldl_app, List.filter_app. cbn [foldl List.filter].
  unfold provides at 2.
  destruct (matches (regex d) (name file) && truthy_str (rule_url_path d)) eqn:Hd.
  - rewrite last_snoc. reflexivity.
  - rewrite app_nil_r. apply IH.
Qed.

Lemma getUrlPath_resolved (c : Collection) (file : File) :
  Granule.getUrlPath c file = resolvedUrlPath c file.
Proof.
  unfold Granule.getUrlPath, resolvedUrlPath.
  rewrite getUrlPath_loop.
  destruct (last (List.filter (provides file) (files c))) as [d|] eqn:Hlast.
  - apply last_filter_holds in Hlast. unfold provides in Hlast.
    apply andb_prop in Hlast as [_ Hset]. rewrite Hset. reflexivity.
  - reflexivity.
Qed.

End UrlPath.

(** ** Strings *)









(** ** [ingestFile] *)

Section IngestFile.
Context `{Runtime}.

(** The versioning call only touches the versioning state and the trace. *)
Lemma landing_versioning_frame (sched point : Granule.Schedule) (file : File)
    (duplicateHandling : string) (w : World) :
  exists w',
    Granule.landing sched point (Granule.versioningCall file duplicateHandling) w
    = (Resolved tt, w')
    /\ objects w' = objects w /\ remote w' = remote w
    /\ headFailures w' = headFailures w
    /\ (forall x, x ∈ versioning w' -> x ∈ versioning w \/ bucket file = Some x)
    /\ exists l, trace w' = (trace w ++ l)%list
                 /\ Forall (fun e => versioningEvent e = true) l.
Proof.
  unfold Granule.landing, Granule.versioningCall, detached,
    Granule.enableBucketVersioning, bind, tell, gets, modify, ret, throw.
  destruct sched, point, (String.eqb duplicateHandling "version");
    destruct (bucket file) as [fb|]; cbn; try case_bool_decide; cbn;
    eexists; (split; [reflexivity | do 3 (split; [reflexivity|])]).
  all: split;
    [ intros x Hx; try (apply elem_of_union in Hx as [Hx|Hx];
                        [apply elem_of_singleton in Hx; subst; right; reflexivity|]);
      left; exact Hx
    | cbn; rewrite <- ?app_assoc;
      first [ eexists; split; [reflexivity | repeat constructor]
            | exists []; split; [symmetry; apply app_nil_r | constructor] ] ].
Qed.

(** When the file is not skipped and the provider has it, [ingestFile]
    comes to its checksum validation with the provider's bytes stored under
    the staged key, having made the existence check, the transfer and, on
    one side of the transfer or the other, the versioning requests. *)
Lemma ingestFile_transfers (g : Granule.t) (sched : Granule.Schedule) (file : File)
    (b duplicateHandling body : string) (w : World) :
  (b, checkedKey g file) ∉ headFailures w ->
  skipsExisting g file b duplicateHandling w = false ->
  remote w !! remotePathOf file = Some body ->
  exists w3,
    objects w3 = <[(b, stagedKey g file) := body]> (objects w)
    /\ remote w3 = remote w
    /\ (forall x, x ∈ versioning w3 -> x ∈ versioning w \/ bucket file = Some x)
    /\ (exists l1 l2,
          trace w3 = (trace w ++ [HeadObject b (checkedKey g file)] ++ l1
                      ++ [Sync (remotePathOf file) b (stagedKey g file)] ++ l2)%list
          /\ Forall (fun e => versioningEvent e = true) l1
          /\ Forall (fun e => versioningEvent e = true) l2)
    /\ Granule.ingestFile g sched file b duplicateHandling w
       = afterTransfer g file b w3.
Proof.
  intros Hhead Hskip Hremote.
  unfold Granule.ingestFile, s3ObjectExists.
  unfold bind at 1. fold (checkedKey g file). fold (stagedKey g file).
  fold (remotePathOf file).
  rewrite bool_decide_eq_false_2 by exact Hhead.
  unfold skipsExisting in Hskip. rewrite Hskip.
  unfold bind at 1.
  destruct (landing_versioning_frame sched Granule.LandsBeforeSync file duplicateHandling
              (emit (HeadObject b (checkedKey g file)) w))
    as (w1 & -> & Ho1 & Hr1 & _ & Hv1 & l1 & Ht1 & Hl1).
  unfold bind at 1, finally, sync.
  rewrite Hr1. cbn [remote emit]. rewrite Hremote.
  destruct (landing_versioning_frame sched Granule.LandsAfterSync file duplicateHandling
              (set_objects (insert (b, stagedKey g file) body)
                 (emit (Sync (remotePathOf file) b (stagedKey g file)) w1)))
    as (w3 & -> & Ho3 & Hr3 & _ & Hv3 & l2 & Ht2 & Hl2).
  exists w3. split; [|split; [|split; [|split]]].
  - rewrite Ho3. cbn. rewrite Ho1. reflexivity.
  - rewrite Hr3. cbn. rewrite Hr1. reflexivity.
  - intros x Hx. apply Hv3 in Hx as [Hx|Hx]; [|right; exact Hx].
    cbn in Hx. apply Hv1 in Hx. exact Hx.
  - exists l1, l2. split; [|split; assumption].
    rewrite Ht2. cbn. rewrite Ht1. cbn. rewrite <- !app_assoc. reflexivity.
  - reflexivity.
Qed.

(** When the provider does not have the file, the transfer rejects. *)
Lemma ingestFile_remote_missing (g : Granule.t) (sched : Granule.Schedule) (file : File)
    (b duplicateHandling : string) (w : World) :
  (b, checkedKey g file) ∉ headFailures w ->
  skipsExisting g file b duplicateHandling w = false ->
  remote w !! remotePathOf file = None ->
  exists w',
    Granule.ingestFile g sched file b duplicateHandling w
    = (Rejected (RemoteResourceError (remotePathOf file)), w').
Proof.
  intros Hhead Hskip Hremote.
  unfold Granule.ingestFile, s3ObjectExists.
  unfold bind at 1. fold (checkedKey g file). fold (stagedKey g file).
  fold (remotePathOf file).
  rewrite bool_decide_eq_false_2 by exact Hhead.
  unfold skipsExisting in Hskip. rewrite Hskip.
  unfold bind at 1.
  destruct (landing_versioning_frame sched Granule.LandsBeforeSync file duplicateHandling
              (emit (HeadObject b (checkedKey g file)) w))
    as (w1 & -> & Ho1 & Hr1 & _).
  unfold bind at 1, finally, sync.
  rewrite Hr1. cbn [remote emit]. rewrite Hremote.
  destruct (landing_versioning_frame sched Granule.LandsAfterSync file duplicateHandling
              (emit (Sync (remotePathOf file) b (stagedKey g file)) w1))
    as (w3 & -> & _).
  eauto.
Qed.

(** [getChecksumFromFile] returns the applicable checksum when there is one,
    and does not touch the store. *)
Lemma getChecksumFromFile_applicable (g : Granule.t) (file : File) (w : World)
    (type value : jsval) :
  applicableChecksum g file (remote w) = Some (type, value) ->
  truthy type = true /\ truthy value = true
  /\ exists w',
       Granule.getChecksumFromFile g file w = (Resolved (type, value), w')
       /\ objects w' = objects w.
Proof.
  unfold applicableChecksum, Granule.getChecksumFromFile.
  destruct (truthy (checksumType file) && truthy (checksumValue file)) eqn:Hemb.
  - intros [= <- <-]. apply andb_prop in Hemb as [-> ->].
    split; [reflexivity|]. split; [reflexivity|]. eexists. split; reflexivity.
  - destruct (Granule.this_checksumFiles g !! name file) as [sidecar|]; [|discriminate].
    fold (remotePathOf sidecar). unfold bind, download.
    destruct (remote w !! remotePathOf sidecar) as [text|]; [|discriminate].
    destruct (String.eqb (first_token text) "") eqn:Hempty; [discriminate|].
    intros [= <- <-]. cbn. rewrite Hempty.
    split; [reflexivity|]. split; [reflexivity|]. eexists. split; reflexivity.
Qed.

(** The round trip: a transferred file whose applicable checksum is the
    digest of the provider's bytes is staged. *)
Lemma ingestFile_checksum_match (g : Granule.t) (sched : Granule.Schedule)
    (file : File) (b duplicateHandling body : string) (type value : jsval)
    (c : Collection) (w : World) :
  (b, checkedKey g file) ∉ headFailures w ->
  skipsExisting g file b duplicateHandling w = false ->
  remote w !! remotePathOf file = Some body ->
  applicableChecksum g file (remote w) = Some (type, value) ->
  digest type body = value ->
  Granule.this_collection g = Some c ->
  exists staged w',
    Granule.ingestFile g sched file b duplicateHandling w = (Resolved staged, w')
    /\ objects w' !! (b, stagedKey g file) = Some body
    /\ bucket staged = Some b
    /\ filename staged = Some (buildS3Uri b (stagedKey g file)).
Proof.
  intros Hhead Hskip Hremote Happ Heq Hc.
  destruct (ingestFile_transfers g sched file b duplicateHandling body w Hhead Hskip Hremote)
    as (w3 & Ho3 & Hr3 & _ & _ & ->).
  rewrite <- Hr3 in Happ.
  destruct (getChecksumFromFile_applicable g file w3 type value Happ)
    as (Ht & Hv & w4 & Hget & Ho4).
  unfold afterTransfer, Granule.validateChecksum.
  unfold bind at 1. unfold bind at 1. rewrite Hget. cbn [fst snd].
  rewrite Ht, Hv. cbn [negb orb].
  unfold bind, checksumS3Objects. rewrite Ho4, Ho3, lookup_insert_eq.
  unfold strict_neq. rewrite bool_decide_eq_true_2 by congruence.
  cbn [negb]. unfold Granule.the_collection. rewrite Hc. unfold ret.
  eexists _, _. split; [reflexivity|]. cbn.
  rewrite Ho4, Ho3, lookup_insert_eq. auto.
Qed.

(** C1, as the code has it: when a file is transferred (it is not skipped
    and the provider has it) and the checksum that applies to it differs
    from the digest of the provider's bytes, [ingestFile] rejects with
    [InvalidChecksum], so that no file record is returned; the bytes that
    were transferred stay in the store under the staged key. *)
Theorem ingestFile_checksum_mismatch (g : Granule.t) (sched : Granule.Schedule)
    (file : File) (b duplicateHandling body : string) (type value : jsval) (w : World) :
  (b, checkedKey g file) ∉ headFailures w ->
  skipsExisting g file b duplicateHandling w = false ->
  remote w !! remotePathOf file = Some body ->
  applicableChecksum g file (remote w) = Some (type, value) ->
  digest type body <> value ->
  exists w',
    Granule.ingestFile g sched file b duplicateHandling w
    = (Rejected (InvalidChecksum (name file) (checksumType file) (checksumValue file)), w')
    /\ objects w' !! (b, stagedKey g file) = Some body.
Proof.
  intros Hhead Hskip Hremote Happ Hneq.
  destruct (ingestFile_transfers g sched file b duplicateHandling body w Hhead Hskip Hremote)
    as (w3 & Ho3 & Hr3 & _ & _ & ->).
  rewrite <- Hr3 in Happ.
  destruct (getChecksumFromFile_applicable g file w3 type value Happ)
    as (Ht & Hv & w4 & Hget & Ho4).
  unfold afterTransfer, Granule.validateChecksum.
  unfold bind at 1. unfold bind at 1. rewrite Hget. cbn [fst snd].
  rewrite Ht, Hv. cbn [negb orb].
  unfold bind, checksumS3Objects. rewrite Ho4, Ho3, lookup_insert_eq.
  unfold strict_neq. rewrite bool_decide_eq_false_2 by congruence.
  cbn [negb]. unfold throw. eexists. split; [reflexivity|].
  cbn. rewrite Ho4, Ho3. apply lookup_insert_eq.
Qed.


(** When exactly one file definition matches a file, the resolved
    [url_path] is that definition's, or the collection's when it has none. *)
Lemma resolvedUrlPath_single (c : Collection) (file : File) (fileDef : FileRule) :
  fileDef ∈ files c ->
  matches (regex fileDef) (name file) = true ->
  (forall other, other ∈ files c -> matches (regex other) (name file) = true ->
                 other = fileDef) ->
  resolvedUrlPath c file = js_or (rule_url_path fileDef) (coll_url_path c).
Proof.
  intros Hin Hmatch Honly. unfold resolvedUrlPath, js_or.
  destruct (last (List.filter (provides file) (files c))) as [d|] eqn:Hlast.
  - assert (Hd : In d (List.filter (provides file) (files c))).
    { apply list_elem_of_In, last_Some_elem_of, Hlast. }
    apply List.filter_In in Hd as [Hd Hp]. unfold provides in Hp.
    apply andb_prop in Hp as [Hm Hset].
    rewrite <- (Honly d) by (try apply list_elem_of_In; assumption).
    rewrite Hset. reflexivity.
  - destruct (truthy_str (rule_url_path fileDef)) eqn:Hset; [|reflexivity].
    assert (Hd : In fileDef (List.filter (provides file) (files c))).
    { apply List.filter_In. split; [apply list_elem_of_In, Hin|].
      unfold provides. rewrite Hmatch, Hset. reflexivity. }
    apply last_None in Hlast. rewrite Hlast in Hd. destruct Hd.
Qed.

(** C7: a file that [ingestFile] stages gets the [url_path] of the matching
    file definition that provides one (the last such definition of the
    collection's list), and the collection's [url_path] when no matching
    definition provides one. *)
Theorem ingestFile_url_path (g : Granule.t) (sched : Granule.Schedule) (file : File)
    (b duplicateHandling : string) (c : Collection) (w w' : World) (staged : File) :
  Granule.this_collection g = Some c ->
  skipsExisting g file b duplicateHandling w = false ->
  Granule.ingestFile g sched file b duplicateHandling w = (Resolved staged, w') ->
  url_path staged = resolvedUrlPath c file
  /\ Granule.getUrlPath c file = resolvedUrlPath c file.
Proof.
  intros Hc Hskip Hrun. split; [|apply getUrlPath_resolved].
  destruct (decide ((b, checkedKey g file) ∈ headFailures w)) as [Hfail|Hhead].
  { exfalso. revert Hrun. unfold Granule.ingestFile, s3ObjectExists, bind.
    fold (checkedKey g file). rewrite bool_decide_eq_true_2 by exact Hfail.
    discriminate. }
  destruct (remote w !! remotePathOf file) as [body|] eqn:Hremote.
  - destruct (ingestFile_transfers g sched file b duplicateHandling body w
                Hhead Hskip Hremote) as (w3 & _ & _ & _ & _ & Heq).
    rewrite Heq in Hrun. revert Hrun. unfold afterTransfer, bind.
    destruct (Granule.validateChecksum g file b (stagedKey g file) w3) as [[[]|e] w4];
      [|discriminate].
    unfold Granule.the_collection. rewrite Hc. unfold ret.
    intros [= <- _]. cbn. apply getUrlPath_resolved.
  - destruct (ingestFile_remote_missing g sched file b duplicateHandling w
                Hhead Hskip Hremote) as (w3 & Heq).
    rewrite Heq in Hrun. discriminate.
Qed.


(** What follows the transfer changes neither the store nor the versioning
    of any bucket. *)
Lemma afterTransfer_frame (g : Granule.t) (file : File) (b : string) (w : World) :
  objects (snd (afterTransfer g file b w)) = objects w
  /\ versioning (snd (afterTransfer g file b w)) = versioning w.
Proof.
  unfold afterTransfer, Granule.validateChecksum, Granule.getChecksumFromFile,
    Granule.the_collection, bind, download, checksumS3Objects, ret, throw.
  repeat case_match; simplify_eq; cbn; auto.
Qed.

(** With [duplicateHandling = 'version'], whenever the file object does not
    name the bucket that is written to, the transferred bytes are put into
    that bucket and its versioning is left as it was, whichever way the
    versioning call is scheduled. *)
Lemma ingestFile_version_other_bucket (g : Granule.t) (sched : Granule.Schedule)
    (file : File) (b body : string) (w : World) :
  bucket file <> Some b ->
  b ∉ versioning w ->
  (b, checkedKey g file) ∉ headFailures w ->
  remote w !! remotePathOf file = Some body ->
  let run := Granule.ingestFile g sched file b "version" w in
  objects (snd run) !! (b, stagedKey g file) = Some body
  /\ b ∉ versioning (snd run).
Proof.
  intros Hother Hoff Hhead Hremote run.
  assert (Hskip : skipsExisting g file b "version" w = false).
  { unfold skipsExisting. apply andb_false_r. }
  destruct (ingestFile_transfers g sched file b "version" body w Hhead Hskip Hremote)
    as (w3 & Ho3 & _ & Hv3 & _ & Heq).
  unfold run. rewrite Heq.
  destruct (afterTransfer_frame g file b w3) as [-> ->]. split.
  - rewrite Ho3. apply lookup_insert_eq.
  - intros Hon. apply Hv3 in Hon as [Hon|Hon]; [contradiction|].
    apply Hother. exact Hon.
Qed.

End IngestFile.


(** The existence check is made at the joined path as it is, the transfer
    writes at the path without its leading slash: with a staging directory
    that begins with a slash, the check does not look at the object that the
    transfer overwrites. *)
Example ingestFile_skip_leading_slash :
  let g := Granule.mk Sample.buckets (Some Sample.collection) Sample.provider
             "/file-staging" ∅ "skip" in
  let file := Sample.listed "g1.hdf" JSUndefined JSUndefined in
  let run := Granule.ingestFile g Granule.LandsBeforeSync file "internal-bucket" "skip"
               Sample.worldStaged in
  checkedKey g file = "/file-staging/g1.hdf"
  /\ stagedKey g file = "file-staging/g1.hdf"
  /\ objects Sample.worldStaged !! ("internal-bucket", "file-staging/g1.hdf")
     = Some "OLD-DATA"
  /\ objects (snd run) !! ("internal-bucket", "file-staging/g1.hdf") = Some "DATA-1".
Proof.
  cbv zeta. vm_compute. repeat split; reflexivity.
Qed.

(** C1, as stated, fails: a file whose embedded CKSUM value (999) differs
    from the digest of the provider's bytes is rejected with
    [InvalidChecksum], and yet the store, which had no object under the
    staged key before the call, holds the transferred bytes after it. *)
Lemma ingestFile_mismatch_stays_staged :
  let file := Sample.listed "g1.hdf" (JSStr "CKSUM") (JSNum 999) in
  let run :=
    Granule.ingestFile (Sample.ingestObject "replace") Granule.LandsBeforeSync
      file "internal-bucket" "replace" Sample.world0 in
  digest (JSStr "CKSUM") "DATA-1" <> JSNum 999
  /\ remote Sample.world0 !! "/granules/g1.hdf" = Some "DATA-1"
  /\ objects Sample.world0 !! ("internal-bucket", "file-staging/g1.hdf") = None
  /\ fst run = Rejected (InvalidChecksum "g1.hdf" (JSStr "CKSUM") (JSNum 999))
  /\ objects (snd run) !! ("internal-bucket", "file-staging/g1.hdf") = Some "DATA-1".
Proof.
  cbv zeta. split; [discriminate|]. vm_compute. auto.
Qed.

Lemma ingestFile_checksum_mismatch_witness :
  exists w',
    Granule.ingestFile (Sample.ingestObject "replace") Granule.LandsAfterSync
      (Sample.listed "g1.hdf" (JSStr "CKSUM") (JSNum 999)) "internal-bucket" "replace"
      Sample.world0
    = (Rejected (InvalidChecksum "g1.hdf" (JSStr "CKSUM") (JSNum 999)), w')
    /\ objects w' !! ("internal-bucket", "file-staging/g1.hdf") = Some "DATA-1".
Proof.
  refine (ingestFile_checksum_mismatch (Sample.ingestObject "replace")
            Granule.LandsAfterSync
            (Sample.listed "g1.hdf" (JSStr "CKSUM") (JSNum 999))
            "internal-bucket" "replace" "DATA-1" (JSStr "CKSUM") (JSNum 999)
            Sample.world0 _ _ _ _ _).
  - apply not_elem_of_empty.
  - vm_compute. reflexivity.
  - vm_compute. reflexivity.
  - vm_compute. reflexivity.
  - vm_compute. discriminate.
Defined.

Lemma ingestFile_url_path_witness :
  let file := Sample.listed "g1.hdf" JSUndefined JSUndefined in
  let staged :=
    mkFile "g1.hdf" "/granules" JSUndefined JSUndefined None (Some "internal-bucket")
           (Some "s3://internal-bucket/file-staging/g1.hdf") None (Some "file-staging")
           (Some "g1-path") in
  url_path staged = resolvedUrlPath Sample.collection file
  /\ Granule.getUrlPath Sample.collection file = resolvedUrlPath Sample.collection file.
Proof.
  refine (ingestFile_url_path (Sample.ingestObject "replace") Granule.LandsBeforeSync
            (Sample.listed "g1.hdf" JSUndefined JSUndefined) "internal-bucket" "replace"
            Sample.collection Sample.world0
            (snd (Granule.ingestFile (Sample.ingestObject "replace") Granule.LandsBeforeSync
                    (Sample.listed "g1.hdf" JSUndefined JSUndefined) "internal-bucket"
                    "replace" Sample.world0))
            _ _ _ _).
  - reflexivity.
  - vm_compute. reflexivity.
  - vm_compute. reflexivity.
Defined.


(** C6 at two inputs.  First: the file object names the bucket it is bound
    for ([protected-bucket], as [discover] sets it) while the file is
    written to [internal-bucket]; versioning is switched on for the former,
    and the object in the latter is overwritten with versioning off.
    Second: both are the same bucket and the versioning call lands after the
    transfer; the overwrite comes first. *)
Lemma ingestFile_version_does_not_guard_overwrite :
  let bound := mkFile "g1.hdf" "/granules" JSUndefined JSUndefined None
                      (Some "protected-bucket") None None None None in
  let run1 := Granule.ingestFile (Sample.ingestObject "version") Granule.LandsBeforeSync
                bound "internal-bucket" "version" Sample.worldStaged in
  let same := mkFile "g1.hdf" "/granules" JSUndefined JSUndefined None
                     (Some "internal-bucket") None None None None in
  let run2 := Granule.ingestFile (Sample.ingestObject "version") Granule.LandsAfterSync
                same "internal-bucket" "version" Sample.worldStaged in
  objects Sample.worldStaged !! ("internal-bucket", "file-staging/g1.hdf") = Some "OLD-DATA"
  /\ is_resolved (fst run1) = true
  /\ trace (snd run1)
     = [ HeadObject "internal-bucket" "file-staging/g1.hdf";
         GetBucketVersioning (Some "protected-bucket");
         PutBucketVersioning "protected-bucket";
         Sync "/granules/g1.hdf" "internal-bucket" "file-staging/g1.hdf" ]
  /\ objects (snd run1) !! ("internal-bucket", "file-staging/g1.hdf") = Some "DATA-1"
  /\ bool_decide ("internal-bucket" ∈ versioning (snd run1)) = false
  /\ bool_decide ("protected-bucket" ∈ versioning (snd run1)) = true
  /\ is_resolved (fst run2) = true
  /\ trace (snd run2)
     = [ HeadObject "internal-bucket" "file-staging/g1.hdf";
         Sync "/granules/g1.hdf" "internal-bucket" "file-staging/g1.hdf";
         GetBucketVersioning (Some "internal-bucket");
         PutBucketVersioning "internal-bucket" ]
  /\ objects (snd run2) !! ("internal-bucket", "file-staging/g1.hdf") = Some "DATA-1".
Proof.
  cbv zeta. vm_compute. repeat split; reflexivity.
Qed.

(** ** Who calls the lock *)

Section Quiet.
Context `{Runtime}.

Lemma quiet_ret {A} (a : A) : quiet (ret a).
Proof. intros w. split; reflexivity. Qed.

Lemma quiet_throw {A} (e : error) : quiet (@throw A e).
Proof. intros w. split; reflexivity. Qed.

Lemma quiet_lift {A} (r : outcome A) : quiet (lift r).
Proof. intros w. split; reflexivity. Qed.

Lemma quiet_gets {A} (f : World -> A) : quiet (gets f).
Proof. intros w. split; reflexivity. Qed.

Lemma quiet_emit (e : Event) (w : World) :
  lockEvent e = false ->
  List.filter lockEvent (trace (emit e w)) = List.filter lockEvent (trace w).
Proof.
  intros He. cbn. rewrite List.filter_app. cbn. rewrite He. apply app_nil_r.
Qed.

Lemma quiet_tell (e : Event) : lockEvent e = false -> quiet (tell e).
Proof. intros He w. split; [apply quiet_emit, He | reflexivity]. Qed.

Lemma quiet_bind {A B} (m : M A) (k : A -> M B) :
  quiet m -> (forall a, quiet (k a)) -> quiet (bind m k).
Proof.
  intros Hm Hk w. unfold bind. specialize (Hm w).
  destruct (m w) as [[a|e] w1]; cbn in Hm.
  - destruct Hm, (Hk a w1). split; congruence.
  - exact Hm.
Qed.

Lemma quiet_catch {A} (m : M A) (h : error -> M A) :
  quiet m -> (forall e, quiet (h e)) -> quiet (catch m h).
Proof.
  intros Hm Hh w. unfold catch. specialize (Hm w).
  destruct (m w) as [[a|e] w1]; cbn in Hm.
  - exact Hm.
  - destruct Hm, (Hh e w1). split; congruence.
Qed.

Lemma quiet_finally {A} (m : M A) (h : M unit) :
  quiet m -> quiet h -> quiet (finally m h).
Proof.
  intros Hm Hh w. unfold finally. specialize (Hm w).
  destruct (m w) as [r w1]; cbn in Hm. specialize (Hh w1).
  destruct (h w1) as [[[]|e] w2]; cbn in *; split; destruct Hm, Hh; congruence.
Qed.

Lemma quiet_detached (m : M unit) : quiet m -> quiet (detached m).
Proof. intros Hm w. exact (Hm w). Qed.

Lemma quiet_promiseAll {A} (ms : list (M A)) :
  Forall quiet ms -> quiet (promiseAll ms).
Proof.
  induction 1 as [|m ms Hm _ IH]; [apply quiet_ret|].
  intros w. cbn. specialize (Hm w). destruct (m w) as [r w1]. cbn in Hm.
  specialize (IH w1). destruct (promiseAll ms w1) as [rs w2]. cbn in *.
  destruct Hm, IH. split; congruence.
Qed.

Lemma quiet_s3ObjectExists (b k : string) : quiet (s3ObjectExists b k).
Proof.
  intros w. unfold s3ObjectExists.
  destruct (bool_decide _); (split; [apply quiet_emit|]; reflexivity).
Qed.

Lemma quiet_checksumS3Objects (type : jsval) (b k : string) :
  quiet (checksumS3Objects type b k).
Proof.
  intros w. unfold checksumS3Objects.
  destruct (objects w !! (b, k)); (split; [apply quiet_emit|]; reflexivity).
Qed.

Lemma quiet_sync (remotePath b k : string) : quiet (sync remotePath b k).
Proof.
  intros w. unfold sync.
  destruct (remote w !! remotePath); cbn; rewrite List.filter_app, app_nil_r;
    split; reflexivity.
Qed.

Lemma quiet_download (remotePath : string) : quiet (download remotePath).
Proof.
  intros w. unfold download.
  destruct (remote w !! remotePath); (split; [apply quiet_emit|]; reflexivity).
Qed.

Lemma quiet_enableBucketVersioning (b : option string) :
  quiet (Granule.enableBucketVersioning b).
Proof.
  unfold Granule.enableBucketVersioning.
  apply quiet_bind; [apply quiet_tell; reflexivity|]. intros _.
  destruct b as [b|]; [|apply quiet_throw].
  apply quiet_bind; [apply quiet_gets|]. intros [|]; [apply quiet_ret|].
  apply quiet_bind; [apply quiet_tell; reflexivity|]. intros _.
  intros w. split; reflexivity.
Qed.

Lemma quiet_landing (sched point : Granule.Schedule) (file : File)
    (duplicateHandling : string) :
  quiet (Granule.landing sched point (Granule.versioningCall file duplicateHandling)).
Proof.
  assert (Hcall : quiet (Granule.versioningCall file duplicateHandling)).
  { unfold Granule.versioningCall. destruct (String.eqb _ _); [|apply quiet_ret].
    apply quiet_detached, quiet_enableBucketVersioning. }
  destruct sched, point; cbn; first [exact Hcall | apply quiet_ret].
Qed.

Lemma quiet_validateChecksum (g : Granule.t) (file : File) (b key : string) :
  quiet (Granule.validateChecksum g file b key).
Proof.
  unfold Granule.validateChecksum. apply quiet_bind.
  - unfold Granule.getChecksumFromFile.
    destruct (truthy _ && truthy _); [apply quiet_ret|].
    destruct (Granule.this_checksumFiles g !! name file); [|apply quiet_ret].
    apply quiet_bind; [apply quiet_download | intros; apply quiet_ret].
  - intros tv. destruct (negb _ || negb _); [apply quiet_ret|].
    apply quiet_bind; [apply quiet_checksumS3Objects|].
    intros sum. destruct (strict_neq _ _); [apply quiet_throw | apply quiet_ret].
Qed.

Lemma quiet_ingestFile (g : Granule.t) (sched : Granule.Schedule) (file : File)
    (b duplicateHandling : string) :
  quiet (Granule.ingestFile g sched file b duplicateHandling).
Proof.
  unfold Granule.ingestFile.
  apply quiet_bind; [apply quiet_s3ObjectExists|]. intros exists_.
  destruct (exists_ && _); [apply quiet_ret|].
  apply quiet_bind; [apply quiet_landing|]. intros _.
  apply quiet_bind; [apply quiet_finally; [apply quiet_sync | apply quiet_landing]|].
  intros filename_.
  apply quiet_bind; [apply quiet_validateChecksum|]. intros _.
  apply quiet_bind; [|intros; apply quiet_ret].
  unfold Granule.the_collection.
  destruct (Granule.this_collection g); [apply quiet_ret | apply quiet_throw].
Qed.

(** The [ingest] method of a [Granule] object never calls the lock. *)
Lemma quiet_ingest (g : Granule.t) (sched : File -> Granule.Schedule)
    (granule : GranuleRecord) (b : string) :
  quiet (Granule.ingest g sched granule b).
Proof.
  unfold Granule.ingest. apply quiet_bind.
  - destruct (Granule.this_collection g); [apply quiet_ret|].
    destruct (g_dataType granule); [|apply quiet_throw].
    destruct (g_version granule); [|apply quiet_throw].
    destruct (truthy_str _ && truthy_str _); [|apply quiet_throw].
    apply quiet_bind; [apply quiet_gets|].
    intros [c|]; [apply quiet_ret | apply quiet_throw].
  - intros cdv. destruct (Granule.filterFiles _ _) as [dataFiles g2].
    apply quiet_bind; [|intros; apply quiet_ret].
    apply quiet_promiseAll. apply Forall_forall. intros m Hm.
    apply list_elem_of_fmap in Hm as (f & -> & _). apply quiet_ingestFile.
Qed.

End Quiet.

(** ** The guarded download *)

Section DownloadLock.
Context {I : Type}.
Variable ingest_method : I -> GranuleRecord -> string -> M (I * GranuleRecord).
Hypothesis ingest_quiet : forall ingest g b, quiet (ingest_method ingest g b).

Lemma download_loop_cons (b : string) (provider : Provider) (g : GranuleRecord)
    (rest : list GranuleRecord) (ingest : I) (updatedGranules : list GranuleRecord)
    (w : World) :
  SyncGranule.download_loop ingest_method ingest b provider (g :: rest) updatedGranules w
  = match ingest_method ingest g b w with
    | (Resolved ir, w1) =>
        SyncGranule.download_loop ingest_method (fst ir) b provider rest
          (updatedGranules ++ [snd ir])%list w1
    | (Rejected e, w1) =>
        (Rejected e,
         emit (LogException e)
           (set_locks (fun l => l ∖ {[ (provider_id provider, g_granuleId g) ]})
              (emit (LockRemove (provider_id provider) (g_granuleId g)) w1)))
    end.
Proof.
  cbn [SyncGranule.download_loop]. unfold bind at 1, catch.
  destruct (ingest_method ingest g b w) as [[ir|e] w1]; reflexivity.
Qed.

Lemma download_cons (ingest : I) (b : string) (provider : Provider)
    (g0 : GranuleRecord) (rest : list GranuleRecord) (w : World) :
  SyncGranule.download ingest_method ingest b provider (g0 :: rest) w
  = let w0 := emit (LockProceed (provider_id provider) (g_granuleId g0)) w in
    if bool_decide ((provider_id provider, g_granuleId g0) ∈ locks w) then
      (Rejected (ResourcesLockedError
                   "Download lock remained in place after multiple tries"),
       emit (LogException (ResourcesLockedError
                             "Download lock remained in place after multiple tries")) w0)
    else
      match SyncGranule.download_loop ingest_method ingest b provider (g0 :: rest) []
              (set_locks (union {[ (provider_id provider, g_granuleId g0) ]}) w0) with
      | (Resolved updatedGranules, w1) =>
          (Resolved updatedGranules,
           set_locks (fun l => l ∖ {[ (provider_id provider, g_granuleId g0) ]})
             (emit (LockRemove (provider_id provider) (g_granuleId g0)) w1))
      | (Rejected e, w1) => (Rejected e, w1)
      end.
Proof.
  unfold SyncGranule.download, Lock.proceed. unfold bind at 1.
  case_bool_decide; [reflexivity|]. cbn [negb]. unfold bind at 1.
  destruct (SyncGranule.download_loop _ _ _ _ _ _ _) as [[done|e] w1]; reflexivity.
Qed.

(** The loop of [download] calls the lock only when an ingest rejects, and
    then to remove the lease of the granule that failed. *)
Lemma download_loop_lock (b : string) (provider : Provider)
    (granules : list GranuleRecord) (ingest : I) (updatedGranules : list GranuleRecord)
    (w : World) :
  let run := SyncGranule.download_loop ingest_method ingest b provider granules
               updatedGranules w in
  match fst run with
  | Resolved _ =>
      List.filter lockEvent (trace (snd run)) = List.filter lockEvent (trace w)
      /\ locks (snd run) = locks w
  | Rejected _ =>
      exists g, g ∈ granules
        /\ List.filter lockEvent (trace (snd run))
           = (List.filter lockEvent (trace w)
              ++ [LockRemove (provider_id provider) (g_granuleId g)])%list
        /\ locks (snd run) = locks w ∖ {[ (provider_id provider, g_granuleId g) ]}
  end.
Proof.
  cbv zeta. revert ingest updatedGranules w.
  induction granules as [|g rest IH]; intros ingest updatedGranules w.
  - cbn. split; reflexivity.
  - rewrite download_loop_cons.
    destruct (ingest_quiet ingest g b w) as [Ht Hl].
    destruct (ingest_method ingest g b w) as [[ir|e] w1]; cbn [fst snd] in Ht, Hl.
    + specialize (IH (fst ir) (updatedGranules ++ [snd ir])%list w1).
      destruct (SyncGranule.download_loop ingest_method (fst ir) b provider rest
                  (updatedGranules ++ [snd ir])%list w1) as [[done|e] w2];
        cbn [fst snd] in *.
      * destruct IH. split; congruence.
      * destruct IH as (g' & Hin & Ht' & Hl'). exists g'.
        split; [constructor; assumption|]. split; congruence.
    + cbn. exists g. split; [constructor|]. split.
      * rewrite !List.filter_app. cbn. rewrite Ht, app_nil_r. reflexivity.
      * rewrite Hl. reflexivity.
Qed.

(** The calls [download] makes to the lock.  When the lease is free it is
    taken for the first granule's id; a successful download removes that
    lease; a download that fails removes the lease of the granule whose
    ingest failed, and keeps the one it took unless that is the first
    granule.  When the lease is held, [download] rejects without taking or
    removing anything. *)
Lemma download_lock_calls (ingest : I) (b : string) (provider : Provider)
    (g0 : GranuleRecord) (rest : list GranuleRecord) (w : World) :
  let run := SyncGranule.download ingest_method ingest b provider (g0 :: rest) w in
  let taken := (provider_id provider, g_granuleId g0) in
  if bool_decide (taken ∈ locks w) then
    fst run = Rejected (ResourcesLockedError
                          "Download lock remained in place after multiple tries")
    /\ List.filter lockEvent (trace (snd run))
       = (List.filter lockEvent (trace w)
          ++ [LockProceed (provider_id provider) (g_granuleId g0)])%list
    /\ locks (snd run) = locks w
  else
    match fst run with
    | Resolved _ =>
        List.filter lockEvent (trace (snd run))
        = (List.filter lockEvent (trace w)
           ++ [LockProceed (provider_id provider) (g_granuleId g0);
               LockRemove (provider_id provider) (g_granuleId g0)])%list
        /\ locks (snd run) = locks w
    | Rejected _ =>
        exists g, g ∈ g0 :: rest
          /\ List.filter lockEvent (trace (snd run))
             = (List.filter lockEvent (trace w)
                ++ [LockProceed (provider_id provider) (g_granuleId g0);
                    LockRemove (provider_id provider) (g_granuleId g)])%list
          /\ locks (snd run)
             = ({[ taken ]} ∪ locks w) ∖ {[ (provider_id provider, g_granuleId g) ]}
    end.
Proof.
  cbv zeta. rewrite download_cons. cbv zeta.
  case_bool_decide as Hheld.
  - cbn. rewrite !List.filter_app. cbn. rewrite app_nil_r. auto.
  - pose proof (download_loop_lock b provider (g0 :: rest) ingest []
                  (set_locks (union {[ (provider_id provider, g_granuleId g0) ]})
                     (emit (LockProceed (provider_id provider) (g_granuleId g0)) w)))
      as Hloop. cbv zeta in Hloop.
    destruct (SyncGranule.download_loop ingest_method ingest b provider (g0 :: rest) [] _)
      as [[done|e] w1]; cbn [fst snd] in *.
    + destruct Hloop as [Ht Hl]. cbn. rewrite !List.filter_app, Ht. cbn.
      rewrite List.filter_app. cbn. rewrite <- app_assoc. split; [reflexivity|].
      rewrite Hl. cbn. apply set_eq. intros x.
      rewrite elem_of_difference, elem_of_union, elem_of_singleton.
      split; [intros [[->|Hx] Hne]; [destruct Hne; reflexivity | exact Hx]|].
      intros Hx. split; [right; exact Hx | intros ->; contradiction].
    + destruct Hloop as (g & Hin & Ht & Hl). exists g. split; [assumption|].
      rewrite Ht, Hl. cbn. rewrite List.filter_app. cbn.
      rewrite <- app_assoc. split; reflexivity.
Qed.

End DownloadLock.

(** With a [Granule] object as the ingest object. *)
Lemma download_granule_lock_calls `{Runtime} (sched : File -> Granule.Schedule)
    (ingest : Granule.t) (b : string) (provider : Provider)
    (g0 : GranuleRecord) (rest : list GranuleRecord) (w : World) :
  (provider_id provider, g_granuleId g0) ∉ locks w ->
  let run := SyncGranule.download (fun g granule b => Granule.ingest g sched granule b)
               ingest b provider (g0 :: rest) w in
  match fst run with
  | Resolved _ =>
      List.filter lockEvent (trace (snd run))
      = (List.filter lockEvent (trace w)
         ++ [LockProceed (provider_id provider) (g_granuleId g0);
             LockRemove (provider_id provider) (g_granuleId g0)])%list
      /\ locks (snd run) = locks w
  | Rejected _ =>
      exists g, g ∈ g0 :: rest
        /\ List.filter lockEvent (trace (snd run))
           = (List.filter lockEvent (trace w)
              ++ [LockProceed (provider_id provider) (g_granuleId g0);
                  LockRemove (provider_id provider) (g_granuleId g)])%list
        /\ locks (snd run)
           = ({[ (provider_id provider, g_granuleId g0) ]} ∪ locks w)
             ∖ {[ (provider_id provider, g_granuleId g) ]}
  end.
Proof.
  intros Hfree.
  pose proof (download_lock_calls (fun g granule b => Granule.ingest g sched granule b)
                (fun g granule b => quiet_ingest g sched granule b)
                ingest b provider g0 rest w) as Hcalls.
  cbv zeta in Hcalls. rewrite bool_decide_eq_false_2 in Hcalls by exact Hfree.
  exact Hcalls.
Qed.

(** C2 at a list of two granules whose second file the provider does not
    have: the lock is taken for the first granule's id, the ingest of the
    second granule rejects, and the lock that is removed on the way out is
    the one of the second granule's id.  The lease that was taken stays. *)
Lemma download_releases_other_key :
  let run := SyncGranule.download Sample.ingest_method (Sample.ingestObject "replace")
               "internal-bucket" Sample.provider [Sample.granule1; Sample.granule2]
               Sample.world0 in
  fst run = Rejected (RemoteResourceError "/granules/g2.hdf")
  /\ List.filter lockEvent (trace (snd run))
     = [LockProceed "PODAAC" "g1"; LockRemove "PODAAC" "g2"]
  /\ bool_decide (("PODAAC", "g1") ∈ locks (snd run)) = true.
Proof.
  cbv zeta. vm_compute. repeat split; reflexivity.
Qed.

(** ** [discover] *)

Section GroupBy.
Context {A : Type}.
Implicit Types (groups : list (string * list A)) (k : string) (x : A).

Lemma groupBy_add_keys k x groups :
  map fst (groupBy_add k x groups)
  = if bool_decide (k ∈ map fst groups) then map fst groups
    else (map fst groups ++ [k])%list.
Proof.
  induction groups as [|[k' xs] rest IH]; cbn; [reflexivity|].
  destruct (String.eqb_spec k k') as [->|Hne]; cbn.
  - rewrite bool_decide_eq_true_2 by constructor. reflexivity.
  - rewrite IH. repeat case_bool_decide; try reflexivity.
    + exfalso. apply H0. constructor. assumption.
    + exfalso. apply elem_of_cons in H0 as [?|?]; [congruence | contradiction].
Qed.

Lemma groupBy_add_NoDup k x groups :
  NoDup (map fst groups) -> NoDup (map fst (groupBy_add k x groups)).
Proof.
  intros Hnd. rewrite groupBy_add_keys. case_bool_decide; [assumption|].
  apply NoDup_app. split; [assumption|]. split.
  - intros y Hy Hin. apply list_elem_of_singleton in Hin. subst. contradiction.
  - apply NoDup_singleton.
Qed.

(** Whatever sits in a group after an addition was added now or sat in the
    group of that key before. *)
Lemma groupBy_add_sound k x groups k' xs' y :
  (k', xs') ∈ groupBy_add k x groups -> y ∈ xs' ->
  (k' = k /\ y = x) \/ exists xs, (k', xs) ∈ groups /\ y ∈ xs.
Proof.
  induction groups as [|[k0 xs0] rest IH]; cbn.
  - intros Hin Hy. apply list_elem_of_singleton in Hin. injection Hin as -> ->.
    apply list_elem_of_singleton in Hy. left. auto.
  - destruct (String.eqb_spec k k0) as [->|Hne]; intros Hin Hy.
    + apply elem_of_cons in Hin as [Heq|Hin].
      * injection Heq as -> ->. apply elem_of_app in Hy as [Hy|Hy].
        -- right. exists xs0. split; [constructor | assumption].
        -- apply list_elem_of_singleton in Hy. left. auto.
      * right. exists xs'. split; [constructor; assumption | assumption].
    + apply elem_of_cons in Hin as [Heq|Hin].
      * injection Heq as -> ->. right. exists xs0. split; [constructor | assumption].
      * destruct (IH Hin Hy) as [?|(xs & Hxs & Hyxs)]; [left; assumption|].
        right. exists xs. split; [constructor; assumption | assumption].
Qed.

(** The added element is in the group of its key. *)
Lemma groupBy_add_new k x groups :
  exists xs, (k, xs) ∈ groupBy_add k x groups /\ x ∈ xs.
Proof.
  induction groups as [|[k0 xs0] rest IH]; cbn.
  - exists [x]. split; constructor.
  - destruct (String.eqb_spec k k0) as [->|Hne].
    + exists (xs0 ++ [x])%list. split; [constructor|].
      apply elem_of_app. right. constructor.
    + destruct IH as (xs & Hin & Hx). exists xs. split; [constructor; assumption | assumption].
Qed.

(** Nothing leaves its group. *)
Lemma groupBy_add_old k x groups k' xs y :
  (k', xs) ∈ groups -> y ∈ xs ->
  exists xs', (k', xs') ∈ groupBy_add k x groups /\ y ∈ xs'.
Proof.
  induction groups as [|[k0 xs0] rest IH]; cbn; intros Hin Hy.
  - apply elem_of_nil in Hin. destruct Hin.
  - destruct (String.eqb_spec k k0) as [->|Hne].
    + apply elem_of_cons in Hin as [Heq|Hin].
      * injection Heq as -> ->. exists (xs0 ++ [x])%list. split; [constructor|].
        apply elem_of_app. left. assumption.
      * exists xs. split; [constructor; assumption | assumption].
    + apply elem_of_cons in Hin as [Heq|Hin].
      * injection Heq as -> ->. exists xs0. split; [constructor | assumption].
      * destruct (IH Hin Hy) as (xs' & Hin' & Hy').
        exists xs'. split; [constructor; assumption | assumption].
Qed.

Variable key : A -> string.

Lemma groupBy_snoc (l : list A) x :
  groupBy (l ++ [x]) key = groupBy_add (key x) x (groupBy l key).
Proof. unfold groupBy. rewrite foldl_app. reflexivity. Qed.

(** One group per key. *)
Lemma groupBy_NoDup (l : list A) : NoDup (map fst (groupBy l key)).
Proof.
  induction l as [|x l IH] using rev_ind; [constructor|].
  rewrite groupBy_snoc. apply groupBy_add_NoDup, IH.
Qed.

(** A group holds elements of the list, all of the group's key. *)
Lemma groupBy_sound (l : list A) k xs y :
  (k, xs) ∈ groupBy l key -> y ∈ xs -> key y = k /\ y ∈ l.
Proof.
  revert k xs y. induction l as [|x l IH] using rev_ind; intros k xs y Hin Hy.
  - apply elem_of_nil in Hin. destruct Hin.
  - rewrite groupBy_snoc in Hin.
    destruct (groupBy_add_sound _ _ _ _ _ _ Hin Hy) as [[-> ->]|(xs0 & Hin0 & Hy0)].
    + split; [reflexivity|]. apply elem_of_app. right. constructor.
    + destruct (IH _ _ _ Hin0 Hy0) as [Hk Hl]. split; [assumption|].
      apply elem_of_app. left. assumption.
Qed.

(** Every element of the list is in the group of its key. *)
Lemma groupBy_complete (l : list A) y :
  y ∈ l -> exists xs, (key y, xs) ∈ groupBy l key /\ y ∈ xs.
Proof.
  induction l as [|x l IH] using rev_ind; intros Hy.
  - apply elem_of_nil in Hy. destruct Hy.
  - rewrite groupBy_snoc. apply elem_of_app in Hy as [Hy|Hy].
    + destruct (IH Hy) as (xs & Hin & Hyxs).
      eapply groupBy_add_old; eassumption.
    + apply list_elem_of_singleton in Hy. subst. apply groupBy_add_new.
Qed.

Lemma groupBy_nil_inv (l : list A) : groupBy l key = [] -> l = [].
Proof.
  destruct l as [|x l] using rev_ind; [reflexivity|].
  rewrite groupBy_snoc. intros Heq.
  destruct (groupBy_add_new (key x) x (groupBy l key)) as (xs & Hin & _).
  rewrite Heq in Hin. apply elem_of_nil in Hin. destruct Hin.
Qed.

End GroupBy.

Section Discovery.
Context `{Runtime}.

(** An annotated file keeps its name and carries the id extracted from it. *)
Lemma setGranuleInfo_resolved (g : Discover.t) (file info : File) :
  Discover.setGranuleInfo g file = Resolved info ->
  name info = name file /\ granuleId info = extractedId g (name file)
  /\ is_Some (bucket info).
Proof.
  unfold Discover.setGranuleInfo, extractedId.
  destruct (str_match _ (name file)) as [arr|]; [|discriminate].
  destruct (Discover.fileTypeConfigForFile g file) as [rule|]; [|discriminate].
  destruct (Discover.this_buckets g !! rule_bucket rule) as [cfg|]; [|discriminate].
  intros [= <-]. cbn. eauto.
Qed.

Lemma map_throwing_resolved {A B} (f : A -> outcome B) (l : list A) (ys : list B) :
  Discover.map_throwing f l = Resolved ys ->
  forall y, y ∈ ys -> exists x, x ∈ l /\ f x = Resolved y.
Proof.
  revert ys. induction l as [|x l IH]; cbn; intros ys.
  - intros [= <-] y Hy. apply elem_of_nil in Hy. destruct Hy.
  - destruct (f x) as [y0|e] eqn:Hfx; [|discriminate].
    destruct (Discover.map_throwing f l) as [ys0|e]; [|discriminate].
    intros [= <-] y Hy. apply elem_of_cons in Hy as [->|Hy].
    + exists x. split; [constructor | assumption].
    + destruct (IH ys0 eq_refl y Hy) as (x' & Hin & Hfx').
      exists x'. split; [constructor; assumption | assumption].
Qed.

(** The files that come out of the [try] block were listed, match the
    extraction pattern, and are annotated with the id extracted from their
    name. *)
Lemma listDiscovered_resolved (g : Discover.t) (list_ : M (list File)) (w w0 : World)
    (discovered : list File) :
  Discover.listDiscovered g list_ w = (Resolved discovered, w0) ->
  exists listed,
    list_ w = (Resolved listed, w0)
    /\ forall info, info ∈ discovered ->
         exists file, file ∈ listed
           /\ Discover.setGranuleInfo g file = Resolved info
           /\ name info = name file
           /\ granuleId info = extractedId g (name info)
           /\ is_Some (bucket info).
Proof.
  unfold Discover.listDiscovered, bind, lift.
  destruct (list_ w) as [[listed|e] w1]; [|discriminate].
  intros [= Hmap <-]. exists listed. split; [reflexivity|].
  intros info Hin.
  destruct (map_throwing_resolved _ _ _ Hmap info Hin) as (file & Hfile & Hset).
  apply list_elem_of_In, List.filter_In in Hfile as [Hfile _].
  apply List.filter_In in Hfile as [Hfile _].
  destruct (setGranuleInfo_resolved g file info Hset) as (Hn & Hid & Hb).
  exists file. rewrite Hn. repeat split; try assumption.
  apply list_elem_of_In. assumption.
Qed.

Lemma discover_unfold (g : Discover.t) (list_ : M (list File)) (w : World) :
  Discover.discover g list_ w
  = (await checked <- promiseAll (map Discover.checkNew (fst (discoveredFiles g list_ w))) in
     ret (Discover.buildGranules g (omap id checked)))
      (snd (discoveredFiles g list_ w)).
Proof.
  unfold Discover.discover, discoveredFiles, catch.
  unfold bind at 1.
  destruct (Discover.listDiscovered g list_ w) as [[discovered|e] w0]; reflexivity.
Qed.

Lemma checkNew_ok (file : File) (w : World) :
  checkFails (headFailures w) file = false ->
  exists w1,
    Discover.checkNew file w
    = (Resolved (if existsInStore (objects w) file then None else Some file), w1)
    /\ objects w1 = objects w /\ headFailures w1 = headFailures w.
Proof.
  unfold checkFails, existsInStore, Discover.checkNew.
  destruct (bucket file) as [b|]; [|discriminate].
  intros Hok. unfold bind, s3ObjectExists. rewrite Hok.
  destruct (bool_decide (is_Some (objects w !! (b, name file)))); cbn; eauto.
Qed.

Lemma checkNew_fails (file : File) (w : World) :
  checkFails (headFailures w) file = true ->
  exists e w1,
    Discover.checkNew file w = (Rejected e, w1)
    /\ objects w1 = objects w /\ headFailures w1 = headFailures w.
Proof.
  unfold checkFails, Discover.checkNew.
  destruct (bucket file) as [b|].
  - intros Hfail. unfold bind, s3ObjectExists. rewrite Hfail. cbn. eauto.
  - intros _. cbn. eauto.
Qed.

Lemma omap_checked (store : gmap (string * string) string) (l : list File) :
  omap id (map (fun file => if existsInStore store file then None else Some file) l)
  = newFiles store l.
Proof.
  induction l as [|x l IH]; [reflexivity|]. cbn.
  destruct (existsInStore store x); cbn; rewrite IH; reflexivity.
Qed.

Lemma newFiles_none (store : gmap (string * string) string) (l : list File) :
  (forall file, file ∈ l -> existsInStore store file = true) ->
  newFiles store l = [].
Proof.
  unfold newFiles. induction l as [|x l IH]; intros Hall; [reflexivity|]. cbn.
  rewrite (Hall x) by constructor. cbn. apply IH.
  intros file Hin. apply Hall. constructor. assumption.
Qed.

(** When no existence check fails, all of them resolve, to the new files. *)
Lemma promiseAll_checkNew_ok (l : list File) (w : World) :
  (forall file, file ∈ l -> checkFails (headFailures w) file = false) ->
  exists w',
    promiseAll (map Discover.checkNew l) w
    = (Resolved (map (fun file => if existsInStore (objects w) file then None else Some file) l),
       w')
    /\ objects w' = objects w.
Proof.
  revert w. induction l as [|x l IH]; intros w Hall; cbn.
  - eexists. split; reflexivity.
  - destruct (checkNew_ok x w) as (w1 & -> & Ho & Hf); [apply Hall; constructor|].
    destruct (IH w1) as (w' & -> & Ho').
    { intros file Hin. rewrite Hf. apply Hall. constructor. assumption. }
    rewrite Ho. eexists. split; [reflexivity|]. congruence.
Qed.

(** When an existence check fails, the whole await rejects. *)
Lemma promiseAll_checkNew_fails (l : list File) (w : World) (file : File) :
  file ∈ l -> checkFails (headFailures w) file = true ->
  exists e w', promiseAll (map Discover.checkNew l) w = (Rejected e, w').
Proof.
  revert w. induction l as [|x l IH]; intros w Hin Hfail.
  - apply elem_of_nil in Hin. destruct Hin.
  - cbn. destruct (checkFails (headFailures w) x) eqn:Hx.
    + destruct (checkNew_fails x w Hx) as (e & w1 & -> & _).
      destruct (promiseAll (map Discover.checkNew l) w1) as [rs w2]. eauto.
    + destruct (checkNew_ok x w Hx) as (w1 & -> & _ & Hf).
      apply elem_of_cons in Hin as [->|Hin]; [congruence|].
      destruct (IH w1 Hin) as (e & w2 & ->); [rewrite Hf; assumption|].
      eauto.
Qed.

(** In an object that the constructor built, annotating a file that passed
    the two filters does not throw. *)
Lemma setGranuleInfo_constructed (buckets_ : gmap string BucketConfig) (c : Collection)
    (provider : Provider) (g : Discover.t) (file : File) :
  Discover.construct buckets_ c provider = Resolved g ->
  matches (granuleIdExtraction (Discover.this_collection g)) (name file) = true ->
  is_Some (Discover.fileTypeConfigForFile g file) ->
  exists info, Discover.setGranuleInfo g file = Resolved info.
Proof.
  unfold Discover.construct.
  destruct (forallb _ (files c)) eqn:Hall; [|discriminate].
  intros [= <-]. cbn. intros Hmatch [rule Hrule].
  unfold Discover.setGranuleInfo. cbn. unfold matches in Hmatch.
  destruct (str_match (granuleIdExtraction c) (name file)); [|discriminate].
  rewrite Hrule.
  assert (Hin : In rule (files c)).
  { unfold Discover.fileTypeConfigForFile in Hrule. cbn in Hrule.
    apply List.find_some in Hrule. tauto. }
  rewrite List.forallb_forall in Hall. specialize (Hall rule Hin).
  apply bool_decide_eq_true in Hall as [cfg ->]. eauto.
Qed.

Lemma map_throwing_total {A B} (f : A -> outcome B) (l : list A) :
  (forall x, x ∈ l -> exists y, f x = Resolved y) ->
  exists ys, Discover.map_throwing f l = Resolved ys.
Proof.
  induction l as [|x l IH]; intros Hall; cbn; [eauto|].
  destruct (Hall x) as [y ->]; [constructor|].
  destruct IH as [ys ->]; [intros z Hz; apply Hall; constructor; assumption|].
  eauto.
Qed.

(** So, for such an object, the [try] block of [discover] throws only when
    the listing does. *)
Lemma listDiscovered_constructed (buckets_ : gmap string BucketConfig) (c : Collection)
    (provider : Provider) (g : Discover.t) (list_ : M (list File)) (w w0 : World)
    (listed : list File) :
  Discover.construct buckets_ c provider = Resolved g ->
  list_ w = (Resolved listed, w0) ->
  exists discovered, Discover.listDiscovered g list_ w = (Resolved discovered, w0).
Proof.
  intros Hg Hlist. unfold Discover.listDiscovered, bind, lift. rewrite Hlist.
  destruct (map_throwing_total (Discover.setGranuleInfo g)
              (List.filter (fun file => bool_decide (is_Some (Discover.fileTypeConfigForFile g file)))
                 (List.filter (fun file => matches (granuleIdExtraction (Discover.this_collection g))
                                             (name file)) listed)))
    as [discovered ->]; [|eauto].
  intros file Hin.
  apply list_elem_of_In, List.filter_In in Hin as [Hin Hcfg].
  apply List.filter_In in Hin as [_ Hmatch].
  apply bool_decide_eq_true in Hcfg.
  eapply setGranuleInfo_constructed; eassumption.
Qed.

Lemma buildGranules_elem (g : Discover.t) (files_ : list File) (r : GranuleRecord) :
  r ∈ Discover.buildGranules g files_ ->
  exists xs,
    (g_granuleId r, xs) ∈ groupBy files_ (fun file => js_string (granuleId file))
    /\ g_files r = map omit_granuleId xs.
Proof.
  unfold Discover.buildGranules. intros Hin.
  apply list_elem_of_fmap in Hin as ([k xs] & -> & Hin). cbn. eauto.
Qed.

Lemma buildGranules_ids (g : Discover.t) (files_ : list File) :
  map g_granuleId (Discover.buildGranules g files_)
  = map fst (groupBy files_ (fun file => js_string (granuleId file))).
Proof.
  unfold Discover.buildGranules. rewrite map_map. reflexivity.
Qed.

Lemma NoDup_map_eq {A B} (f : A -> B) (l : list A) (x y : A) :
  NoDup (map f l) -> x ∈ l -> y ∈ l -> f x = f y -> x = y.
Proof.
  induction l as [|a l IH]; cbn; intros Hnd Hx Hy Heq.
  - apply elem_of_nil in Hx. destruct Hx.
  - apply NoDup_cons in Hnd as [Hnot Hnd].
    apply elem_of_cons in Hx as [->|Hx]; apply elem_of_cons in Hy as [->|Hy].
    + reflexivity.
    + exfalso. apply Hnot. rewrite Heq. apply (list_elem_of_fmap_2 f). assumption.
    + exfalso. apply Hnot. rewrite <- Heq. apply (list_elem_of_fmap_2 f). assumption.
    + apply IH; assumption.
Qed.

(** Every file [discover] goes on with carries the id extracted from its
    name. *)
Lemma discoveredFiles_ids (g : Discover.t) (list_ : M (list File)) (w : World) (info : File) :
  info ∈ fst (discoveredFiles g list_ w) ->
  granuleId info = extractedId g (name info).
Proof.
  unfold discoveredFiles.
  destruct (Discover.listDiscovered g list_ w) as [[discovered|e] w0] eqn:Hlist; cbn.
  - intros Hin.
    destruct (listDiscovered_resolved g list_ w w0 discovered Hlist) as (listed & _ & Hall).
    destruct (Hall info Hin) as (file & _ & _ & _ & Hid & _). exact Hid.
  - intros Hin. apply elem_of_nil in Hin. destruct Hin.
Qed.

(** When [discover] resolves, its result is built from the new files. *)
Lemma discover_resolved_inv (g : Discover.t) (list_ : M (list File)) (w w' : World)
    (grs : list GranuleRecord) :
  Discover.discover g list_ w = (Resolved grs, w') ->
  grs = Discover.buildGranules g
          (newFiles (objects (snd (discoveredFiles g list_ w)))
                    (fst (discoveredFiles g list_ w))).
Proof.
  rewrite discover_unfold.
  destruct (discoveredFiles g list_ w) as [discovered w1]. cbn [fst snd].
  destruct (decide (Forall (fun file => checkFails (headFailures w1) file = false) discovered))
    as [Hok|Hbad].
  - rewrite Forall_forall in Hok.
    destruct (promiseAll_checkNew_ok discovered w1 Hok) as (w2 & Hrun & _).
    unfold bind, ret. rewrite Hrun, omap_checked. intros [= <- _]. reflexivity.
  - apply not_Forall_Exists in Hbad; [|intros x; apply _].
    apply Exists_exists in Hbad as (file & Hin & Hfail).
    apply not_false_is_true in Hfail.
    destruct (promiseAll_checkNew_fails discovered w1 file Hin Hfail) as (e & w2 & Hrun).
    unfold bind. rewrite Hrun. discriminate.
Qed.

(** C3: in the result of [discover], there is one granule record per
    granule id; the files of a record are new files, and every one of them
    whose name yields an id yields the record's id; and every new file whose
    name yields an id is among the files of the record of that id. *)
Theorem discover_groups_by_granuleId (g : Discover.t) (list_ : M (list File))
    (w w' : World) (grs : list GranuleRecord) :
  Discover.discover g list_ w = (Resolved grs, w') ->
  let new := newFiles (objects (snd (discoveredFiles g list_ w)))
                      (fst (discoveredFiles g list_ w)) in
  (forall r1 r2, r1 ∈ grs -> r2 ∈ grs -> g_granuleId r1 = g_granuleId r2 -> r1 = r2)
  /\ (forall r file, r ∈ grs -> file ∈ g_files r ->
        (exists info, info ∈ new /\ file = omit_granuleId info)
        /\ forall id, extractedId g (name file) = Some id -> g_granuleId r = id)
  /\ (forall info id, info ∈ new -> extractedId g (name info) = Some id ->
        exists r, r ∈ grs /\ g_granuleId r = id /\ omit_granuleId info ∈ g_files r
                  /\ forall r', r' ∈ grs -> omit_granuleId info ∈ g_files r' -> r' = r).
Proof.
  intros Hrun new. apply discover_resolved_inv in Hrun. fold new in Hrun. subst grs.
  assert (Hids : forall info, info ∈ new -> granuleId info = extractedId g (name info)).
  { intros info Hin. apply (discoveredFiles_ids g list_ w).
    apply list_elem_of_In, List.filter_In in Hin as [Hin _].
    apply list_elem_of_In. exact Hin. }
  assert (Hone : forall r1 r2, r1 ∈ Discover.buildGranules g new ->
                   r2 ∈ Discover.buildGranules g new ->
                   g_granuleId r1 = g_granuleId r2 -> r1 = r2).
  { intros r1 r2 H1 H2 Heq.
    apply (NoDup_map_eq g_granuleId (Discover.buildGranules g new)); try assumption.
    rewrite buildGranules_ids. apply groupBy_NoDup. }
  assert (Hsame : forall r file, r ∈ Discover.buildGranules g new -> file ∈ g_files r ->
                    (exists info, info ∈ new /\ file = omit_granuleId info)
                    /\ forall id, extractedId g (name file) = Some id -> g_granuleId r = id).
  { intros r file Hr Hfile.
    destruct (buildGranules_elem g new r Hr) as (xs & Hgroup & Hfiles).
    rewrite Hfiles in Hfile.
    apply list_elem_of_fmap in Hfile as (info & -> & Hinfo).
    destruct (groupBy_sound _ _ _ _ _ Hgroup Hinfo) as [Hkey Hnew].
    split; [eauto|]. intros id Hid. cbn in Hid.
    rewrite <- (Hids info Hnew) in Hid. rewrite Hid in Hkey. cbn in Hkey. congruence. }
  split; [exact Hone|]. split; [exact Hsame|].
  intros info id Hnew Hid.
  destruct (groupBy_complete (fun file => js_string (granuleId file)) new info Hnew)
    as (xs & Hgroup & Hinfo).
  rewrite (Hids info Hnew), Hid in Hgroup. cbn in Hgroup.
  set (r := mkGranuleRecord id (dataType (Discover.this_collection g))
              (version (Discover.this_collection g)) (map omit_granuleId xs)).
  assert (Hr : r ∈ Discover.buildGranules g new).
  { unfold Discover.buildGranules. apply list_elem_of_fmap.
    exists (id, xs). split; [reflexivity | assumption]. }
  exists r. split; [exact Hr|]. split; [reflexivity|]. split.
  - cbn. apply list_elem_of_fmap_2. assumption.
  - intros r' Hr' Hfile. apply Hone; [assumption..|].
    destruct (Hsame r' (omit_granuleId info) Hr' Hfile) as [_ Hid'].
    apply Hid'. exact Hid.
Qed.

(** C4, as the code has it: a failure of the listing, or an exception while
    the listing is filtered and annotated, is logged and leaves no files, so
    that [discover] resolves to the empty list; when no existence check
    fails, [discover] resolves, to the granules of the new files, and to the
    empty list when every discovered file is already in the store; when an
    existence check fails, [discover] rejects. *)
Theorem discover_best_effort (g : Discover.t) (list_ : M (list File)) (w : World) :
  let discovered := fst (discoveredFiles g list_ w) in
  let w1 := snd (discoveredFiles g list_ w) in
  (forall e w0, Discover.listDiscovered g list_ w = (Rejected e, w0) ->
     Discover.discover g list_ w = (Resolved [], emit (LogException e) w0))
  /\ ((forall file, file ∈ discovered -> checkFails (headFailures w1) file = false) ->
      exists w',
        Discover.discover g list_ w
        = (Resolved (Discover.buildGranules g (newFiles (objects w1) discovered)), w')
        /\ ((forall file, file ∈ discovered -> existsInStore (objects w1) file = true) ->
            Discover.discover g list_ w = (Resolved [], w')))
  /\ (forall file, file ∈ discovered -> checkFails (headFailures w1) file = true ->
      exists e w', Discover.discover g list_ w = (Rejected e, w')).
Proof.
  intros discovered w1. split; [|split].
  - intros e w0 Hlist. rewrite discover_unfold. unfold discoveredFiles.
    rewrite Hlist. reflexivity.
  - intros Hok. rewrite discover_unfold. fold discovered. fold w1.
    destruct (promiseAll_checkNew_ok discovered w1 Hok) as (w2 & Hrun & _).
    unfold bind, ret. rewrite Hrun, omap_checked.
    exists w2. split; [reflexivity|].
    intros Hall. rewrite (newFiles_none _ _ Hall). reflexivity.
  - intros file Hin Hfail. rewrite discover_unfold. fold discovered. fold w1.
    destruct (promiseAll_checkNew_fails discovered w1 file Hin Hfail) as (e & w2 & Hrun).
    unfold bind. rewrite Hrun. eauto.
Qed.

End Discovery.

Lemma discover_groups_by_granuleId_witness :
  let g := Sample.discoverObject in
  let grs := Sample.discoveredGranules in
  let new := newFiles (objects (snd (discoveredFiles g (ret Sample.listing) Sample.world0)))
                      (fst (discoveredFiles g (ret Sample.listing) Sample.world0)) in
  (forall r1 r2, r1 ∈ grs -> r2 ∈ grs -> g_granuleId r1 = g_granuleId r2 -> r1 = r2)
  /\ (forall r file, r ∈ grs -> file ∈ g_files r ->
        (exists info, info ∈ new /\ file = omit_granuleId info)
        /\ forall id, extractedId g (name file) = Some id -> g_granuleId r = id)
  /\ (forall info id, info ∈ new -> extractedId g (name info) = Some id ->
        exists r, r ∈ grs /\ g_granuleId r = id /\ omit_granuleId info ∈ g_files r
                  /\ forall r', r' ∈ grs -> omit_granuleId info ∈ g_files r' -> r' = r).
Proof.
  refine (discover_groups_by_granuleId Sample.discoverObject (ret Sample.listing)
            Sample.world0
            (snd (Discover.discover Sample.discoverObject (ret Sample.listing) Sample.world0))
            Sample.discoveredGranules _).
  vm_compute. reflexivity.
Defined.

(** C4, as stated, fails: three new files are listed, the existence check of
    one of them fails, and [discover] rejects instead of returning the
    granules of the other two. *)
Lemma discover_rejects_on_failed_check :
  fst (Discover.discover Sample.discoverObject (ret Sample.listing) Sample.worldHeadFails)
  = Rejected (S3Error "Forbidden")
  /\ fst (Discover.discover Sample.discoverObject (ret Sample.listing) Sample.world0)
     = Resolved Sample.discoveredGranules.
Proof.
  split; vm_compute; reflexivity.
Qed.

(** The listing fails: [discover] logs and resolves to the empty list. *)
Lemma discover_best_effort_witness :
  Discover.discover Sample.discoverObject (throw (RemoteResourceError "ECONNREFUSED"))
    Sample.world0
  = (Resolved [], emit (LogException (RemoteResourceError "ECONNREFUSED")) Sample.world0).
Proof.
  refine (proj1 (discover_best_effort Sample.discoverObject
                   (throw (RemoteResourceError "ECONNREFUSED")) Sample.world0)
                _ _ _).
  reflexivity.
Defined.

(** ** [moveGranuleFiles] *)

Section Moving.
Context `{Runtime} `{CmrRuntime}.

Lemma request_skips (destinations : list Destination) (file : File) (k : string) :
  Mover.request destinations file = Mover.Skips k ->
  firstDestination destinations file = None
  /\ exists pb, filename file ≫= parseS3Uri = Some (pb, k).
Proof.
  unfold Mover.request. fold (firstDestination destinations file).
  destruct (filename file ≫= parseS3Uri) as [[pb pk]|]; [|discriminate].
  destruct (firstDestination destinations file) as [d|]; [discriminate|].
  intros [= ->]. eauto.
Qed.

Lemma request_moves (destinations : list Destination) (file : File) (sb sk tb tk : string) :
  Mover.request destinations file = Mover.Moves sb sk tb tk ->
  filename file ≫= parseS3Uri = Some (sb, sk)
  /\ exists d, firstDestination destinations file = Some d
               /\ tb = dest_bucket d /\ tk = urljoin (dest_filepath d) (name file).
Proof.
  unfold Mover.request. fold (firstDestination destinations file).
  destruct (filename file ≫= parseS3Uri) as [[pb pk]|]; [|discriminate].
  destruct (firstDestination destinations file) as [d|]; [|discriminate].
  intros [= -> -> <- <-]. eauto.
Qed.

(** When no callback throws, every file is visited, with its own request. *)
Lemma visit_all (destinations : list Destination) (sourceFiles : list File)
    (visited : list (File * Mover.Request)) :
  Mover.visit destinations sourceFiles = (visited, None) ->
  visited = map (fun file => (file, Mover.request destinations file)) sourceFiles.
Proof.
  revert visited. induction sourceFiles as [|file rest IH]; cbn; intros visited.
  - intros [= <-]. reflexivity.
  - destruct (Mover.request destinations file) eqn:Hreq; [discriminate| |];
      destruct (Mover.visit destinations rest) as [v t];
      intros [= <- ->]; rewrite (IH v eq_refl); reflexivity.
Qed.





(** When all requests succeed, every file object is as its request leaves
    it. *)
Lemma perform_resolved (requests : list (File * Mover.Request)) (w w' : World)
    (files_ : list File) :
  Mover.perform requests w = (Resolved tt, files_, w') ->
  Forall2 (fun fr file' =>
             match snd fr with
             | Mover.Throws _ => False
             | Mover.Skips k => file' = Mover.set_filepath (fst fr) k
             | Mover.Moves _ _ tb tk => file' = Mover.set_location (fst fr) tb tk
             end) requests files_.
Proof.
  revert w files_. induction requests as [|[file req] rest IH]; intros w files_; cbn.
  - intros [= <- _]. constructor.
  - destruct (Mover.performOne file req w) as [[r1 file'] w1] eqn:Hone.
    destruct (Mover.perform rest w1) as [[r rest'] w2] eqn:Hrest.
    destruct r1 as [[]|e]; [|discriminate].
    intros [= -> <- <-]. constructor; [|eapply IH; eassumption].
    cbn. destruct req as [e|k|sb sk tb tk]; cbn in Hone.
    + discriminate.
    + injection Hone as <- _. reflexivity.
    + destruct (Mover.moveGranuleFile sb sk tb tk w) as [[[]|e] w3];
        [|discriminate]. injection Hone as <- _. reflexivity.
Qed.

(** What one move does to the store: the body is under the target key and,
    unless source and target are the same object, no longer under the source
    key. *)
Lemma performOne_moves (file : File) (sb sk tb tk body : string) (w : World) :
  objects w !! (sb, sk) = Some body ->
  exists w1,
    Mover.performOne file (Mover.Moves sb sk tb tk) w
    = (Resolved tt, Mover.set_location file tb tk, w1)
    /\ objects w1 = delete (sb, sk) (<[(tb, tk) := body]> (objects w))
    /\ ((sb, sk) <> (tb, tk) ->
        objects w1 !! (tb, tk) = Some body /\ objects w1 !! (sb, sk) = None).
Proof.
  intros Hsrc. unfold Mover.performOne, Mover.moveGranuleFile, Mover.copyGranuleFile,
    bind, tell, modify. rewrite Hsrc. cbn.
  eexists. split; [reflexivity|]. cbn. split; [reflexivity|].
  intros Hne. split.
  - rewrite lookup_delete_ne by exact Hne. apply lookup_insert_eq.
  - apply lookup_delete_eq.
Qed.

(** The requests of a list of files none of which makes the callback
    throw. *)
Lemma visit_total (destinations : list Destination) (sourceFiles : list File) :
  (forall file, file ∈ sourceFiles -> is_Some (filename file ≫= parseS3Uri)) ->
  Mover.visit destinations sourceFiles
  = (map (fun file => (file, Mover.request destinations file)) sourceFiles, None).
Proof.
  induction sourceFiles as [|file rest IH]; intros Hall; cbn; [reflexivity|].
  destruct (Hall file) as [[pb pk] Hparse]; [constructor|].
  rewrite IH by (intros f Hin; apply Hall; constructor; assumption).
  unfold Mover.request. rewrite Hparse.
  destruct (List.find _ destinations); reflexivity.
Qed.

(** Moves whose sources are in the store and differ from one another all
    succeed. *)
Lemma perform_resolves (destinations : list Destination) (sourceFiles : list File)
    (w : World) :
  (forall file, file ∈ sourceFiles -> is_Some (filename file ≫= parseS3Uri)) ->
  NoDup (moveSources destinations sourceFiles) ->
  (forall src, src ∈ moveSources destinations sourceFiles -> is_Some (objects w !! src)) ->
  fst (fst (Mover.perform
              (map (fun file => (file, Mover.request destinations file)) sourceFiles) w))
  = Resolved tt.
Proof.
  revert w. induction sourceFiles as [|file rest IH]; intros w Hparse Hnd Hsrc; cbn;
    [reflexivity|].
  assert (Hparse' : forall f, f ∈ rest -> is_Some (filename f ≫= parseS3Uri)).
  { intros f Hin. apply Hparse. constructor. assumption. }
  unfold moveSources in Hnd, Hsrc. cbn in Hnd, Hsrc.
  destruct (Mover.request destinations file) as [e|k|sb sk tb tk] eqn:Hreq.
  - exfalso. destruct (Hparse file) as [[pb pk] Hp]; [constructor|].
    unfold Mover.request in Hreq. rewrite Hp in Hreq.
    destruct (List.find _ destinations); discriminate.
  - cbn. specialize (IH w Hparse' Hnd Hsrc).
    destruct (Mover.perform _ w) as [[r rest'] w']. cbn in *. exact IH.
  - apply NoDup_cons in Hnd as [Hnot Hnd].
    destruct (Hsrc (sb, sk)) as [body Hbody]; [constructor|].
    destruct (performOne_moves file sb sk tb tk body w Hbody) as (w1 & Hone & Ho1 & _).
    rewrite Hone.
    assert (Hsrc1 : forall src, src ∈ moveSources destinations rest ->
                                is_Some (objects w1 !! src)).
    { intros src Hin. rewrite Ho1.
      assert (Hne : (sb, sk) <> src) by (intros Heq; subst src; contradiction).
      rewrite lookup_delete_ne by exact Hne.
      destruct (decide ((tb, tk) = src)) as [<-|Hne'].
      - rewrite lookup_insert_eq. eauto.
      - rewrite lookup_insert_ne by exact Hne'. apply Hsrc. constructor. assumption. }
    specialize (IH w1 Hparse' Hnd Hsrc1).
    destruct (Mover.perform _ w1) as [[r rest'] w']. cbn in *. exact IH.
Qed.

(** C8, as the code has it.  When every file's [filename] is an S3 URI and
    the objects to move are in the store and differ from one another, the
    moves succeed.  When they succeed, every file object keeps its name; a
    file with a matching destination has the bucket of the first one that
    matches and as filepath the join of that destination's filepath and the
    file's name, which begins with the destination's filepath wherever
    [url-join] keeps it as written; a file with no matching destination
    keeps its bucket and filename and gets the key of its filename as
    filepath.  A move leaves the object's body under the target key and
    removes it from the source key; a file with no matching destination
    leaves the store as it is. *)
Theorem moveFileRequests_routes (destinations : list Destination)
    (sourceFiles : list File) (w : World) :
  let run := Mover.moveFileRequests destinations sourceFiles w in
  ((forall file, file ∈ sourceFiles -> is_Some (filename file ≫= parseS3Uri)) ->
   NoDup (moveSources destinations sourceFiles) ->
   (forall src, src ∈ moveSources destinations sourceFiles -> is_Some (objects w !! src)) ->
   fst (fst run) = Resolved tt)
  /\ (fst (fst run) = Resolved tt ->
      Forall2 (fun file file' =>
                 movedAsRouted destinations file file'
                 /\ forall d, firstDestination destinations file = Some d ->
                      String.prefix (dest_filepath d)
                                    (urljoin (dest_filepath d) (name file)) = true ->
                      exists p, filepath file' = Some p
                                /\ String.prefix (dest_filepath d) p = true)
              sourceFiles (snd (fst run)))
  /\ (forall file sb sk tb tk body w0,
        Mover.request destinations file = Mover.Moves sb sk tb tk ->
        objects w0 !! (sb, sk) = Some body -> (sb, sk) <> (tb, tk) ->
        objects (snd (Mover.performOne file (Mover.Moves sb sk tb tk) w0)) !! (tb, tk)
        = Some body
        /\ objects (snd (Mover.performOne file (Mover.Moves sb sk tb tk) w0)) !! (sb, sk)
           = None)
  /\ (forall file k w0,
        Mover.request destinations file = Mover.Skips k ->
        snd (Mover.performOne file (Mover.Skips k) w0) = w0).
Proof.
  intros run. split; [|split; [|split]].
  - intros Hparse Hnd Hsrc. unfold run, Mover.moveFileRequests.
    rewrite (visit_total destinations sourceFiles Hparse).
    pose proof (perform_resolves destinations sourceFiles w Hparse Hnd Hsrc) as Hres.
    destruct (Mover.perform _ w) as [[r files_] w']. exact Hres.
  - unfold run, Mover.moveFileRequests.
    destruct (Mover.visit destinations sourceFiles) as [visited thrown] eqn:Hvisit.
    destruct (Mover.perform visited w) as [[r files_] w'] eqn:Hperform.
    cbn [fst snd]. destruct thrown as [e|]; [discriminate|].
    intros ->. apply visit_all in Hvisit. subst visited.
    rewrite length_map, drop_all, app_nil_r.
    apply perform_resolved in Hperform.
    apply Forall2_fmap_l in Hperform.
    eapply Forall2_impl; [exact Hperform|].
    intros file file' Hrel. cbn in Hrel.
    destruct (Mover.request destinations file) as [e|k|sb sk tb tk] eqn:Hreq;
      [destruct Hrel| |].
    + destruct (request_skips _ _ _ Hreq) as (Hnone & pb & Hparse).
      unfold movedAsRouted. rewrite Hnone, Hrel. cbn.
      split; [|intros d Hd; discriminate]. split; [reflexivity|].
      split; [reflexivity|]. split; [reflexivity|]. eauto.
    + destruct (request_moves _ _ _ _ _ _ Hreq) as (Hparse & d & Hd & -> & ->).
      unfold movedAsRouted. rewrite Hd, Hrel. cbn.
      split; [auto|]. intros d' [= <-] Hprefix. eauto.
  - intros file sb sk tb tk body w0 _ Hbody Hne.
    destruct (performOne_moves file sb sk tb tk body w0 Hbody) as (w1 & -> & _ & Hmoved).
    apply Hmoved, Hne.
  - intros file k w0 _. reflexivity.
Qed.



End Moving.

(** C8, as stated, fails: a data file that matches no destination and whose
    object has no [filepath] does not keep it that way; it gets the key of
    its filename. *)
Lemma moveGranuleFiles_sets_missing_filepath :
  let file := Sample.stagedFile "g1.hdf" "internal-bucket" None in
  let run := Mover.moveGranuleFiles "g1" Sample.stagedFiles Sample.destinations
               "https://dist" false Sample.worldMove in
  Sample.stagedFiles !! 1%nat = Some file
  /\ firstDestination Sample.destinations file = None
  /\ filepath file = None
  /\ fst (fst run) = Resolved tt
  /\ filepath <$> (snd (fst run) !! 1%nat) = Some (Some "staged/g1.hdf").
Proof.
  cbv zeta. vm_compute. repeat split; reflexivity.
Qed.

Lemma moveFileRequests_routes_witness :
  Forall2 (fun file file' =>
             movedAsRouted Sample.destinations file file'
             /\ forall d, firstDestination Sample.destinations file = Some d ->
                  String.prefix (dest_filepath d)
                                (urljoin (dest_filepath d) (name file)) = true ->
                  exists p, filepath file' = Some p
                            /\ String.prefix (dest_filepath d) p = true)
          Sample.stagedFiles
          (snd (fst (Mover.moveFileRequests Sample.destinations Sample.stagedFiles
                       Sample.worldMove))).
Proof.
  refine (proj1 (proj2 (moveFileRequests_routes Sample.destinations Sample.stagedFiles
                          Sample.worldMove)) _).
  vm_compute. reflexivity.
Defined.

(** The text file of the sample is moved: its object is under the new key
    and no longer under the old one, and its record begins with the
    destination's filepath. *)
Example moveGranuleFiles_moves_text_file :
  let run := Mover.moveGranuleFiles "g1" Sample.stagedFiles Sample.destinations
               "https://dist" false Sample.worldMove in
  snd (fst run) !! 0%nat
  = Some (mkFile "g1.txt" "/granules" JSUndefined JSUndefined None (Some "public-bucket")
                 (Some "s3://public-bucket/moved/g1.txt") (Some "moved/g1.txt") None None)
  /\ objects (snd run) !! ("public-bucket", "moved/g1.txt") = Some "TEXT-1"
  /\ objects (snd run) !! ("internal-bucket", "staged/g1.txt") = None
  /\ objects (snd run) !! ("internal-bucket", "staged/g1.hdf") = Some "DATA-1".
Proof.
  cbv zeta. vm_compute. repeat split; reflexivity.
Qed.


(** One metadata document: it is read, rewritten with the URLs of the
    files, published and written back. *)
Example moveGranuleFiles_one_cmr :
  let run := Mover.moveGranuleFiles "g1" Sample.stagedFilesOneCmr Sample.destinations
               "https://dist" true Sample.worldMove in
  fst (fst run) = Resolved tt
  /\ trace (snd run)
     = [ CopyObject "internal-bucket" "staged/g1.txt" "public-bucket" "moved/g1.txt";
         DeleteObject "internal-bucket" "staged/g1.txt";
         GetObject "internal-bucket" "stack/workflows/buckets.json";
         GetObject "public-bucket" "staged/g1.cmr.xml";
         Publish "s3://public-bucket/staged/g1.cmr.xml";
         PutObject "public-bucket" "staged/g1.cmr.xml" ]
  /\ objects (snd run) !! ("public-bucket", "staged/g1.cmr.xml")
     = Some ("<Granule/>+https://public-bucket.s3.amazonaws.com/moved/g1.txt,"
             +:+ "https://public-bucket.s3.amazonaws.com/staged/g1.cmr.xml").
Proof.
  cbv zeta. vm_compute. repeat split; reflexivity.
Qed.

(** * Further properties *)

(** ** Footprints: what a call leaves alone *)

(** The parts of [changesOnly], one goal each. *)
Ltac split_changes :=
  unfold changesOnly;
  split; [|split; [|split; [|split; [|split; [|split; [|split; [|split]]]]]]].

(** [changesOnly] is a preorder that every permitted call respects, so it
    goes through the operations of the promise monad. *)
Section Frame.
Variable fp : Footprint.

Lemma changesOnly_refl (w : World) : changesOnly fp w w.
Proof.
  split_changes; auto.
  exists []. split; [symmetry; apply app_nil_r | constructor].
Qed.

Lemma changesOnly_trans (w1 w2 w3 : World) :
  changesOnly fp w1 w2 -> changesOnly fp w2 w3 -> changesOnly fp w1 w3.
Proof.
  intros (Ho1 & Hd1 & Hv1 & Hn1 & Hl1 & Hr1 & Hh1 & Hc1 & l1 & Ht1 & He1)
         (Ho2 & Hd2 & Hv2 & Hn2 & Hl2 & Hr2 & Hh2 & Hc2 & l2 & Ht2 & He2).
  split_changes.
  - intros key Hk. rewrite Ho2, Ho1 by exact Hk. reflexivity.
  - auto.
  - auto.
  - intros x Hx. apply Hn2 in Hx as [Hx|Hx]; auto.
  - intros l Hl. rewrite Hl2, Hl1 by exact Hl. reflexivity.
  - congruence.
  - congruence.
  - congruence.
  - exists (l1 ++ l2)%list. split; [|apply Forall_app; auto].
    rewrite Ht2, Ht1, app_assoc. reflexivity.
Qed.

Lemma changesOnly_emit (e : Event) (w : World) :
  events fp e -> changesOnly fp w (emit e w).
Proof.
  intros He. split_changes; cbn; auto.
  exists [e]. split; [reflexivity | repeat constructor; exact He].
Qed.

Lemma framed_ret {A} (a : A) : framed fp (ret a).
Proof. intros w. apply changesOnly_refl. Qed.

Lemma framed_throw {A} (e : error) : framed fp (@throw A e).
Proof. intros w. apply changesOnly_refl. Qed.

Lemma framed_lift {A} (r : outcome A) : framed fp (lift r).
Proof. intros w. apply changesOnly_refl. Qed.

Lemma framed_gets {A} (f : World -> A) : framed fp (gets f).
Proof. intros w. apply changesOnly_refl. Qed.

Lemma framed_tell (e : Event) : events fp e -> framed fp (tell e).
Proof. intros He w. apply changesOnly_emit, He. Qed.

Lemma framed_bind {A B} (m : M A) (k : A -> M B) :
  framed fp m -> (forall a, framed fp (k a)) -> framed fp (bind m k).
Proof.
  intros Hm Hk w. unfold bind. specialize (Hm w).
  destruct (m w) as [[a|e] w1]; cbn in *; [|exact Hm].
  eapply changesOnly_trans; [exact Hm | apply Hk].
Qed.

Lemma framed_catch {A} (m : M A) (h : error -> M A) :
  framed fp m -> (forall e, framed fp (h e)) -> framed fp (catch m h).
Proof.
  intros Hm Hh w. unfold catch. specialize (Hm w).
  destruct (m w) as [[a|e] w1]; cbn in *; [exact Hm|].
  eapply changesOnly_trans; [exact Hm | apply Hh].
Qed.

Lemma framed_finally {A} (m : M A) (h : M unit) :
  framed fp m -> framed fp h -> framed fp (finally m h).
Proof.
  intros Hm Hh w. unfold finally. specialize (Hm w).
  destruct (m w) as [r w1]; cbn in *. specialize (Hh w1).
  destruct (h w1) as [[u|e] w2]; cbn in *;
    (eapply changesOnly_trans; [exact Hm | exact Hh]).
Qed.

Lemma framed_detached (m : M unit) : framed fp m -> framed fp (detached m).
Proof. intros Hm w. exact (Hm w). Qed.

Lemma framed_promiseAll {A} (ms : list (M A)) :
  Forall (framed fp) ms -> framed fp (promiseAll ms).
Proof.
  induction 1 as [|m ms Hm _ IH]; intros w; cbn; [apply changesOnly_refl|].
  specialize (Hm w). destruct (m w) as [r w1]; cbn in *.
  specialize (IH w1). destruct (promiseAll ms w1) as [rs w2]; cbn in *.
  eapply changesOnly_trans; eassumption.
Qed.

End Frame.

(** A larger footprint permits what a smaller one does. *)
Lemma changesOnly_weaken (fp fp' : Footprint) (w w' : World) :
  (forall key, objectKeys fp key -> objectKeys fp' key) ->
  (forall key, deletedKeys fp key -> deletedKeys fp' key) ->
  (forall x, versionedBuckets fp x -> versionedBuckets fp' x) ->
  (forall l, leases fp l -> leases fp' l) ->
  (forall e, events fp e -> events fp' e) ->
  changesOnly fp w w' -> changesOnly fp' w w'.
Proof.
  intros Hk Hd Hv Hl He (Ho & Hd1 & Hv1 & Hn & Hl1 & Hr & Hh & Hc & called & Ht & Hcalled).
  split_changes; try assumption.
  - intros key Hkey. apply Ho. auto.
  - intros key Hkey. apply Hd1. auto.
  - intros x Hx. apply Hn in Hx as [Hx|Hx]; auto.
  - intros l Hnl. apply Hl1. auto.
  - exists called. split; [exact Ht|]. eapply Forall_impl; [exact Hcalled | exact He].
Qed.

Lemma framed_weaken (fp fp' : Footprint) {A} (m : M A) :
  (forall key, objectKeys fp key -> objectKeys fp' key) ->
  (forall key, deletedKeys fp key -> deletedKeys fp' key) ->
  (forall x, versionedBuckets fp x -> versionedBuckets fp' x) ->
  (forall l, leases fp l -> leases fp' l) ->
  (forall e, events fp e -> events fp' e) ->
  framed fp m -> framed fp' m.
Proof. intros Hk Hd Hv Hl He Hm w. eapply changesOnly_weaken; eauto. Qed.

(** A step that writes one object and makes one call. *)
Lemma changesOnly_insert (fp : Footprint) (e : Event) (key : string * string)
    (body : string) (w : World) :
  objectKeys fp key -> events fp e ->
  changesOnly fp w (set_objects (insert key body) (emit e w)).
Proof.
  intros Hk He. split_changes; cbn; auto.
  - intros key' Hkey. apply lookup_insert_ne. intros <-. contradiction.
  - intros key' _ Hsome. destruct (decide (key = key')) as [<-|Hne].
    + rewrite lookup_insert_eq. eauto.
    + rewrite lookup_insert_ne by exact Hne. exact Hsome.
  - exists [e]. split; [reflexivity | repeat constructor; exact He].
Qed.

(** The footprints of the calls that [ingestFile] makes, and its own. *)
Section GranuleFrame.
Context `{Runtime}.

Lemma framed_s3ObjectExists (fp : Footprint) (b k : string) :
  events fp (HeadObject b k) -> framed fp (s3ObjectExists b k).
Proof.
  intros He w. unfold s3ObjectExists. case_bool_decide; apply changesOnly_emit, He.
Qed.

Lemma framed_checksumS3Objects (fp : Footprint) (type : jsval) (b k : string) :
  events fp (ChecksumS3Objects type b k) -> framed fp (checksumS3Objects type b k).
Proof.
  intros He w. unfold checksumS3Objects.
  destruct (objects w !! (b, k)); apply changesOnly_emit, He.
Qed.

Lemma framed_download (fp : Footprint) (remotePath : string) :
  events fp (Download remotePath) -> framed fp (download remotePath).
Proof.
  intros He w. unfold download. destruct (remote w !! remotePath); apply changesOnly_emit, He.
Qed.

Lemma framed_sync (fp : Footprint) (remotePath b k : string) :
  objectKeys fp (b, k) -> events fp (Sync remotePath b k) ->
  framed fp (sync remotePath b k).
Proof.
  intros Hk He w. unfold sync.
  destruct (remote w !! remotePath); [|apply changesOnly_emit, He].
  apply changesOnly_insert; assumption.
Qed.

Lemma framed_enableBucketVersioning (fp : Footprint) (b : option string) :
  (forall x, b = Some x -> versionedBuckets fp x) ->
  events fp (GetBucketVersioning b) ->
  (forall x, b = Some x -> events fp (PutBucketVersioning x)) ->
  framed fp (Granule.enableBucketVersioning b).
Proof.
  intros Hb Hget Hput. unfold Granule.enableBucketVersioning.
  apply framed_bind; [apply framed_tell, Hget|]. intros _.
  destruct b as [x|]; [|apply framed_throw].
  apply framed_bind; [apply framed_gets|]. intros [|]; [apply framed_ret|].
  apply framed_bind; [apply framed_tell, Hput; reflexivity|]. intros _ w.
  unfold modify. split_changes; cbn; auto.
  - intros y Hy. apply elem_of_union. right. exact Hy.
  - intros y Hy. apply elem_of_union in Hy as [Hy|Hy]; [|left; exact Hy].
    apply elem_of_singleton in Hy. subst y. right. apply Hb. reflexivity.
  - exists []. split; [symmetry; apply app_nil_r | constructor].
Qed.

Lemma framed_landing (fp : Footprint) (sched point : Granule.Schedule) (file : File)
    (duplicateHandling : string) :
  (duplicateHandling = "version" ->
   (forall x, bucket file = Some x -> versionedBuckets fp x)
   /\ events fp (GetBucketVersioning (bucket file))
   /\ forall x, bucket file = Some x -> events fp (PutBucketVersioning x)) ->
  framed fp (Granule.landing sched point (Granule.versioningCall file duplicateHandling)).
Proof.
  intros Hv. unfold Granule.landing, Granule.versioningCall.
  destruct (String.eqb_spec duplicateHandling "version") as [Heq|Hne];
    destruct sched, point; try apply framed_ret.
  all: destruct (Hv Heq) as (Hb & Hget & Hput);
    apply framed_detached, framed_enableBucketVersioning; assumption.
Qed.

Lemma framed_getChecksumFromFile (fp : Footprint) (g : Granule.t) (file : File) :
  (forall p, events fp (Download p)) ->
  framed fp (Granule.getChecksumFromFile g file).
Proof.
  intros He. unfold Granule.getChecksumFromFile.
  destruct (truthy (checksumType file) && truthy (checksumValue file));
    [apply framed_ret|].
  destruct (Granule.this_checksumFiles g !! name file); [|apply framed_ret].
  apply framed_bind; [apply framed_download, He | intros; apply framed_ret].
Qed.

Lemma framed_validateChecksum (fp : Footprint) (g : Granule.t) (file : File)
    (b key : string) :
  (forall p, events fp (Download p)) ->
  (forall type, events fp (ChecksumS3Objects type b key)) ->
  framed fp (Granule.validateChecksum g file b key).
Proof.
  intros Hd Hc. unfold Granule.validateChecksum.
  apply framed_bind; [apply framed_getChecksumFromFile, Hd|].
  intros tv. destruct (negb (truthy (fst tv)) || negb (truthy (snd tv)));
    [apply framed_ret|].
  apply framed_bind; [apply framed_checksumS3Objects, Hc|].
  intros sum. destruct (strict_neq (snd tv) sum); [apply framed_throw | apply framed_ret].
Qed.

Lemma framed_ingestFile (fp : Footprint) (g : Granule.t) (sched : Granule.Schedule)
    (file : File) (b duplicateHandling : string) :
  objectKeys fp (b, stagedKey g file) ->
  (forall x, duplicateHandling = "version" -> bucket file = Some x ->
             versionedBuckets fp x) ->
  (forall e, ingestEvent b duplicateHandling e -> events fp e) ->
  framed fp (Granule.ingestFile g sched file b duplicateHandling).
Proof.
  intros Hk Hv He.
  assert (Hland : forall point,
            framed fp (Granule.landing sched point
                         (Granule.versioningCall file duplicateHandling))).
  { intros point. apply framed_landing. intros Hdup.
    split; [intros x; apply Hv, Hdup|].
    split; [|intros x _]; apply He; exact Hdup. }
  unfold Granule.ingestFile.
  apply framed_bind; [apply framed_s3ObjectExists, He; reflexivity|].
  intros exists_.
  destruct (exists_ && String.eqb duplicateHandling "skip"); [apply framed_ret|].
  apply framed_bind; [apply Hland|]. intros _.
  apply framed_bind.
  - apply framed_finally; [apply framed_sync; [exact Hk | apply He; reflexivity] | apply Hland].
  - intros filename_. apply framed_bind.
    { apply framed_validateChecksum; intros; apply He; cbn; auto. }
    intros _. apply framed_bind; [|intros; apply framed_ret].
    unfold Granule.the_collection.
    destruct (Granule.this_collection g); [apply framed_ret | apply framed_throw].
Qed.

(** X1: whatever its outcome, [ingestFile] writes no object but the one
    under the staged key of the bucket it is given, and deletes none; it
    switches versioning on only when duplicates are versioned, and then only
    for the file's own bucket; it leaves every lease, the provider's files
    and the configuration store alone; and the only calls it makes are the
    existence check, the transfer and the checksum in that bucket, the
    download of a sidecar and, when duplicates are versioned, the two
    versioning requests. *)
Theorem ingestFile_footprint (g : Granule.t) (sched : Granule.Schedule) (file : File)
    (b duplicateHandling : string) (w : World) :
  changesOnly
    (mkFootprint (fun key => key = (b, stagedKey g file))
                 (fun _ => False)
                 (fun x => duplicateHandling = "version" /\ bucket file = Some x)
                 (fun _ => False)
                 (ingestEvent b duplicateHandling))
    w (snd (Granule.ingestFile g sched file b duplicateHandling w)).
Proof.
  apply framed_ingestFile; cbn; auto.
Qed.

End GranuleFrame.

(** ** Checksums *)

Section ChecksumMore.
Context `{Runtime}.

(** X2: for a file object that carries a checksum type and value, and an
    object that is in the store, [validateChecksum] makes one checksum
    request and resolves exactly when the digest of the stored bytes is the
    value on the file object, as JavaScript values under [!==]; otherwise it
    rejects with [InvalidChecksum], in particular whenever the digest is a
    number and the value a string. *)
Theorem validateChecksum_embedded (g : Granule.t) (file : File) (b key body : string)
    (w : World) :
  truthy (checksumType file) && truthy (checksumValue file) = true ->
  objects w !! (b, key) = Some body ->
  Granule.validateChecksum g file b key w
  = (if bool_decide (digest (checksumType file) body = checksumValue file)
     then Resolved tt
     else Rejected (InvalidChecksum (name file) (checksumType file) (checksumValue file)),
     emit (ChecksumS3Objects (checksumType file) b key) w)
  /\ (forall z s, digest (checksumType file) body = JSNum z ->
                  checksumValue file = JSStr s ->
                  fst (Granule.validateChecksum g file b key w)
                  = Rejected (InvalidChecksum (name file) (checksumType file)
                                              (checksumValue file))).
Proof.
  intros Hemb Hobj.
  assert (Hrun : Granule.validateChecksum g file b key w
                 = (if bool_decide (digest (checksumType file) body = checksumValue file)
                    then Resolved tt
                    else Rejected (InvalidChecksum (name file) (checksumType file)
                                                   (checksumValue file)),
                    emit (ChecksumS3Objects (checksumType file) b key) w)).
  { unfold Granule.validateChecksum, Granule.getChecksumFromFile. rewrite Hemb.
    apply andb_prop in Hemb as [Ht Hv].
    unfold bind, ret, checksumS3Objects. cbn [fst snd]. rewrite Ht, Hv. cbn [negb orb].
    rewrite Hobj. unfold strict_neq.
    case_bool_decide as Hv1; case_bool_decide as Hv2; try reflexivity; congruence. }
  split; [exact Hrun|].
  intros z s Hz Hs. rewrite Hrun. cbn [fst].
  rewrite bool_decide_eq_false_2; [reflexivity|]. rewrite Hz, Hs. discriminate.
Qed.

(** X3: for a file object without a checksum of its own and with a
    recorded sidecar, [validateChecksum] downloads the sidecar and then:
    rejects with the download's error when the provider does not have it;
    resolves without any check when the sidecar's first word is empty;
    otherwise compares that word with the md5 digest of the stored object,
    rejecting with [InvalidChecksum] on a difference and with the store's
    error when the object is missing. *)
Theorem validateChecksum_sidecar (g : Granule.t) (file sidecar : File) (b key : string)
    (w : World) :
  truthy (checksumType file) && truthy (checksumValue file) = false ->
  Granule.this_checksumFiles g !! name file = Some sidecar ->
  Granule.validateChecksum g file b key w
  = match remote w !! remotePathOf sidecar with
    | None =>
        (Rejected (RemoteResourceError (remotePathOf sidecar)),
         emit (Download (remotePathOf sidecar)) w)
    | Some text =>
        if String.eqb (first_token text) "" then
          (Resolved tt, emit (Download (remotePathOf sidecar)) w)
        else
          (match objects w !! (b, key) with
           | None => Rejected (S3Error "NoSuchKey")
           | Some body =>
               if bool_decide (digest (JSStr "md5") body = JSStr (first_token text))
               then Resolved tt
               else Rejected (InvalidChecksum (name file) (checksumType file)
                                              (checksumValue file))
           end,
           emit (ChecksumS3Objects (JSStr "md5") b key)
                (emit (Download (remotePathOf sidecar)) w))
    end.
Proof.
  intros Hemb Hside.
  unfold Granule.validateChecksum, Granule.getChecksumFromFile. rewrite Hemb, Hside.
  fold (remotePathOf sidecar).
  unfold bind, ret, download, checksumS3Objects.
  destruct (remote w !! remotePathOf sidecar) as [text|]; [|reflexivity].
  cbn. destruct (String.eqb (first_token text) ""); cbn; [reflexivity|].
  destruct (objects w !! (b, key)) as [body|]; [|reflexivity].
  unfold strict_neq.
  case_bool_decide as Hv1; case_bool_decide as Hv2; try reflexivity; congruence.
Qed.

(** X4, the round trip: a file that is transferred and whose applicable
    checksum is the digest of the provider's bytes is staged: [ingestFile]
    resolves to the file object with its bucket, S3 URI, staging directory
    and [url_path] set, the stored object holds the provider's bytes, and
    the checksum of that object has been asked for. *)
Theorem ingestFile_verified_staging (g : Granule.t) (sched : Granule.Schedule)
    (file : File) (b duplicateHandling body : string) (type value : jsval)
    (c : Collection) (w : World) :
  (b, checkedKey g file) ∉ headFailures w ->
  skipsExisting g file b duplicateHandling w = false ->
  remote w !! remotePathOf file = Some body ->
  applicableChecksum g file (remote w) = Some (type, value) ->
  digest type body = value ->
  Granule.this_collection g = Some c ->
  exists w',
    Granule.ingestFile g sched file b duplicateHandling w
    = (Resolved (mkFile (name file) (path file) (checksumType file) (checksumValue file)
                        (granuleId file) (Some b)
                        (Some (buildS3Uri b (stagedKey g file))) (filepath file)
                        (Some (Granule.this_fileStagingDir g))
                        (Granule.getUrlPath c file)), w')
    /\ objects w' !! (b, stagedKey g file) = Some body
    /\ ChecksumS3Objects type b (stagedKey g file) ∈ trace w'.
Proof.
  intros Hhead Hskip Hremote Happ Heq Hc.
  destruct (ingestFile_transfers g sched file b duplicateHandling body w Hhead Hskip Hremote)
    as (w3 & Ho3 & Hr3 & _ & _ & ->).
  rewrite <- Hr3 in Happ.
  destruct (getChecksumFromFile_applicable g file w3 type value Happ)
    as (Ht & Hv & w4 & Hget & Ho4).
  unfold afterTransfer, Granule.validateChecksum.
  unfold bind at 1. unfold bind at 1. rewrite Hget. cbn [fst snd].
  rewrite Ht, Hv. cbn [negb orb].
  unfold bind, checksumS3Objects. rewrite Ho4, Ho3, lookup_insert_eq.
  unfold strict_neq. rewrite bool_decide_eq_true_2 by congruence.
  cbn [negb]. unfold Granule.the_collection. rewrite Hc. unfold ret.
  eexists. split; [reflexivity|]. cbn.
  rewrite Ho4, Ho3, lookup_insert_eq. split; [reflexivity|].
  apply elem_of_app. right. left.
Qed.

End ChecksumMore.

Lemma validateChecksum_embedded_witness :
  let file := Sample.listed "g1.hdf" (JSStr "CKSUM") (JSNum 6) in
  Granule.validateChecksum (Sample.ingestObject "replace") file "internal-bucket"
    "file-staging/g1.hdf" Sample.worldStaged
  = (if bool_decide (digest (JSStr "CKSUM") "OLD-DATA" = JSNum 6)
     then Resolved tt
     else Rejected (InvalidChecksum "g1.hdf" (JSStr "CKSUM") (JSNum 6)),
     emit (ChecksumS3Objects (JSStr "CKSUM") "internal-bucket" "file-staging/g1.hdf")
          Sample.worldStaged)
  /\ (forall z s, digest (JSStr "CKSUM") "OLD-DATA" = JSNum z ->
                  JSNum 6 = JSStr s ->
                  fst (Granule.validateChecksum (Sample.ingestObject "replace") file
                         "internal-bucket" "file-staging/g1.hdf" Sample.worldStaged)
                  = Rejected (InvalidChecksum "g1.hdf" (JSStr "CKSUM") (JSNum 6))).
Proof.
  refine (validateChecksum_embedded (Sample.ingestObject "replace")
            (Sample.listed "g1.hdf" (JSStr "CKSUM") (JSNum 6)) "internal-bucket"
            "file-staging/g1.hdf" "OLD-DATA" Sample.worldStaged _ _).
  - reflexivity.
  - vm_compute. reflexivity.
Defined.

Lemma validateChecksum_sidecar_witness :
  let file := Sample.listed "g1.txt" JSUndefined JSUndefined in
  let sidecar := Sample.listed "g1.txt.md5" JSUndefined JSUndefined in
  let g := snd (Granule.filterFiles (Sample.ingestObject "replace")
                  (g_files Sample.granuleWithSidecar)) in
  Granule.validateChecksum g file "internal-bucket" "file-staging/g1.txt"
    Sample.worldBadSidecar
  = match remote Sample.worldBadSidecar !! remotePathOf sidecar with
    | None =>
        (Rejected (RemoteResourceError (remotePathOf sidecar)),
         emit (Download (remotePathOf sidecar)) Sample.worldBadSidecar)
    | Some text =>
        if String.eqb (first_token text) "" then
          (Resolved tt, emit (Download (remotePathOf sidecar)) Sample.worldBadSidecar)
        else
          (match objects Sample.worldBadSidecar
                 !! ("internal-bucket", "file-staging/g1.txt") with
           | None => Rejected (S3Error "NoSuchKey")
           | Some body =>
               if bool_decide (digest (JSStr "md5") body = JSStr (first_token text))
               then Resolved tt
               else Rejected (InvalidChecksum (name file) (checksumType file)
                                              (checksumValue file))
           end,
           emit (ChecksumS3Objects (JSStr "md5") "internal-bucket" "file-staging/g1.txt")
                (emit (Download (remotePathOf sidecar)) Sample.worldBadSidecar))
    end.
Proof.
  refine (validateChecksum_sidecar _ (Sample.listed "g1.txt" JSUndefined JSUndefined)
            (Sample.listed "g1.txt.md5" JSUndefined JSUndefined) "internal-bucket"
            "file-staging/g1.txt" Sample.worldBadSidecar _ _).
  - reflexivity.
  - vm_compute. reflexivity.
Defined.

Lemma ingestFile_verified_staging_witness :
  let file := Sample.listed "g1.hdf" (JSStr "CKSUM") (JSNum 6) in
  let g := Sample.ingestObject "replace" in
  exists w',
    Granule.ingestFile g Granule.LandsAfterSync file "internal-bucket" "replace"
      Sample.world0
    = (Resolved (mkFile (name file) (path file) (checksumType file) (checksumValue file)
                        (granuleId file) (Some "internal-bucket")
                        (Some (buildS3Uri "internal-bucket" (stagedKey g file)))
                        (filepath file) (Some (Granule.this_fileStagingDir g))
                        (Granule.getUrlPath Sample.collection file)), w')
    /\ objects w' !! ("internal-bucket", stagedKey g file) = Some "DATA-1"
    /\ ChecksumS3Objects (JSStr "CKSUM") "internal-bucket" (stagedKey g file) ∈ trace w'.
Proof.
  refine (ingestFile_verified_staging (Sample.ingestObject "replace") Granule.LandsAfterSync
            (Sample.listed "g1.hdf" (JSStr "CKSUM") (JSNum 6)) "internal-bucket" "replace"
            "DATA-1" (JSStr "CKSUM") (JSNum 6) Sample.collection Sample.world0
            _ _ _ _ _ _).
  - apply not_elem_of_empty.
  - vm_compute. reflexivity.
  - vm_compute. reflexivity.
  - vm_compute. reflexivity.
  - reflexivity.
  - reflexivity.
Defined.

(** ** [ingest]: one granule *)

Section Sidecars.
Context `{Runtime}.

(** [filterChecksumFiles] in terms of [isChecksumFile] and [checksumKey]. *)
Lemma filterChecksumFiles_keep (g : Granule.t) (file : File) :
  fst (Granule.filterChecksumFiles g file) = negb (isChecksumFile (name file)).
Proof.
  unfold Granule.filterChecksumFiles, isChecksumFile.
  destruct (indexOf ".md5" (name file)) as [[|n]|]; reflexivity.
Qed.

Lemma filterChecksumFiles_this (g : Granule.t) (file : File) :
  snd (Granule.filterChecksumFiles g file)
  = if isChecksumFile (name file)
    then Granule.set_checksumFiles (insert (checksumKey (name file)) file) g
    else g.
Proof.
  unfold Granule.filterChecksumFiles, isChecksumFile, checksumKey.
  destruct (indexOf ".md5" (name file)) as [[|n]|]; reflexivity.
Qed.

Lemma filterFiles_cons (g : Granule.t) (f : File) (rest : list File) :
  Granule.filterFiles g (f :: rest)
  = (if fst (Granule.filterChecksumFiles g f)
     then f :: fst (Granule.filterFiles (snd (Granule.filterChecksumFiles g f)) rest)
     else fst (Granule.filterFiles (snd (Granule.filterChecksumFiles g f)) rest),
     snd (Granule.filterFiles (snd (Granule.filterChecksumFiles g f)) rest)).
Proof.
  cbn [Granule.filterFiles].
  destruct (Granule.filterChecksumFiles g f) as [keep g1]. cbn [fst snd].
  destruct (Granule.filterFiles g1 rest) as [kept g2]. reflexivity.
Qed.

(** The data files and the recorded sidecars of a file list. *)
Lemma filterFiles_spec (g : Granule.t) (fs : list File) :
  fst (Granule.filterFiles g fs)
  = List.filter (fun f => negb (isChecksumFile (name f))) fs
  /\ (forall k,
        Granule.this_checksumFiles (snd (Granule.filterFiles g fs)) !! k
        = match sidecarOf fs k with
          | Some sidecar => Some sidecar
          | None => Granule.this_checksumFiles g !! k
          end)
  /\ Granule.this_fileStagingDir (snd (Granule.filterFiles g fs))
     = Granule.this_fileStagingDir g
  /\ Granule.this_collection (snd (Granule.filterFiles g fs)) = Granule.this_collection g
  /\ Granule.this_duplicateHandling (snd (Granule.filterFiles g fs))
     = Granule.this_duplicateHandling g
  /\ Granule.this_buckets (snd (Granule.filterFiles g fs)) = Granule.this_buckets g.
Proof.
  revert g. induction fs as [|f rest IH]; intros g.
  - cbn. repeat split; reflexivity.
  - rewrite filterFiles_cons. cbn [fst snd].
    rewrite filterChecksumFiles_keep, filterChecksumFiles_this.
    destruct (IH (if isChecksumFile (name f)
                  then Granule.set_checksumFiles (insert (checksumKey (name f)) f) g
                  else g)) as (Hk & Hc & Hd & Hcol & Hdup & Hb).
    rewrite Hk, Hd, Hcol, Hdup, Hb.
    split; [|split; [|split; [|split; [|split]]]].
    + cbn [List.filter]. destruct (isChecksumFile (name f)); reflexivity.
    + intros k. rewrite Hc. unfold sidecarOf. cbn [List.filter].
      destruct (isChecksumFile (name f)) eqn:Hf; cbn [andb]; [|reflexivity].
      destruct (String.eqb_spec (checksumKey (name f)) k) as [Heq|Hne].
      * rewrite last_cons.
        destruct (last (List.filter _ rest)); [reflexivity|].
        cbn. subst k. apply lookup_insert_eq.
      * destruct (last (List.filter _ rest)); [reflexivity|].
        cbn. apply lookup_insert_ne. exact Hne.
    + destruct (isChecksumFile (name f)); reflexivity.
    + destruct (isChecksumFile (name f)); reflexivity.
    + destruct (isChecksumFile (name f)); reflexivity.
    + destruct (isChecksumFile (name f)); reflexivity.
Qed.

(** X5: what [granule.files.filter(f => this.filterChecksumFiles(f))]
    does: the files that go on to be ingested are, in order, those whose
    name does not have [.md5] past its first character; each of the others
    is recorded under its name with the first [.md5] cut out, a later one
    replacing an earlier one of the same name, and sidecars recorded before
    under other names stay; nothing else of the ingest object changes. *)
Theorem filterFiles_separates (g : Granule.t) (fs : list File) :
  fst (Granule.filterFiles g fs)
  = List.filter (fun f => negb (isChecksumFile (name f))) fs
  /\ (forall k,
        Granule.this_checksumFiles (snd (Granule.filterFiles g fs)) !! k
        = match sidecarOf fs k with
          | Some sidecar => Some sidecar
          | None => Granule.this_checksumFiles g !! k
          end)
  /\ Granule.this_fileStagingDir (snd (Granule.filterFiles g fs))
     = Granule.this_fileStagingDir g
  /\ Granule.this_collection (snd (Granule.filterFiles g fs)) = Granule.this_collection g
  /\ Granule.this_duplicateHandling (snd (Granule.filterFiles g fs))
     = Granule.this_duplicateHandling g
  /\ Granule.this_buckets (snd (Granule.filterFiles g fs)) = Granule.this_buckets g.
Proof. apply filterFiles_spec. Qed.

End Sidecars.

Section IngestGranule.
Context `{Runtime}.

(** What a resolved [Promise.all] says of each of its promises. *)
Lemma promiseAll_resolved_inv {A B} (f : A -> M B) (l : list A) (ys : list B)
    (w w' : World) :
  promiseAll (map f l) w = (Resolved ys, w') ->
  Forall2 (fun x y => exists w1 w2, f x w1 = (Resolved y, w2)) l ys.
Proof.
  revert ys w w'. induction l as [|x l IH]; intros ys w w'; cbn.
  - intros [= <- <-]. constructor.
  - destruct (f x w) as [r w1] eqn:Ex.
    destruct (promiseAll (map f l) w1) as [rs w2] eqn:El.
    destruct r as [y|e]; [|discriminate].
    destruct rs as [ys'|e]; [|discriminate].
    intros [= <- <-]. constructor; [eauto | eapply IH; eassumption].
Qed.

(** A property of the world that every promise keeps is kept by
    [Promise.all]. *)
Lemma promiseAll_stable {A B} (f : A -> M B) (Q : World -> Prop) (l : list A) (w : World) :
  (forall x w1, x ∈ l -> Q w1 -> Q (snd (f x w1))) ->
  Q w -> Q (snd (promiseAll (map f l) w)).
Proof.
  revert w. induction l as [|x l IH]; intros w Hstable Hw; cbn; [exact Hw|].
  assert (Hx : Q (snd (f x w))) by (apply Hstable; [left | exact Hw]).
  destruct (f x w) as [r w1]. cbn in Hx.
  assert (Hl : Q (snd (promiseAll (map f l) w1))).
  { apply IH; [|exact Hx]. intros y w2 Hy. apply Hstable. right. exact Hy. }
  destruct (promiseAll (map f l) w1) as [rs w2]. exact Hl.
Qed.

Lemma promiseAll_resolved_Forall {A B} (f : A -> M B) (Q : B -> World -> Prop)
    (l : list A) (ys : list B) (w w' : World) :
  (forall x y w1 w2, x ∈ l -> f x w1 = (Resolved y, w2) -> Q y w2) ->
  (forall x y w1, x ∈ l -> Q y w1 -> Q y (snd (f x w1))) ->
  promiseAll (map f l) w = (Resolved ys, w') ->
  Forall (fun y => Q y w') ys.
Proof.
  revert ys w w'. induction l as [|x l IH]; intros ys w w' Hres Hstable; cbn.
  - intros [= <- <-]. constructor.
  - destruct (f x w) as [r w1] eqn:Ex.
    destruct (promiseAll (map f l) w1) as [rs w2] eqn:El.
    destruct r as [y|e]; [|discriminate].
    destruct rs as [ys'|e]; [|discriminate].
    intros [= <- <-]. constructor.
    + pose proof (promiseAll_stable f (Q y) l w1) as Hst. rewrite El in Hst. apply Hst.
      * intros z w3 Hz. apply Hstable. right. exact Hz.
      * eapply Hres; [left | exact Ex].
    + eapply IH; [| |exact El].
      * intros z y' w3 w4 Hz. apply Hres. right. exact Hz.
      * intros z y' w3 Hz. apply Hstable. right. exact Hz.
Qed.

(** A resolved [ingestFile] either skipped the file or staged it. *)
Lemma ingestFile_resolved_inv (g : Granule.t) (sched : Granule.Schedule) (file staged : File)
    (b duplicateHandling : string) (w w' : World) :
  Granule.ingestFile g sched file b duplicateHandling w = (Resolved staged, w') ->
  (staged = file /\ duplicateHandling = "skip"
   /\ is_Some (objects w !! (b, checkedKey g file)))
  \/ (exists c body,
        Granule.this_collection g = Some c
        /\ remote w !! remotePathOf file = Some body
        /\ objects w' !! (b, stagedKey g file) = Some body
        /\ staged = mkFile (name file) (path file) (checksumType file) (checksumValue file)
                           (granuleId file) (Some b)
                           (Some (buildS3Uri b (stagedKey g file))) (filepath file)
                           (Some (Granule.this_fileStagingDir g))
                           (Granule.getUrlPath c file)).
Proof.
  intros Hrun.
  destruct (decide ((b, checkedKey g file) ∈ headFailures w)) as [Hfail|Hhead].
  { exfalso. revert Hrun. unfold Granule.ingestFile, s3ObjectExists.
    unfold bind at 1. fold (checkedKey g file).
    rewrite bool_decide_eq_true_2 by exact Hfail. discriminate. }
  destruct (skipsExisting g file b duplicateHandling w) eqn:Hskip.
  { left. revert Hrun. unfold Granule.ingestFile, s3ObjectExists.
    unfold bind at 1. fold (checkedKey g file).
    rewrite bool_decide_eq_false_2 by exact Hhead.
    unfold skipsExisting in Hskip. rewrite Hskip.
    apply andb_true_iff in Hskip as [Hex Hdup].
    apply bool_decide_eq_true_1 in Hex. apply String.eqb_eq in Hdup.
    intros [= <- <-]. auto. }
  right.
  destruct (remote w !! remotePathOf file) as [body|] eqn:Hremote.
  2:{ exfalso.
      destruct (ingestFile_remote_missing g sched file b duplicateHandling w
                  Hhead Hskip Hremote) as (w1 & Hrej).
      congruence. }
  destruct (ingestFile_transfers g sched file b duplicateHandling body w
              Hhead Hskip Hremote) as (w3 & Ho3 & _ & _ & _ & Heq).
  rewrite Heq in Hrun.
  pose proof (afterTransfer_frame g file b w3) as [Hobj _].
  rewrite Hrun in Hobj. cbn [snd] in Hobj.
  revert Hrun. unfold afterTransfer, bind.
  destruct (Granule.validateChecksum g file b (stagedKey g file) w3) as [[u|e] w4];
    [|discriminate].
  unfold Granule.the_collection.
  destruct (Granule.this_collection g) as [c|]; cbn; [|discriminate].
  intros [= <- <-]. exists c, body. repeat split.
  rewrite Hobj, Ho3. apply lookup_insert_eq.
Qed.

(** What a resolved [ingest] did: the granule id is kept, the staging
    directory of the object is joined with the collection id, and the files
    are what [ingestFile] made of the data files. *)
Lemma ingest_resolved_inv (g g' : Granule.t) (sched : File -> Granule.Schedule)
    (granule r : GranuleRecord) (b : string) (w w' : World) :
  Granule.ingest g sched granule b w = (Resolved (g', r), w') ->
  g_granuleId r = g_granuleId granule
  /\ Granule.this_fileStagingDir g'
     = path_join (Granule.this_fileStagingDir g)
                 (constructCollectionId (g_dataType r) (g_version r))
  /\ Granule.this_duplicateHandling g' = Granule.this_duplicateHandling g
  /\ Granule.this_buckets g' = Granule.this_buckets g
  /\ is_Some (Granule.this_collection g')
  /\ exists w0,
       promiseAll
         (map (fun f => Granule.ingestFile g' (sched f) f b (Granule.this_duplicateHandling g))
              (List.filter (fun f => negb (isChecksumFile (name f))) (g_files granule))) w0
       = (Resolved (g_files r), w').
Proof.
  unfold Granule.ingest, bind.
  match goal with
  | |- context [match ?m w with pair _ _ => _ end] => destruct (m w) as [[cdv|e] w0]
  end; [|discriminate].
  cbv zeta.
  match goal with
  | |- context [Granule.filterFiles ?g1 ?fs] =>
      pose proof (filterFiles_spec g1 fs) as (Hk & _ & Hd & Hcol & Hdup & Hb);
      destruct (Granule.filterFiles g1 fs) as [dataFiles g2]
  end.
  cbn [fst snd Granule.this_fileStagingDir Granule.this_collection
       Granule.this_duplicateHandling Granule.this_buckets] in *.
  destruct (promiseAll _ w0) as [[files_|e] w1] eqn:Hall; [|discriminate].
  cbn. intros [= <- <- <-]. cbn.
  rewrite Hd, Hcol, Hdup, Hb. repeat split; eauto.
  exists w0. rewrite <- Hk, <- Hdup. exact Hall.
Qed.

Lemma ingestFile_resolved_name (g : Granule.t) (sched : Granule.Schedule) (file staged : File)
    (b duplicateHandling : string) (w w' : World) :
  Granule.ingestFile g sched file b duplicateHandling w = (Resolved staged, w') ->
  name staged = name file.
Proof.
  intros Hrun. apply ingestFile_resolved_inv in Hrun as [(-> & _)|(c & body & _ & _ & _ & ->)];
    reflexivity.
Qed.

(** Unless duplicates are skipped, the files of a resolved [ingest] are
    staged in the bucket it was given. *)
Lemma ingest_resolved_staged (g g' : Granule.t) (sched : File -> Granule.Schedule)
    (granule r : GranuleRecord) (b : string) (w w' : World) :
  Granule.ingest g sched granule b w = (Resolved (g', r), w') ->
  Granule.this_duplicateHandling g <> "skip" ->
  Forall (fun staged =>
            bucket staged = Some b
            /\ fileStagingDir staged = Some (Granule.this_fileStagingDir g')
            /\ is_Some (objects w' !! (b, stagedKey g' staged)))
         (g_files r).
Proof.
  intros Hrun Hskip.
  apply ingest_resolved_inv in Hrun as (_ & _ & _ & _ & _ & w0 & Hall).
  eapply promiseAll_resolved_Forall with
    (Q := fun staged w1 =>
            bucket staged = Some b
            /\ fileStagingDir staged = Some (Granule.this_fileStagingDir g')
            /\ is_Some (objects w1 !! (b, stagedKey g' staged))); [| |exact Hall].
  - intros f staged w1 w2 _ Hf.
    apply ingestFile_resolved_inv in Hf as [(_ & Hs & _)|(c & body & _ & _ & Hobj & ->)];
      [contradiction|].
    cbn. repeat split. unfold stagedKey, checkedKey in *. cbn. eauto.
  - intros f staged w1 _ (Hb & Hd & Hobj). repeat split; try assumption.
    pose proof (framed_ingestFile
                  (mkFootprint (fun key => key = (b, stagedKey g' f)) (fun _ => False)
                     (fun x => Granule.this_duplicateHandling g = "version"
                               /\ bucket f = Some x)
                     (fun _ => False)
                     (ingestEvent b (Granule.this_duplicateHandling g)))
                  g' (sched f) f b (Granule.this_duplicateHandling g)
                  eq_refl (fun x Hv Hb => conj Hv Hb) (fun e He => He) w1)
      as (_ & Hkeep & _).
    apply Hkeep; [cbn; tauto | exact Hobj].
Qed.

(** X6: a resolved [ingest] keeps the granule id and returns one file per
    data file of the granule, in order and under the same names, the
    sidecars left out; unless duplicates are skipped, every returned file
    carries the bucket and the staging directory, and its object is in the
    store. *)
Theorem ingest_returns_data_files (g g' : Granule.t) (sched : File -> Granule.Schedule)
    (granule r : GranuleRecord) (b : string) (w w' : World) :
  Granule.ingest g sched granule b w = (Resolved (g', r), w') ->
  g_granuleId r = g_granuleId granule
  /\ map name (g_files r)
     = map name (List.filter (fun f => negb (isChecksumFile (name f))) (g_files granule))
  /\ (Granule.this_duplicateHandling g <> "skip" ->
      Forall (fun staged =>
                bucket staged = Some b
                /\ fileStagingDir staged = Some (Granule.this_fileStagingDir g')
                /\ is_Some (objects w' !! (b, stagedKey g' staged)))
             (g_files r)).
Proof.
  intros Hrun.
  pose proof (ingest_resolved_inv _ _ _ _ _ _ _ _ Hrun) as (Hid & _ & _ & _ & _ & w0 & Hall).
  split; [exact Hid|]. split.
  - apply promiseAll_resolved_inv in Hall.
    induction Hall as [|f staged fs ss (w1 & w2 & Hf) _ IH]; [reflexivity|].
    cbn. rewrite IH. f_equal. eapply ingestFile_resolved_name, Hf.
  - apply (ingest_resolved_staged _ _ _ _ _ _ _ _ Hrun).
Qed.

End IngestGranule.

Lemma ingest_returns_data_files_witness :
  exists g' r w',
    g_granuleId r = g_granuleId Sample.granuleWithSidecar
    /\ map name (g_files r)
       = map name (List.filter (fun f => negb (isChecksumFile (name f)))
                               (g_files Sample.granuleWithSidecar))
    /\ (Granule.this_duplicateHandling (Sample.ingestObject "replace") <> "skip" ->
        Forall (fun staged =>
                  bucket staged = Some "internal-bucket"
                  /\ fileStagingDir staged = Some (Granule.this_fileStagingDir g')
                  /\ is_Some (objects w' !! ("internal-bucket", stagedKey g' staged)))
               (g_files r)).
Proof.
  eexists _, _, _.
  eapply (ingest_returns_data_files (Sample.ingestObject "replace") _ Sample.sched
            Sample.granuleWithSidecar _ "internal-bucket" Sample.world0 _).
  vm_compute. reflexivity.
Defined.

Section IngestFootprint.
Context `{Runtime}.

(** [ingest] stays within the footprint of any list of granules that holds
    its granule. *)
Lemma framed_ingest (g : Granule.t) (sched : File -> Granule.Schedule)
    (granule : GranuleRecord) (b : string) (granules : list GranuleRecord)
    (leases_ : string * string -> Prop) (events_ : Event -> Prop) :
  granule ∈ granules ->
  framed (ingestFootprint b (Granule.this_duplicateHandling g) granules leases_ events_)
         (Granule.ingest g sched granule b).
Proof.
  intros Hin. unfold Granule.ingest. apply framed_bind.
  - destruct (Granule.this_collection g) as [c|]; [apply framed_ret|].
    destruct (g_dataType granule) as [d|], (g_version granule) as [v|];
      try apply framed_throw.
    destruct (truthy_str (Some d) && truthy_str (Some v)); [|apply framed_throw].
    apply framed_bind; [apply framed_gets|].
    intros [c|]; [apply framed_ret | apply framed_throw].
  - intros cdv. cbv zeta.
    match goal with
    | |- context [Granule.filterFiles ?g1 ?fs] =>
        pose proof (filterFiles_spec g1 fs) as (Hk & _ & _ & _ & Hdup & _);
        destruct (Granule.filterFiles g1 fs) as [dataFiles g2]
    end.
    cbn [fst snd Granule.this_duplicateHandling] in *.
    apply framed_bind; [|intros; apply framed_ret].
    apply framed_promiseAll, Forall_map, Forall_forall. intros f Hf.
    apply framed_ingestFile; cbn; [reflexivity| |rewrite Hdup; auto].
    intros x Hv Hb. rewrite Hdup in Hv. split; [exact Hv|].
    exists granule, f. repeat split; try assumption.
    rewrite Hk in Hf. apply list_elem_of_In, List.filter_In in Hf as [Hf _].
    apply list_elem_of_In. exact Hf.
Qed.


(** X8: [ingest] joins the collection id to [this.fileStagingDir] each time
    it is called: after two resolved calls on one ingest object the staging
    directory has both collection ids joined to it, and that is where the
    files of the second granule are staged. *)
Theorem ingest_staging_dir_accumulates (g g1 g2 : Granule.t)
    (sched : File -> Granule.Schedule) (granule1 granule2 r1 r2 : GranuleRecord)
    (b : string) (w w1 w1' w2 : World) :
  Granule.ingest g sched granule1 b w = (Resolved (g1, r1), w1) ->
  Granule.ingest g1 sched granule2 b w1' = (Resolved (g2, r2), w2) ->
  Granule.this_fileStagingDir g2
  = path_join (path_join (Granule.this_fileStagingDir g)
                         (constructCollectionId (g_dataType r1) (g_version r1)))
              (constructCollectionId (g_dataType r2) (g_version r2))
  /\ (Granule.this_duplicateHandling g <> "skip" ->
      Forall (fun staged =>
                fileStagingDir staged = Some (Granule.this_fileStagingDir g2)
                /\ is_Some (objects w2 !! (b, stagedKey g2 staged)))
             (g_files r2)).
Proof.
  intros Hrun1 Hrun2.
  pose proof (ingest_resolved_inv _ _ _ _ _ _ _ _ Hrun1) as (_ & Hd1 & Hdup1 & _).
  pose proof (ingest_resolved_inv _ _ _ _ _ _ _ _ Hrun2) as (_ & Hd2 & _).
  split; [rewrite Hd2, Hd1; reflexivity|].
  intros Hskip.
  assert (Hfiles := ingest_resolved_staged _ _ _ _ _ _ _ _ Hrun2).
  rewrite Hdup1 in Hfiles. specialize (Hfiles Hskip).
  eapply Forall_impl; [exact Hfiles|]. cbn. tauto.
Qed.

End IngestFootprint.

Lemma ingest_staging_dir_accumulates_witness :
  exists g2 r1 r2 w2,
    Granule.this_fileStagingDir g2
    = path_join (path_join (Granule.this_fileStagingDir (Sample.ingestObject "replace"))
                           (constructCollectionId (g_dataType r1) (g_version r1)))
                (constructCollectionId (g_dataType r2) (g_version r2))
    /\ (Granule.this_duplicateHandling (Sample.ingestObject "replace") <> "skip" ->
        Forall (fun staged =>
                  fileStagingDir staged = Some (Granule.this_fileStagingDir g2)
                  /\ is_Some (objects w2 !! ("internal-bucket", stagedKey g2 staged)))
               (g_files r2)).
Proof.
  eexists _, _, _, _.
  eapply (ingest_staging_dir_accumulates (Sample.ingestObject "replace") _ _ Sample.sched
            Sample.granule1 Sample.granuleWithSidecar _ _ "internal-bucket"
            Sample.world0 _ Sample.world0 _).
  - vm_compute. reflexivity.
  - vm_compute. reflexivity.
Defined.

Section SidecarEndToEnd.
Context `{Runtime}.

(** [Promise.all] rejects when one of its promises does, in whatever world
    that promise comes to run. *)
Lemma promiseAll_some_rejects {A B} (f : A -> M B) (P : World -> Prop) (l : list A)
    (x : A) (w : World) :
  x ∈ l -> P w ->
  (forall y w1, y ∈ l -> P w1 -> P (snd (f y w1))) ->
  (forall w1, P w1 -> is_resolved (fst (f x w1)) = false) ->
  is_resolved (fst (promiseAll (map f l) w)) = false.
Proof.
  revert w. induction l as [|a l IH]; intros w Hx Hw Hstable Hrej.
  - inversion Hx.
  - cbn. pose proof (Hstable a w ltac:(left) Hw) as Ha.
    destruct (f a w) as [r w1] eqn:Hfa. cbn [snd] in Ha.
    apply elem_of_cons in Hx as [->|Hx].
    + specialize (Hrej w Hw). rewrite Hfa in Hrej. cbn in Hrej.
      destruct (promiseAll (map f l) w1) as [rs w2].
      destruct r; [discriminate | reflexivity].
    + assert (Hrest : is_resolved (fst (promiseAll (map f l) w1)) = false).
      { apply IH; try assumption. intros y w2 Hy. apply Hstable. right. exact Hy. }
      destruct (promiseAll (map f l) w1) as [rs w2]. cbn in *.
      destruct r, rs; try reflexivity; discriminate.
Qed.

(** A transferred file whose applicable checksum differs from the digest of
    the provider's bytes is not returned. *)
Lemma ingestFile_mismatch_rejects (g : Granule.t) (sched : Granule.Schedule)
    (file : File) (b duplicateHandling body : string) (type value : jsval) (w : World) :
  (b, checkedKey g file) ∉ headFailures w ->
  skipsExisting g file b duplicateHandling w = false ->
  remote w !! remotePathOf file = Some body ->
  applicableChecksum g file (remote w) = Some (type, value) ->
  digest type body <> value ->
  is_resolved (fst (Granule.ingestFile g sched file b duplicateHandling w)) = false.
Proof.
  intros Hhead Hskip Hremote Happ Hneq.
  destruct (ingestFile_transfers g sched file b duplicateHandling body w Hhead Hskip Hremote)
    as (w3 & Ho3 & Hr3 & _ & _ & ->).
  rewrite <- Hr3 in Happ.
  destruct (getChecksumFromFile_applicable g file w3 type value Happ)
    as (Ht & Hv & w4 & Hget & Ho4).
  unfold afterTransfer, Granule.validateChecksum.
  unfold bind at 1. unfold bind at 1. rewrite Hget. cbn [fst snd].
  rewrite Ht, Hv. cbn [negb orb].
  unfold bind, checksumS3Objects. rewrite Ho4, Ho3, lookup_insert_eq.
  unfold strict_neq. rewrite bool_decide_eq_false_2 by congruence.
  reflexivity.
Qed.

(** X9, sidecar consumption from end to end: when a granule holds a data
    file without a checksum of its own together with an [.md5] sidecar of
    its name, the provider has both, and the sidecar's first word is not
    the md5 digest of the data file's bytes, [ingest] does not resolve
    (duplicates are not skipped and the existence checks answer), wherever
    the two files stand in the granule's file list. *)
Theorem ingest_sidecar_mismatch (g : Granule.t) (sched : File -> Granule.Schedule)
    (granule : GranuleRecord) (b : string) (w : World) (c : Collection)
    (data sidecar : File) (body text : string) :
  Granule.this_collection g = Some c ->
  Granule.this_duplicateHandling g <> "skip" ->
  headFailures w = ∅ ->
  data ∈ g_files granule ->
  isChecksumFile (name data) = false ->
  truthy (checksumType data) && truthy (checksumValue data) = false ->
  sidecarOf (g_files granule) (name data) = Some sidecar ->
  remote w !! remotePathOf data = Some body ->
  remote w !! remotePathOf sidecar = Some text ->
  first_token text <> "" ->
  digest (JSStr "md5") body <> JSStr (first_token text) ->
  is_resolved (fst (Granule.ingest g sched granule b w)) = false.
Proof.
  intros Hc Hdup Hhead Hdata Hnotside Hemb Hside Hbody Htext Htoken Hneq.
  unfold Granule.ingest. rewrite Hc. unfold bind at 1, ret at 1. cbv zeta.
  cbn [fst snd].
  match goal with
  | |- context [Granule.filterFiles ?g1 ?fs] =>
      pose proof (filterFiles_spec g1 fs) as (Hk & Hsc & _ & _ & Hd & _);
      destruct (Granule.filterFiles g1 fs) as [dataFiles g2]
  end.
  cbn [fst snd Granule.this_duplicateHandling Granule.this_checksumFiles] in *.
  specialize (Hsc (name data)). rewrite Hside in Hsc.
  assert (Hin : data ∈ dataFiles).
  { rewrite Hk. apply list_elem_of_In, List.filter_In.
    split; [apply list_elem_of_In, Hdata | rewrite Hnotside; reflexivity]. }
  assert (Hrej : is_resolved
            (fst (promiseAll
                    (map (fun f => Granule.ingestFile g2 (sched f) f b
                                     (Granule.this_duplicateHandling g2)) dataFiles) w))
          = false).
  { apply promiseAll_some_rejects with
      (P := fun w1 => remote w1 = remote w /\ headFailures w1 = headFailures w)
      (x := data); auto.
    - intros y w1 _ [Hr Hh].
      pose proof (framed_ingestFile
                    (mkFootprint (fun key => key = (b, stagedKey g2 y)) (fun _ => False)
                       (fun x => Granule.this_duplicateHandling g2 = "version"
                                 /\ bucket y = Some x)
                       (fun _ => False)
                       (ingestEvent b (Granule.this_duplicateHandling g2)))
                    g2 (sched y) y b (Granule.this_duplicateHandling g2)
                    eq_refl (fun x Hv Hb => conj Hv Hb) (fun e He => He) w1)
        as (_ & _ & _ & _ & _ & Hr1 & Hh1 & _).
      split; congruence.
    - intros w1 [Hr Hh].
      apply ingestFile_mismatch_rejects with (body := body) (type := JSStr "md5")
                                             (value := JSStr (first_token text)).
      + rewrite Hh, Hhead. apply not_elem_of_empty.
      + unfold skipsExisting. rewrite Hd.
        destruct (String.eqb_spec (Granule.this_duplicateHandling g) "skip");
          [contradiction | apply andb_false_r].
      + rewrite Hr. exact Hbody.
      + unfold applicableChecksum. rewrite Hemb, Hsc, Hr, Htext.
        destruct (String.eqb_spec (first_token text) ""); [contradiction | reflexivity].
      + exact Hneq. }
  unfold bind.
  destruct (promiseAll _ w) as [[files_|e] w1]; [discriminate | reflexivity].
Qed.

End SidecarEndToEnd.

Lemma ingest_sidecar_mismatch_witness :
  is_resolved (fst (Granule.ingest (Sample.ingestObject "replace") Sample.sched
                      Sample.granuleWithSidecar "internal-bucket" Sample.worldBadSidecar))
  = false.
Proof.
  refine (ingest_sidecar_mismatch (Sample.ingestObject "replace") Sample.sched
            Sample.granuleWithSidecar "internal-bucket" Sample.worldBadSidecar
            Sample.collection (Sample.listed "g1.txt" JSUndefined JSUndefined)
            (Sample.listed "g1.txt.md5" JSUndefined JSUndefined)
            "TEXT-1" "md5-of-OTHER g1.txt" _ _ _ _ _ _ _ _ _ _ _).
  - reflexivity.
  - discriminate.
  - reflexivity.
  - left.
  - vm_compute. reflexivity.
  - reflexivity.
  - vm_compute. reflexivity.
  - vm_compute. reflexivity.
  - vm_compute. reflexivity.
  - vm_compute. discriminate.
  - vm_compute. discriminate.
Defined.

(** ** The bucket and the [url_path] of a file *)

Section Helpers.
Context `{Runtime}.

(** [(a || b) || c] is [a || (b || c)]. *)
Lemma js_or_assoc (a b c : option string) : js_or (js_or a b) c = js_or a (js_or b c).
Proof.
  unfold js_or. destruct (truthy_str a) eqn:Ha; [rewrite Ha; reflexivity | reflexivity].
Qed.

(** X10: the deprecated [getBucket] of an ingest object and
    [setGranuleInfo] of a discovery object built on the same buckets and
    collection agree: where [setGranuleInfo] returns, [getBucket] returns
    the same file object but for [granuleId], with the same bucket and the
    same [url_path]. *)
Theorem getBucket_agrees_with_setGranuleInfo (d : Discover.t) (g : Granule.t)
    (file info : File) :
  Granule.this_collection g = Some (Discover.this_collection d) ->
  Granule.this_buckets g = Discover.this_buckets d ->
  Discover.setGranuleInfo d file = Resolved info ->
  exists located,
    Granule.getBucket g file = Resolved located
    /\ bucket located = bucket info
    /\ url_path located = url_path info
    /\ located = mkFile (name info) (path info) (checksumType info) (checksumValue info)
                        (granuleId file) (bucket info) (filename info) (filepath info)
                        (fileStagingDir info) (url_path info).
Proof.
  intros Hc Hb. unfold Discover.setGranuleInfo, Discover.fileTypeConfigForFile.
  destruct (str_match _ (name file)) as [m|]; [|discriminate].
  destruct (List.find _ _) as [rule|] eqn:Hfind; [|discriminate].
  destruct (Discover.this_buckets d !! rule_bucket rule) as [cfg|] eqn:Hcfg; [|discriminate].
  intros [= <-].
  unfold Granule.getBucket, Granule.addBucketToFile, Granule.addUrlPathToFile,
    Granule.findCollectionFileConfigForFile.
  rewrite Hc, Hfind, Hb, Hcfg. cbn. rewrite Hfind.
  eexists. split; [reflexivity|]. cbn. auto.
Qed.

(** X11: [addUrlPathToFile] takes the [url_path] of the first matching file
    definition where [getUrlPath] takes that of the last one that has a
    [url_path]; when at most one file definition of the collection matches
    the file's name both give the same [url_path], up to the empty string
    that [addUrlPathToFile] puts for a missing one. *)
Theorem addUrlPathToFile_single_definition (g : Granule.t) (c : Collection) (file : File) :
  Granule.this_collection g = Some c ->
  (forall d1 d2, d1 ∈ files c -> d2 ∈ files c ->
                 matches (regex d1) (name file) = true ->
                 matches (regex d2) (name file) = true -> d1 = d2) ->
  exists located,
    Granule.addUrlPathToFile g file = Resolved located
    /\ url_path located = js_or (Granule.getUrlPath c file) (Some "").
Proof.
  intros Hc Hone. unfold Granule.addUrlPathToFile. rewrite Hc.
  eexists. split; [reflexivity|]. cbn.
  rewrite getUrlPath_resolved.
  unfold Granule.findCollectionFileConfigForFile.
  destruct (List.find _ (files c)) as [rule|] eqn:Hfind.
  - apply List.find_some in Hfind as [Hin Hm].
    rewrite (resolvedUrlPath_single c file rule).
    + rewrite js_or_assoc. reflexivity.
    + apply list_elem_of_In, Hin.
    + exact Hm.
    + intros other Ho Hmo. apply Hone; try assumption. apply list_elem_of_In, Hin.
  - unfold resolvedUrlPath.
    assert (Hnone : List.filter (provides file) (files c) = []).
    { pose proof (List.find_none _ _ Hfind) as Hno.
      clear Hfind Hone. induction (files c) as [|r rest IH]; [reflexivity|].
      cbn. unfold provides at 1.
      rewrite (Hno r (or_introl eq_refl)). cbn.
      apply IH. intros x Hx. apply Hno. right. exact Hx. }
    rewrite Hnone. reflexivity.
Qed.

End Helpers.

Lemma getBucket_agrees_with_setGranuleInfo_witness :
  let file := Sample.listed "g1.hdf" JSUndefined JSUndefined in
  exists info located,
    Granule.getBucket (Sample.ingestObject "replace") file = Resolved located
    /\ bucket located = bucket info
    /\ url_path located = url_path info
    /\ located = mkFile (name info) (path info) (checksumType info) (checksumValue info)
                        (granuleId file) (bucket info) (filename info) (filepath info)
                        (fileStagingDir info) (url_path info).
Proof.
  eexists.
  eapply (getBucket_agrees_with_setGranuleInfo Sample.discoverObject
            (Sample.ingestObject "replace")
            (Sample.listed "g1.hdf" JSUndefined JSUndefined) _).
  - reflexivity.
  - reflexivity.
  - vm_compute. reflexivity.
Defined.

Lemma addUrlPathToFile_single_definition_witness :
  exists located,
    Granule.addUrlPathToFile (Sample.ingestObject "replace") Sample.otherFile
    = Resolved located
    /\ url_path located
       = js_or (Granule.getUrlPath Sample.collection Sample.otherFile) (Some "").
Proof.
  refine (addUrlPathToFile_single_definition (Sample.ingestObject "replace")
            Sample.collection Sample.otherFile _ _).
  - reflexivity.
  - intros d1 d2 H1 H2 M1 M2.
    repeat (apply elem_of_cons in H1 as [->|H1]); try (inversion H1);
      repeat (apply elem_of_cons in H2 as [->|H2]); try (inversion H2);
      try reflexivity; vm_compute in M1, M2; discriminate.
Defined.

(** ** [discover]: what it leaves alone and what it finds *)

Section GroupByPartition.
Context {A : Type}.

(** [groupBy] partitions its list: the groups hold the elements of the
    list, each once, and no group is empty. *)
Lemma groupBy_add_concat (k : string) (x : A) (groups : list (string * list A)) :
  concat (map snd (groupBy_add k x groups)) ≡ₚ x :: concat (map snd groups).
Proof.
  induction groups as [|[k' xs] rest IH]; cbn; [reflexivity|].
  destruct (String.eqb k k'); cbn.
  - rewrite <- app_assoc. cbn. symmetry. apply Permutation_middle.
  - rewrite IH. symmetry. apply Permutation_middle.
Qed.

Lemma groupBy_add_nonempty (k : string) (x : A) (groups : list (string * list A)) :
  Forall (fun group => snd group <> []) groups ->
  Forall (fun group => snd group <> []) (groupBy_add k x groups).
Proof.
  induction 1 as [|[k' xs] rest Hxs Hrest IH]; cbn.
  - repeat constructor. discriminate.
  - destruct (String.eqb k k'); constructor; try assumption.
    cbn. intros Hnil. apply app_eq_nil in Hnil as [_ Hnil]. discriminate.
Qed.

Variable key : A -> string.

Lemma groupBy_concat (l : list A) : concat (map snd (groupBy l key)) ≡ₚ l.
Proof.
  induction l as [|x l IH] using rev_ind; [reflexivity|].
  rewrite groupBy_snoc, groupBy_add_concat, IH.
  apply Permutation_cons_append.
Qed.

Lemma groupBy_nonempty (l : list A) :
  Forall (fun group => snd group <> []) (groupBy l key).
Proof.
  induction l as [|x l IH] using rev_ind; [constructor|].
  rewrite groupBy_snoc. apply groupBy_add_nonempty, IH.
Qed.

End GroupByPartition.

Section DiscoverMore.
Context `{Runtime}.

(** An existence check changes nothing. *)
Lemma framed_checkNew (file : File) : framed (readsOnly discoverEvent) (Discover.checkNew file).
Proof.
  unfold Discover.checkNew. destruct (bucket file) as [b|].
  - apply framed_bind; [apply framed_s3ObjectExists; exact I | intros; apply framed_ret].
  - apply framed_bind; [apply framed_tell; exact I | intros; apply framed_throw].
Qed.

(** X12: once the listing has been made, [discover] changes nothing: it
    writes and deletes no object, touches neither versioning nor leases, and
    makes no call but existence checks and the log of the exception it
    caught, whatever its outcome. *)
Theorem discover_footprint (g : Discover.t) (list_ : M (list File)) (w : World) :
  changesOnly (readsOnly discoverEvent) (snd (list_ w)) (snd (Discover.discover g list_ w)).
Proof.
  rewrite discover_unfold.
  assert (Hfirst : changesOnly (readsOnly discoverEvent) (snd (list_ w))
                     (snd (discoveredFiles g list_ w))).
  { unfold discoveredFiles, Discover.listDiscovered, bind, lift.
    destruct (list_ w) as [[listed|e] w0]; cbn [snd].
    - destruct (Discover.map_throwing _ _); cbn [snd];
        [apply changesOnly_refl | apply changesOnly_emit; exact I].
    - apply changesOnly_emit. exact I. }
  eapply changesOnly_trans; [exact Hfirst|].
  apply framed_bind; [|intros; apply framed_ret].
  apply framed_promiseAll, Forall_map, Forall_forall. intros file _.
  apply framed_checkNew.
Qed.

(** X13: the granules that [discover] resolves to hold, between them,
    exactly the new files, each once and without its [granuleId]; no granule
    is empty, and every granule carries the collection's [dataType] and
    [version]. *)
Theorem discover_conserves_new_files (g : Discover.t) (list_ : M (list File))
    (w w' : World) (grs : list GranuleRecord) :
  Discover.discover g list_ w = (Resolved grs, w') ->
  concat (map g_files grs)
  ≡ₚ map omit_granuleId (newFiles (objects (snd (discoveredFiles g list_ w)))
                                 (fst (discoveredFiles g list_ w)))
  /\ Forall (fun r => g_files r <> []
                      /\ g_dataType r = dataType (Discover.this_collection g)
                      /\ g_version r = version (Discover.this_collection g)) grs.
Proof.
  intros Hrun. apply discover_resolved_inv in Hrun. subst grs.
  unfold Discover.buildGranules.
  set (new := newFiles _ _).
  pose proof (groupBy_concat (fun file => js_string (granuleId file)) new) as Hperm.
  pose proof (groupBy_nonempty (fun file => js_string (granuleId file)) new) as Hne.
  revert Hperm Hne. generalize (groupBy new (fun file => js_string (granuleId file))).
  intros groups Hperm Hne. split.
  - rewrite <- Hperm. clear. induction groups as [|[k xs] rest IH]; cbn; [reflexivity|].
    rewrite map_app, IH. reflexivity.
  - clear Hperm. induction Hne as [|[k xs] rest Hxs _ IH]; cbn; constructor; auto.
    cbn. repeat split. intros Hnil. apply map_eq_nil in Hnil. contradiction.
Qed.

(** A [map] that did not throw has an image for every element. *)
Lemma map_throwing_elem {A B} (f : A -> outcome B) (l : list A) (ys : list B) :
  Discover.map_throwing f l = Resolved ys ->
  forall x, x ∈ l -> exists y, y ∈ ys /\ f x = Resolved y.
Proof.
  revert ys. induction l as [|a l IH]; intros ys; cbn.
  - intros _ x Hx. inversion Hx.
  - destruct (f a) as [y|e] eqn:Ha; [|discriminate].
    destruct (Discover.map_throwing f l) as [ys'|e]; [|discriminate].
    intros [= <-] x Hx. apply elem_of_cons in Hx as [->|Hx].
    + exists y. split; [left | exact Ha].
    + destruct (IH ys' eq_refl x Hx) as (y' & Hy' & Hfx).
      exists y'. split; [right; exact Hy' | exact Hfx].
Qed.

(** X14: for a discovery object that its constructor accepted, a listing
    that resolves and a store whose existence checks answer, [discover]
    resolves, and every listed file whose name the extraction pattern
    matches, that has a matching file definition and whose object is not
    yet in that definition's bucket, is in the granule of its id, with the
    bucket's name and the [url_path] of that definition, else of the
    collection, else the empty string. *)
Theorem discover_finds_new_files (buckets_ : gmap string BucketConfig) (c : Collection)
    (provider : Provider) (g : Discover.t) (list_ : M (list File)) (w w0 : World)
    (listed : list File) :
  Discover.construct buckets_ c provider = Resolved g ->
  list_ w = (Resolved listed, w0) ->
  headFailures w0 = ∅ ->
  exists grs w',
    Discover.discover g list_ w = (Resolved grs, w')
    /\ forall file rule cfg,
         file ∈ listed ->
         matches (granuleIdExtraction c) (name file) = true ->
         Discover.fileTypeConfigForFile g file = Some rule ->
         buckets_ !! rule_bucket rule = Some cfg ->
         objects w0 !! (bucket_name cfg, name file) = None ->
         exists r,
           r ∈ grs
           /\ g_granuleId r = js_string (extractedId g (name file))
           /\ mkFile (name file) (path file) (checksumType file) (checksumValue file)
                     None (Some (bucket_name cfg)) (filename file) (filepath file)
                     (fileStagingDir file)
                     (js_or (rule_url_path rule) (js_or (coll_url_path c) (Some "")))
              ∈ g_files r.
Proof.
  intros Hcons Hlist Hhead.
  destruct (listDiscovered_constructed buckets_ c provider g list_ w w0 listed Hcons Hlist)
    as (discovered & Hdisc).
  assert (Hg : g = Discover.mk buckets_ c provider).
  { revert Hcons. unfold Discover.construct. destruct (forallb _ _); congruence. }
  assert (Hfiles : discoveredFiles g list_ w = (discovered, w0)).
  { unfold discoveredFiles. rewrite Hdisc. reflexivity. }
  assert (Hchecks : forall file, file ∈ discovered ->
                                 checkFails (headFailures w0) file = false).
  { intros info Hinfo.
    destruct (listDiscovered_resolved g list_ w w0 discovered Hdisc) as (listed' & _ & Hall).
    destruct (Hall info Hinfo) as (file & _ & _ & _ & _ & [b Hb]).
    unfold checkFails. rewrite Hb, Hhead. apply bool_decide_eq_false_2.
    apply not_elem_of_empty. }
  destruct (promiseAll_checkNew_ok discovered w0 Hchecks) as (w' & Hall & Hobj).
  exists (Discover.buildGranules g (newFiles (objects w0) discovered)), w'.
  split.
  { rewrite discover_unfold, Hfiles. cbn [fst snd]. unfold bind. rewrite Hall.
    cbn. rewrite omap_checked. reflexivity. }
  intros file rule cfg Hin Hmatch Hrule Hbucket Hnew.
  assert (Hmap : Discover.map_throwing (Discover.setGranuleInfo g)
                   (List.filter (fun file => bool_decide (is_Some (Discover.fileTypeConfigForFile g file)))
                      (List.filter (fun file => matches (granuleIdExtraction (Discover.this_collection g)) (name file))
                         listed))
                 = Resolved discovered).
  { revert Hdisc. unfold Discover.listDiscovered, bind, lift. rewrite Hlist.
    intros [= ->]. reflexivity. }
  assert (Hkept : file ∈ List.filter (fun file => bool_decide (is_Some (Discover.fileTypeConfigForFile g file)))
                      (List.filter (fun file => matches (granuleIdExtraction (Discover.this_collection g)) (name file))
                         listed)).
  { apply list_elem_of_In, List.filter_In. split.
    - apply List.filter_In. split; [apply list_elem_of_In, Hin|].
      rewrite Hg. exact Hmatch.
    - apply bool_decide_eq_true_2. rewrite Hrule. eauto. }
  destruct (map_throwing_elem _ _ _ Hmap file Hkept) as (info & Hinfo & Hset).
  assert (Hinfo_eq : info = mkFile (name file) (path file) (checksumType file)
                              (checksumValue file) (extractedId g (name file))
                              (Some (bucket_name cfg)) (filename file) (filepath file)
                              (fileStagingDir file)
                              (js_or (rule_url_path rule)
                                     (js_or (coll_url_path c) (Some "")))).
  { revert Hset. unfold Discover.setGranuleInfo, extractedId.
    unfold matches in Hmatch. rewrite Hg in *. cbn [Discover.this_collection Discover.this_buckets] in *.
    destruct (str_match (granuleIdExtraction c) (name file)) as [m|]; [|discriminate].
    rewrite Hrule, Hbucket. cbn. congruence. }
  assert (Hnewfile : info ∈ newFiles (objects w0) discovered).
  { apply list_elem_of_In, List.filter_In. split; [apply list_elem_of_In, Hinfo|].
    unfold existsInStore. rewrite Hinfo_eq. cbn. rewrite Hnew. reflexivity. }
  destruct (groupBy_complete (fun file => js_string (granuleId file)) _ info Hnewfile)
    as (xs & Hgroup & Hxs).
  exists (mkGranuleRecord (js_string (granuleId info))
            (dataType (Discover.this_collection g)) (version (Discover.this_collection g))
            (map omit_granuleId xs)).
  split; [|split].
  - unfold Discover.buildGranules. apply list_elem_of_fmap.
    exists (js_string (granuleId info), xs). split; [reflexivity | exact Hgroup].
  - cbn. rewrite Hinfo_eq. reflexivity.
  - cbn. apply list_elem_of_fmap. exists info. split; [|exact Hxs].
    rewrite Hinfo_eq. reflexivity.
Qed.

End DiscoverMore.

Lemma discover_conserves_new_files_witness :
  let g := Sample.discoverObject in
  let list_ := ret Sample.listing in
  concat (map g_files Sample.discoveredGranules)
  ≡ₚ map omit_granuleId (newFiles (objects (snd (discoveredFiles g list_ Sample.world0)))
                                 (fst (discoveredFiles g list_ Sample.world0)))
  /\ Forall (fun r => g_files r <> []
                      /\ g_dataType r = dataType (Discover.this_collection g)
                      /\ g_version r = version (Discover.this_collection g))
            Sample.discoveredGranules.
Proof.
  eapply (discover_conserves_new_files Sample.discoverObject (ret Sample.listing)
            Sample.world0 _ Sample.discoveredGranules).
  vm_compute. reflexivity.
Defined.

Lemma discover_finds_new_files_witness :
  let g := Sample.discoverObject in
  exists grs w',
    Discover.discover g (ret Sample.listing) Sample.world0 = (Resolved grs, w')
    /\ forall file rule cfg,
         file ∈ Sample.listing ->
         matches (granuleIdExtraction Sample.collection) (name file) = true ->
         Discover.fileTypeConfigForFile g file = Some rule ->
         Sample.buckets !! rule_bucket rule = Some cfg ->
         objects Sample.world0 !! (bucket_name cfg, name file) = None ->
         exists r,
           r ∈ grs
           /\ g_granuleId r = js_string (extractedId g (name file))
           /\ mkFile (name file) (path file) (checksumType file) (checksumValue file)
                     None (Some (bucket_name cfg)) (filename file) (filepath file)
                     (fileStagingDir file)
                     (js_or (rule_url_path rule)
                            (js_or (coll_url_path Sample.collection) (Some "")))
              ∈ g_files r.
Proof.
  refine (discover_finds_new_files Sample.buckets Sample.collection Sample.provider
            Sample.discoverObject (ret Sample.listing) Sample.world0 Sample.world0
            Sample.listing _ _ _).
  - vm_compute. reflexivity.
  - reflexivity.
  - reflexivity.
Defined.

(** ** Moves and the metadata document *)

Section MovingMore.
Context `{Runtime} `{CmrRuntime}.

(** A move writes its target and deletes its source. *)
Lemma framed_moveGranuleFile (fp : Footprint) (sb sk tb tk : string) :
  objectKeys fp (sb, sk) -> objectKeys fp (tb, tk) -> deletedKeys fp (sb, sk) ->
  events fp (CopyObject sb sk tb tk) -> events fp (DeleteObject sb sk) ->
  events fp (LogError "Failed to copy") ->
  framed fp (Mover.moveGranuleFile sb sk tb tk).
Proof.
  intros Hs Ht Hd Hcopy Hdel Hlog. unfold Mover.moveGranuleFile.
  apply framed_bind.
  { intros w. unfold Mover.copyGranuleFile.
    destruct (objects w !! (sb, sk)); cbn [snd].
    - apply changesOnly_insert; assumption.
    - eapply changesOnly_trans; apply changesOnly_emit; assumption. }
  intros _. apply framed_bind; [apply framed_tell, Hdel|]. intros _ w.
  unfold modify. split_changes; cbn; auto.
  - intros key Hkey. apply lookup_delete_ne. intros <-. contradiction.
  - intros key Hkey Hsome. rewrite lookup_delete_ne; [exact Hsome|].
    intros <-. contradiction.
  - exists []. split; [symmetry; apply app_nil_r | constructor].
Qed.

(** Every request that was made is the request of a source file. *)
Lemma visit_elem (destinations : list Destination) (sourceFiles : list File)
    (file : File) (req : Mover.Request) :
  (file, req) ∈ fst (Mover.visit destinations sourceFiles) ->
  file ∈ sourceFiles /\ req = Mover.request destinations file.
Proof.
  induction sourceFiles as [|f rest IH]; cbn.
  - intros Hin. inversion Hin.
  - destruct (Mover.request destinations f) eqn:Hreq.
    + cbn. intros Hin. inversion Hin.
    + destruct (Mover.visit destinations rest) as [visited thrown]. cbn in *.
      intros Hin. apply elem_of_cons in Hin as [[= -> ->]|Hin].
      * split; [left | symmetry; exact Hreq].
      * destruct (IH Hin) as [Hf Hr]. split; [right; exact Hf | exact Hr].
    + destruct (Mover.visit destinations rest) as [visited thrown]. cbn in *.
      intros Hin. apply elem_of_cons in Hin as [[= -> ->]|Hin].
      * split; [left | symmetry; exact Hreq].
      * destruct (IH Hin) as [Hf Hr]. split; [right; exact Hf | exact Hr].
Qed.

(** The requests carried out stay within a footprint that permits each of
    their moves. *)
Lemma perform_footprint (fp : Footprint) (requests : list (File * Mover.Request))
    (w : World) :
  (forall file sb sk tb tk, (file, Mover.Moves sb sk tb tk) ∈ requests ->
     framed fp (Mover.moveGranuleFile sb sk tb tk)) ->
  changesOnly fp w (snd (Mover.perform requests w)).
Proof.
  revert w. induction requests as [|[file req] rest IH]; intros w Hmoves; cbn.
  - apply changesOnly_refl.
  - assert (Hone : changesOnly fp w (snd (Mover.performOne file req w))).
    { destruct req as [e|k|sb sk tb tk]; cbn; try apply changesOnly_refl.
      pose proof (Hmoves file sb sk tb tk ltac:(left) w) as Hm.
      destruct (Mover.moveGranuleFile sb sk tb tk w) as [[u|e] w1]; exact Hm. }
    destruct (Mover.performOne file req w) as [[r1 file'] w1]. cbn [snd] in Hone.
    assert (Hrest : changesOnly fp w1 (snd (Mover.perform rest w1))).
    { apply IH. intros f sb sk tb tk Hin. eapply Hmoves. right. exact Hin. }
    destruct (Mover.perform rest w1) as [[r rest'] w']. cbn [snd] in *.
    eapply changesOnly_trans; eassumption.
Qed.

(** X15: whatever their outcome, the moves of [moveGranuleFiles] write only
    keys that are the source or the target of a requested move, delete only
    sources, and make no call but the copies, the deletes and the log of a
    failed copy; versioning, leases and the provider's files are left
    alone. *)
Theorem moveFileRequests_footprint (destinations : list Destination)
    (sourceFiles : list File) (w : World) :
  changesOnly (moveFootprint (moveSources destinations sourceFiles)
                             (moveTargets destinations sourceFiles))
              w (snd (Mover.moveFileRequests destinations sourceFiles w)).
Proof.
  unfold Mover.moveFileRequests.
  pose proof (visit_elem destinations sourceFiles) as Helem.
  destruct (Mover.visit destinations sourceFiles) as [visited thrown]. cbn [fst] in Helem.
  pose proof (perform_footprint
                (moveFootprint (moveSources destinations sourceFiles)
                               (moveTargets destinations sourceFiles)) visited w) as Hp.
  destruct (Mover.perform visited w) as [[r files_] w']. cbn [snd] in *.
  apply Hp. intros file sb sk tb tk Hin.
  destruct (Helem _ _ Hin) as [Hfile Hreq].
  assert (Hs : (sb, sk) ∈ moveSources destinations sourceFiles).
  { unfold moveSources. apply list_elem_of_omap. exists file.
    split; [exact Hfile|]. rewrite <- Hreq. reflexivity. }
  assert (Ht : (tb, tk) ∈ moveTargets destinations sourceFiles).
  { unfold moveTargets. apply list_elem_of_omap. exists file.
    split; [exact Hfile|]. rewrite <- Hreq. reflexivity. }
  apply framed_moveGranuleFile; cbn; auto.
Qed.

End MovingMore.

Section AccessUrls.
Context `{Runtime} `{CmrRuntime}.

(** The [forEach] of [contructOnlineAccessUrls], when it does not throw. *)
Lemma onlineAccessUrls_resolved (bucketsObject : list (string * BucketConfig))
    (distEndpoint : string) (files_ : list File) (found : list (option OnlineAccessUrl)) :
  Discover.map_throwing (Mover.onlineAccessUrl bucketsObject distEndpoint) files_
  = Resolved found ->
  (forall file, file ∈ files_ ->
     exists key cfg, (key, cfg) ∈ bucketsObject /\ bucket file = Some (bucket_name cfg))
  /\ length (omap id found) = length (List.filter (distributed bucketsObject) files_)
  /\ Forall (fun url => URLDescription url = "File to download") (omap id found).
Proof.
  revert found. induction files_ as [|file rest IH]; intros found; cbn.
  - intros [= <-]. cbn. repeat split; [|constructor]. intros file Hin. inversion Hin.
  - unfold Mover.onlineAccessUrl at 1, distributed at 1.
    destruct (List.find _ bucketsObject) as [[key cfg]|] eqn:Hfind; [|discriminate].
    apply List.find_some in Hfind as [Hin Hname]. apply bool_decide_eq_true_1 in Hname.
    cbn [snd] in Hname.
    destruct (Discover.map_throwing _ rest) as [found'|e]; [|
      destruct (String.eqb (bucket_type cfg) "protected");
      [discriminate | destruct (String.eqb (bucket_type cfg) "public"); discriminate]].
    destruct (IH found' eq_refl) as (Hall & Hlen & Hdesc).
    assert (Hfiles : forall f, f ∈ file :: rest ->
              exists key cfg, (key, cfg) ∈ bucketsObject
                              /\ bucket f = Some (bucket_name cfg)).
    { intros f Hf. apply elem_of_cons in Hf as [->|Hf]; [|apply Hall, Hf].
      exists key, cfg. split; [apply list_elem_of_In, Hin | exact Hname]. }
    destruct (String.eqb (bucket_type cfg) "protected");
      [|destruct (String.eqb (bucket_type cfg) "public")];
      intros [= <-]; cbn; (split; [exact Hfiles|]); split;
      first [ exact Hlen | f_equal; exact Hlen | exact Hdesc
            | constructor; [reflexivity | exact Hdesc] ].
Qed.

(** X16: when [contructOnlineAccessUrls] resolves, the buckets document was
    read and parsed, the bucket of every file is the name of one of its
    entries, and there is one URL for each file of a protected or public
    bucket, described as a file to download; so a file in a bucket that the
    document does not list makes the call reject. *)
Theorem contructOnlineAccessUrls_resolved (files_ : list File) (distEndpoint : string)
    (urls : list OnlineAccessUrl) (w w' : World) :
  Mover.contructOnlineAccessUrls files_ distEndpoint w = (Resolved urls, w') ->
  exists bucketsString bucketsObject,
    objects w !! (env_bucket, env_stackName +:+ "/workflows/buckets.json")
    = Some bucketsString
    /\ parseBucketsJson bucketsString = Resolved bucketsObject
    /\ (forall file, file ∈ files_ ->
          exists key cfg, (key, cfg) ∈ bucketsObject
                          /\ bucket file = Some (bucket_name cfg))
    /\ length urls = length (List.filter (distributed bucketsObject) files_)
    /\ Forall (fun url => URLDescription url = "File to download") urls.
Proof.
  unfold Mover.contructOnlineAccessUrls, bind, Mover.getS3Object, lift, ret.
  destruct (objects w !! (env_bucket, env_stackName +:+ "/workflows/buckets.json"))
    as [bucketsString|]; [|discriminate].
  destruct (parseBucketsJson bucketsString) as [bucketsObject|] eqn:Hparse; [|discriminate].
  destruct (Discover.map_throwing _ files_) as [found|] eqn:Hmap; [|discriminate].
  intros [= <- <-]. exists bucketsString, bucketsObject.
  split; [reflexivity|]. split; [exact Hparse|].
  apply onlineAccessUrls_resolved in Hmap. exact Hmap.
Qed.

End AccessUrls.

Lemma contructOnlineAccessUrls_resolved_witness :
  exists urls bucketsString bucketsObject,
    objects Sample.worldMove !! (env_bucket, env_stackName +:+ "/workflows/buckets.json")
    = Some bucketsString
    /\ parseBucketsJson bucketsString = Resolved bucketsObject
    /\ (forall file, file ∈ Sample.stagedFilesOneCmr ->
          exists key cfg, (key, cfg) ∈ bucketsObject
                          /\ bucket file = Some (bucket_name cfg))
    /\ length urls = length (List.filter (distributed bucketsObject) Sample.stagedFilesOneCmr)
    /\ Forall (fun url => URLDescription url = "File to download") urls.
Proof.
  eexists.
  eapply (contructOnlineAccessUrls_resolved Sample.stagedFilesOneCmr "https://dist" _
            Sample.worldMove _).
  vm_compute. reflexivity.
Defined.

Section MetadataMore.
Context `{Runtime} `{CmrRuntime}.

(** The steps of [updateMetadata] before the write only read and, when the
    granule is published, call the catalog. *)
Lemma framed_getS3Object (fp : Footprint) (b k : string) :
  events fp (GetObject b k) -> framed fp (Mover.getS3Object b k).
Proof.
  intros He w. unfold Mover.getS3Object.
  destruct (objects w !! (b, k)); apply changesOnly_emit, He.
Qed.

Lemma framed_getMetadata (fp : Footprint) (xmlFilePath : option string) :
  (forall b k, events fp (GetObject b k)) -> framed fp (Mover.getMetadata xmlFilePath).
Proof.
  intros He. unfold Mover.getMetadata.
  destruct xmlFilePath as [uri|]; [|apply framed_throw].
  destruct (negb (truthy_str (Some uri))); [apply framed_throw|].
  destruct (str_match _ uri) as [parts|]; [|apply framed_throw].
  destruct (capture parts 1), (capture parts 2); try apply framed_throw.
  apply framed_getS3Object, He.
Qed.

Lemma framed_contructOnlineAccessUrls (fp : Footprint) (files_ : list File)
    (distEndpoint : string) :
  (forall b k, events fp (GetObject b k)) ->
  framed fp (Mover.contructOnlineAccessUrls files_ distEndpoint).
Proof.
  intros He. unfold Mover.contructOnlineAccessUrls.
  apply framed_bind; [apply framed_getS3Object, He|]. intros bucketsString.
  apply framed_bind; [apply framed_lift|]. intros bucketsObject.
  apply framed_bind; [apply framed_lift|]. intros urls. apply framed_ret.
Qed.

Lemma framed_publish (fp : Footprint) (cmrFile : File) (xml granuleId_ : string)
    (published : bool) :
  (published = true -> forall n, events fp (Publish n)) ->
  framed fp (if published then
               exec tell (Publish (js_string (filename cmrFile))) in
               lift (publishToCmr xml granuleId_)
             else ret tt).
Proof.
  intros He. destruct published; [|apply framed_ret].
  apply framed_bind; [apply framed_tell, He; reflexivity | intros; apply framed_lift].
Qed.

(** X17: whatever its outcome, [updateMetadata] writes no object but the
    one that the metadata file's [bucket] and [filepath] name, and deletes
    none; it reads the store, and it calls the catalog only when
    [published] is set. *)
Theorem updateMetadata_footprint (granuleId_ : string) (cmrFile : File)
    (files_ : list File) (distEndpoint : string) (published : bool) (w : World) :
  changesOnly (metadataFootprint cmrFile published) w
    (snd (Mover.updateMetadata granuleId_ cmrFile files_ distEndpoint published w)).
Proof.
  unfold Mover.updateMetadata.
  apply framed_bind; [apply framed_contructOnlineAccessUrls; intros; left; exact I|].
  intros urls.
  apply framed_bind; [apply framed_getMetadata; intros; left; exact I|].
  intros metadata. apply framed_bind; [apply framed_lift|]. intros xml.
  apply framed_bind; [apply framed_publish; intros Hp n; left; exact Hp|]. intros _.
  unfold Mover.postS3Object.
  destruct (bucket cmrFile) as [b|] eqn:Hb; [|apply framed_throw].
  destruct (filepath cmrFile) as [k|] eqn:Hk; [|apply framed_throw].
  intros w1. unfold bind, tell, modify. cbn [snd].
  apply changesOnly_insert; cbn; [auto|]. right. exists b, k. auto.
Qed.

(** A rejected sequence has stayed within a footprint when its first step
    always does and its second step does whenever it rejects. *)
Lemma rejected_bind (fp : Footprint) {A B} (m : M A) (k : A -> M B) :
  framed fp m ->
  (forall a w e, fst (k a w) = Rejected e -> changesOnly fp w (snd (k a w))) ->
  forall w e, fst (bind m k w) = Rejected e -> changesOnly fp w (snd (bind m k w)).
Proof.
  intros Hm Hk w e. unfold bind. specialize (Hm w).
  destruct (m w) as [[a|e1] w1]; cbn [fst snd] in *; [|intros _; exact Hm].
  intros Hrej. eapply changesOnly_trans; [exact Hm | eapply Hk, Hrej].
Qed.

(** A rejected [updateMetadata] has only read. *)
Lemma updateMetadata_rejected_reads (granuleId_ : string) (cmrFile : File)
    (files_ : list File) (distEndpoint : string) (published : bool) (w : World)
    (e : error) :
  fst (Mover.updateMetadata granuleId_ cmrFile files_ distEndpoint published w)
  = Rejected e ->
  changesOnly (readsOnly (metadataReadEvent published)) w
    (snd (Mover.updateMetadata granuleId_ cmrFile files_ distEndpoint published w)).
Proof.
  revert w e. unfold Mover.updateMetadata.
  apply rejected_bind; [apply framed_contructOnlineAccessUrls; intros; exact I|].
  intros urls.
  apply rejected_bind; [apply framed_getMetadata; intros; exact I|].
  intros metadata. apply rejected_bind; [apply framed_lift|]. intros xml.
  apply rejected_bind; [apply framed_publish; intros Hp n; exact Hp|]. intros _ w e.
  unfold Mover.postS3Object.
  destruct (bucket cmrFile) as [b|]; [destruct (filepath cmrFile) as [k|]|];
    cbn; try discriminate; intros _; apply changesOnly_refl.
Qed.

(** X18: the document is written last: when [updateMetadata] rejects it
    has only read, and the store is as before. *)
Theorem updateMetadata_rejected_writes_nothing (granuleId_ : string) (cmrFile : File)
    (files_ : list File) (distEndpoint : string) (published : bool) (w : World)
    (e : error) :
  fst (Mover.updateMetadata granuleId_ cmrFile files_ distEndpoint published w)
  = Rejected e ->
  changesOnly (readsOnly (metadataReadEvent published)) w
    (snd (Mover.updateMetadata granuleId_ cmrFile files_ distEndpoint published w))
  /\ objects (snd (Mover.updateMetadata granuleId_ cmrFile files_ distEndpoint published w))
     = objects w.
Proof.
  intros Hrej. pose proof (updateMetadata_rejected_reads _ _ _ _ _ _ _ Hrej) as Hread.
  split; [exact Hread|]. destruct Hread as (Ho & _).
  apply map_eq. intros key. apply Ho. cbn. tauto.
Qed.

(** X19: a failure of the catalog is not swallowed: when [published] is
    set and the catalog refuses every document, [updateMetadata] does not
    resolve and the store is as before. *)
Theorem updateMetadata_publish_failure (granuleId_ : string) (cmrFile : File)
    (files_ : list File) (distEndpoint : string) (w : World) :
  (forall xml id, is_resolved (publishToCmr xml id) = false) ->
  let run := Mover.updateMetadata granuleId_ cmrFile files_ distEndpoint true w in
  is_resolved (fst run) = false /\ objects (snd run) = objects w.
Proof.
  intros Hdown. cbv zeta.
  assert (Hrej : is_resolved
            (fst (Mover.updateMetadata granuleId_ cmrFile files_ distEndpoint true w))
          = false).
  { unfold Mover.updateMetadata. unfold bind at 1.
    destruct (Mover.contructOnlineAccessUrls files_ distEndpoint w) as [[urls|e1] w1];
      [|reflexivity].
    unfold bind at 1.
    destruct (Mover.getMetadata (filename cmrFile) w1) as [[metadata|e2] w2];
      [|reflexivity].
    unfold bind at 1, lift at 1.
    destruct (rewriteMetadata metadata urls) as [xml|e3]; [|reflexivity].
    unfold bind, tell, lift. specialize (Hdown xml granuleId_).
    destruct (publishToCmr xml granuleId_); [discriminate | reflexivity]. }
  split; [exact Hrej|].
  destruct (fst (Mover.updateMetadata granuleId_ cmrFile files_ distEndpoint true w))
    as [u|e] eqn:Hfst; [discriminate|].
  pose proof (updateMetadata_rejected_reads _ _ _ _ _ _ _ Hfst) as (Ho & _).
  apply map_eq. intros key. apply Ho. cbn. tauto.
Qed.

End MetadataMore.

Lemma updateMetadata_rejected_writes_nothing_witness :
  let cmrFile := Sample.listed "g1.cmr.xml" JSUndefined JSUndefined in
  let run := Mover.updateMetadata "g1" cmrFile [] "https://dist" true Sample.worldMove in
  changesOnly (readsOnly (metadataReadEvent true)) Sample.worldMove (snd run)
  /\ objects (snd run) = objects Sample.worldMove.
Proof.
  eapply (updateMetadata_rejected_writes_nothing "g1"
            (Sample.listed "g1.cmr.xml" JSUndefined JSUndefined) [] "https://dist" true
            Sample.worldMove _).
  vm_compute. reflexivity.
Defined.

Lemma updateMetadata_publish_failure_witness :
  let cmrFile := Sample.stagedFile "g1.cmr.xml" "public-bucket" (Some "staged/g1.cmr.xml") in
  let run := @Mover.updateMetadata Sample.runtime Sample.cmrRuntimeDown "g1" cmrFile
               Sample.stagedFilesOneCmr "https://dist" true Sample.worldMove in
  is_resolved (fst run) = false /\ objects (snd run) = objects Sample.worldMove.
Proof.
  refine (@updateMetadata_publish_failure Sample.runtime Sample.cmrRuntimeDown "g1"
            (Sample.stagedFile "g1.cmr.xml" "public-bucket" (Some "staged/g1.cmr.xml"))
            Sample.stagedFilesOneCmr "https://dist" Sample.worldMove _).
  intros xml id. reflexivity.
Defined.

(** ** The [sync-granule] task *)

Section TaskFootprint.
Context `{Runtime}.
Variable sched : File -> Granule.Schedule.


(** The calls to the lock change the lease they name and no other. *)
Lemma framed_proceed (fp : Footprint) (b : string) (provider : Provider) (id : string) :
  leases fp (provider_id provider, id) ->
  events fp (LockProceed (provider_id provider) id) ->
  framed fp (Lock.proceed b provider id).
Proof.
  intros Hl He w. unfold Lock.proceed. case_bool_decide; [apply changesOnly_emit, He|].
  split_changes; cbn; auto.
  - intros l Hnl. rewrite elem_of_union, elem_of_singleton.
    split; [intros [->|Hin]; [contradiction | exact Hin] | auto].
  - exists [LockProceed (provider_id provider) id].
    split; [reflexivity | repeat constructor; exact He].
Qed.

Lemma changesOnly_release (fp : Footprint) (providerId id : string) (w : World) :
  leases fp (providerId, id) ->
  events fp (LockRemove providerId id) ->
  changesOnly fp w (set_locks (fun l => l ∖ {[ (providerId, id) ]})
                              (emit (LockRemove providerId id) w)).
Proof.
  intros Hl He. split_changes; cbn; auto.
  - intros l Hnl. rewrite elem_of_difference, elem_of_singleton.
    split; [tauto|]. intros Hin. split; [exact Hin|]. intros ->. contradiction.
  - exists [LockRemove providerId id].
    split; [reflexivity | repeat constructor; exact He].
Qed.

Lemma framed_removeLock (fp : Footprint) (b providerId id : string) :
  leases fp (providerId, id) ->
  events fp (LockRemove providerId id) ->
  framed fp (Lock.removeLock b providerId id).
Proof. intros Hl He w. apply changesOnly_release; assumption. Qed.

(** The loop of [download], and [download], over the [ingest] method of the
    [Granule] class: the ingest object keeps its [duplicateHandling]. *)
Lemma framed_download_loop (b duplicateHandling : string) (provider : Provider)
    (all granules : list GranuleRecord) (ingest : Granule.t)
    (updatedGranules : list GranuleRecord) :
  Granule.this_duplicateHandling ingest = duplicateHandling ->
  (forall g, g ∈ granules -> g ∈ all) ->
  framed (ingestFootprint b duplicateHandling all
            (fun l => fst l = provider_id provider)
            (lockOrLogEvent (provider_id provider)))
         (SyncGranule.download_loop (fun g granule b => Granule.ingest g sched granule b) ingest b provider granules updatedGranules).
Proof.
  revert ingest updatedGranules.
  induction granules as [|g rest IH]; intros ingest updatedGranules Hdup Hall w.
  - apply changesOnly_refl.
  - rewrite download_loop_cons.
    assert (Hg : g ∈ all) by (apply Hall; left).
    pose proof (framed_ingest ingest sched g b all
                  (fun l => fst l = provider_id provider)
                  (lockOrLogEvent (provider_id provider)) Hg w) as Hstep.
    rewrite Hdup in Hstep.
    destruct (Granule.ingest ingest sched g b w) as [[[g' r]|e] w1] eqn:Hrun;
      cbn [fst snd] in *.
    + eapply changesOnly_trans; [exact Hstep|].
      apply IH.
      * apply ingest_resolved_inv in Hrun as (_ & _ & Hd & _). congruence.
      * intros g1 Hg1. apply Hall. right. exact Hg1.
    + eapply changesOnly_trans; [exact Hstep|].
      eapply changesOnly_trans; [|apply changesOnly_emit; right; exact I].
      apply changesOnly_release; [reflexivity | right; reflexivity].
Qed.

Lemma framed_task_download (b : string) (provider : Provider)
    (granules : list GranuleRecord) (ingest : Granule.t) :
  framed (ingestFootprint b (Granule.this_duplicateHandling ingest) granules
            (fun l => fst l = provider_id provider)
            (lockOrLogEvent (provider_id provider)))
         (SyncGranule.download (fun g granule b => Granule.ingest g sched granule b) ingest b provider granules).
Proof.
  intros w. destruct granules as [|g0 rest]; [apply changesOnly_refl|].
  rewrite download_cons. cbv zeta.
  case_bool_decide; cbn [snd].
  { eapply changesOnly_trans; apply changesOnly_emit; right; [reflexivity | exact I]. }
  pose proof (framed_download_loop b (Granule.this_duplicateHandling ingest) provider
                (g0 :: rest) (g0 :: rest) ingest [] eq_refl (fun g Hg => Hg)
                (set_locks (union {[ (provider_id provider, g_granuleId g0) ]})
                   (emit (LockProceed (provider_id provider) (g_granuleId g0)) w)))
    as Hloop.
  assert (Htake : changesOnly
            (ingestFootprint b (Granule.this_duplicateHandling ingest) (g0 :: rest)
               (fun l => fst l = provider_id provider)
            (lockOrLogEvent (provider_id provider)))
            w (set_locks (union {[ (provider_id provider, g_granuleId g0) ]})
                 (emit (LockProceed (provider_id provider) (g_granuleId g0)) w))).
  { pose proof (framed_proceed
                  (ingestFootprint b (Granule.this_duplicateHandling ingest) (g0 :: rest)
                     (fun l => fst l = provider_id provider)
            (lockOrLogEvent (provider_id provider)))
                  b provider (g_granuleId g0) eq_refl (or_intror eq_refl) w) as Hp.
    unfold Lock.proceed in Hp. rewrite bool_decide_eq_false_2 in Hp by assumption.
    exact Hp. }
  destruct (SyncGranule.download_loop _ _ _ _ _ _ _) as [[out|e] w1]; cbn [fst snd] in *.
  - eapply changesOnly_trans; [exact Htake|].
    eapply changesOnly_trans; [exact Hloop|].
    apply changesOnly_release; [reflexivity | right; reflexivity].
  - eapply changesOnly_trans; [exact Htake | exact Hloop].
Qed.

(** The loop pushes one granule per input granule, under the same id. *)
Lemma download_loop_ids (b : string) (provider : Provider) (granules : list GranuleRecord)
    (ingest : Granule.t) (updatedGranules out : list GranuleRecord) (w w' : World) :
  SyncGranule.download_loop (fun g granule b => Granule.ingest g sched granule b) ingest b provider granules updatedGranules w
  = (Resolved out, w') ->
  map g_granuleId out
  = (map g_granuleId updatedGranules ++ map g_granuleId granules)%list.
Proof.
  revert ingest updatedGranules w.
  induction granules as [|g rest IH]; intros ingest updatedGranules w.
  - cbn. intros [= <- <-]. rewrite app_nil_r. reflexivity.
  - rewrite download_loop_cons.
    destruct (Granule.ingest ingest sched g b w) as [[[g' r]|e] w1] eqn:Hrun;
      [|discriminate].
    cbn [fst snd]. intros Hloop. apply IH in Hloop. rewrite Hloop.
    apply ingest_resolved_inv in Hrun as (Hid & _).
    rewrite map_app, <- app_assoc. cbn. rewrite Hid. reflexivity.
Qed.

Lemma download_ids (b : string) (provider : Provider) (granules : list GranuleRecord)
    (ingest : Granule.t) (out : list GranuleRecord) (w w' : World) :
  SyncGranule.download (fun g granule b => Granule.ingest g sched granule b) ingest b provider granules w = (Resolved out, w') ->
  map g_granuleId out = map g_granuleId granules.
Proof.
  destruct granules as [|g0 rest]; [discriminate|].
  rewrite download_cons. cbv zeta. case_bool_decide; [discriminate|].
  destruct (SyncGranule.download_loop _ _ _ _ _ _ _) as [[out'|e] w1] eqn:Hloop;
    [|discriminate].
  intros [= <- <-]. apply download_loop_ids in Hloop. exact Hloop.
Qed.

Variable toString : error -> string.
Variable timedOut : error -> bool.

(** X20: whatever its outcome, a run of the task writes only objects of
    [config.downloadBucket] and deletes none; it switches versioning on only
    when the duplicate handling it resolved ([config]'s, else the
    collection's, else ['replace']) is ['version'], and only for buckets
    that the granules' files name; it changes no lease but its provider's;
    and besides the calls of [ingest] it only calls the lock for its
    provider and logs.  Without a provider it does nothing but log
    [Provider info not provided] and reject with [ProviderNotFound]; with a
    provider whose protocol [selector] does not support it rejects with
    [selector]'s error and does nothing at all. *)
Theorem syncGranule_footprint (config : SyncGranule.Config) (granules : list GranuleRecord)
    (w : World) :
  changesOnly
    (ingestFootprint (SyncGranule.cfg_downloadBucket config)
       (default "replace" (SyncGranule.duplicateHandlingOf config)) granules
       (fun l => exists provider,
                   SyncGranule.cfg_provider config = Some provider
                   /\ fst l = provider_id provider)
       (fun e => match SyncGranule.cfg_provider config with
                 | Some provider => lockOrLogEvent (provider_id provider) e
                 | None => e = LogError "Provider info not provided"
                 end))
    w (snd (SyncGranule.syncGranule sched toString timedOut config granules w))
  /\ (SyncGranule.cfg_provider config = None ->
      SyncGranule.syncGranule sched toString timedOut config granules w
      = (SyncGranule.Failed (SyncGranule.ProviderNotFound "Provider info not provided"),
         emit (LogError "Provider info not provided") w))
  /\ (forall provider e,
        SyncGranule.cfg_provider config = Some provider ->
        Granule.selector "ingest" (protocol provider) = Rejected e ->
        SyncGranule.syncGranule sched toString timedOut config granules w
        = (SyncGranule.Failed (SyncGranule.Raised e), w)).
Proof.
  split; [|split].
  2: { intros Hnone. unfold SyncGranule.syncGranule. rewrite Hnone. reflexivity. }
  2: { intros provider e Hsome Hsel. unfold SyncGranule.syncGranule.
       rewrite Hsome, Hsel. reflexivity. }
  unfold SyncGranule.syncGranule.
  destruct (SyncGranule.cfg_provider config) as [provider|];
    [|apply changesOnly_emit; right; reflexivity].
  destruct (Granule.selector "ingest" (protocol provider)); [|apply changesOnly_refl].
  pose proof (framed_task_download (SyncGranule.cfg_downloadBucket config) provider granules
                (SyncGranule.ingestObjectOf config provider) w) as Hrun.
  cbn [SyncGranule.ingestObjectOf Granule.construct Granule.this_duplicateHandling] in Hrun.
  assert (Hweak : changesOnly
            (ingestFootprint (SyncGranule.cfg_downloadBucket config)
               (default "replace" (SyncGranule.duplicateHandlingOf config)) granules
               (fun l => exists p, Some provider = Some p /\ fst l = provider_id p)
               (lockOrLogEvent (provider_id provider)))
            w (snd (SyncGranule.download (fun g granule b => Granule.ingest g sched granule b)
                      (SyncGranule.ingestObjectOf config provider)
                      (SyncGranule.cfg_downloadBucket config) provider granules w))).
  { eapply changesOnly_weaken; [| | | | |exact Hrun]; cbn; eauto. }
  destruct (SyncGranule.download _ _ _ _ _ _) as [[out|e] w1]; cbn [snd] in *;
    [exact Hweak|].
  eapply changesOnly_trans; [exact Hweak | apply changesOnly_emit].
  right. unfold SyncGranule.logTaskError.
  destruct (SyncGranule.errorToThrow toString timedOut e); exact I.
Qed.

(** X21: when the task resolves, it had a provider with a supported
    protocol, and its output holds one granule per input granule, in order
    and with the same ids, the [pdr] of the configuration, and a [process]
    only when the collection has a non-empty one. *)
Theorem syncGranule_output (config : SyncGranule.Config) (granules : list GranuleRecord)
    (output : SyncGranule.Output) (w w' : World) :
  SyncGranule.syncGranule sched toString timedOut config granules w
  = (SyncGranule.Returned output, w') ->
  map g_granuleId (SyncGranule.out_granules output) = map g_granuleId granules
  /\ SyncGranule.out_pdr output = SyncGranule.cfg_pdr config
  /\ (forall process, SyncGranule.out_process output = Some process ->
        process <> "" /\ SyncGranule.cfg_collection_process config = Some process)
  /\ exists provider, SyncGranule.cfg_provider config = Some provider
       /\ is_resolved (Granule.selector "ingest" (protocol provider)) = true.
Proof.
  unfold SyncGranule.syncGranule.
  destruct (SyncGranule.cfg_provider config) as [provider|]; [|discriminate].
  destruct (Granule.selector "ingest" (protocol provider)) eqn:Hsel; [|discriminate].
  destruct (SyncGranule.download _ _ _ _ _ _) as [[out|e] w1] eqn:Hrun; [|discriminate].
  intros [= <- <-].
  cbn [SyncGranule.out_granules SyncGranule.out_pdr SyncGranule.out_process].
  apply download_ids in Hrun.
  split; [exact Hrun|]. split; [reflexivity|].
  split; [|exists provider; rewrite Hsel; split; reflexivity].
  intros process.
  destruct (bool_decide _ && truthy_str _) eqn:Hp; [|discriminate].
  intros Hproc. apply andb_true_iff in Hp as [_ Hp]. rewrite Hproc in Hp.
  cbn in Hp. split; [|exact Hproc]. intros ->. discriminate.
Qed.

(** X22: a task that finds the lease of its first granule free leaves the
    leases as it found them when it resolves, and also when it fails on an
    input of a single granule. *)
Theorem syncGranule_lease (config : SyncGranule.Config) (provider : Provider)
    (g0 : GranuleRecord) (rest : list GranuleRecord) (w : World) :
  SyncGranule.cfg_provider config = Some provider ->
  (provider_id provider, g_granuleId g0) ∉ locks w ->
  let run := SyncGranule.syncGranule sched toString timedOut config (g0 :: rest) w in
  (exists output, fst run = SyncGranule.Returned output) \/ rest = [] ->
  locks (snd run) = locks w.
Proof.
  intros Hprov Hfree. cbv zeta. unfold SyncGranule.syncGranule. rewrite Hprov.
  destruct (Granule.selector "ingest" (protocol provider)); [|cbn; reflexivity].
  pose proof (download_granule_lock_calls sched (SyncGranule.ingestObjectOf config provider)
                (SyncGranule.cfg_downloadBucket config) provider g0 rest w Hfree) as Hlock.
  cbv zeta in Hlock.
  destruct (SyncGranule.download _ _ _ _ _ _) as [[out|e] w1]; cbn [fst snd] in *.
  - intros _. tauto.
  - intros [[output Hout]| ->]; [discriminate|].
    destruct Hlock as (g & Hg & _ & Hl). cbn [locks emit]. rewrite Hl.
    apply list_elem_of_singleton in Hg. subst g.
    apply set_eq. intros x.
    rewrite elem_of_difference, elem_of_union, elem_of_singleton.
    split; [tauto|]. intros Hx. split; [tauto|]. intros ->. contradiction.
Qed.

(** X23: a task that finds the lease of its first granule held fails and
    has changed nothing: no object, versioning state or lease is touched,
    and the only calls are the one to the lock and the logs. *)
Theorem syncGranule_locked (config : SyncGranule.Config) (provider : Provider)
    (g0 : GranuleRecord) (rest : list GranuleRecord) (w : World) :
  SyncGranule.cfg_provider config = Some provider ->
  (provider_id provider, g_granuleId g0) ∈ locks w ->
  let run := SyncGranule.syncGranule sched toString timedOut config (g0 :: rest) w in
  (exists e, fst run = SyncGranule.Failed e)
  /\ changesOnly
       (readsOnly (lockOrLogEvent (provider_id provider))) w (snd run).
Proof.
  intros Hprov Hheld. cbv zeta. unfold SyncGranule.syncGranule. rewrite Hprov.
  destruct (Granule.selector "ingest" (protocol provider)).
  2:{ split; [eauto | apply changesOnly_refl]. }
  rewrite download_cons. cbv zeta. rewrite bool_decide_eq_true_2 by exact Hheld.
  split; [eauto|]. cbn [snd].
  eapply changesOnly_trans; [eapply changesOnly_trans|]; apply changesOnly_emit.
  - reflexivity.
  - exact I.
  - unfold SyncGranule.logTaskError.
    destruct (SyncGranule.errorToThrow _ _ _); exact I.
Qed.

End TaskFootprint.

Lemma syncGranule_output_witness :
  exists output,
    map g_granuleId (SyncGranule.out_granules output) = map g_granuleId [Sample.granule1]
    /\ SyncGranule.out_pdr output = SyncGranule.cfg_pdr Sample.taskConfig
    /\ (forall process, SyncGranule.out_process output = Some process ->
          process <> ""
          /\ SyncGranule.cfg_collection_process Sample.taskConfig = Some process)
    /\ exists provider, SyncGranule.cfg_provider Sample.taskConfig = Some provider
         /\ is_resolved (Granule.selector "ingest" (protocol provider)) = true.
Proof.
  eexists.
  eapply (syncGranule_output Sample.sched Sample.toString Sample.timedOut Sample.taskConfig
            [Sample.granule1] _ Sample.world0 _).
  vm_compute. reflexivity.
Defined.

Lemma syncGranule_lease_witness :
  locks (snd (SyncGranule.syncGranule Sample.sched Sample.toString Sample.timedOut
                Sample.taskConfig [Sample.granule2] Sample.world0))
  = locks Sample.world0.
Proof.
  refine (syncGranule_lease Sample.sched Sample.toString Sample.timedOut Sample.taskConfig
            Sample.provider Sample.granule2 [] Sample.world0 _ _ _).
  - reflexivity.
  - apply not_elem_of_empty.
  - right. reflexivity.
Defined.

Lemma syncGranule_locked_witness :
  let run := SyncGranule.syncGranule Sample.sched Sample.toString Sample.timedOut
               Sample.taskConfig [Sample.granule1; Sample.granule2] Sample.worldLocked in
  (exists e, fst run = SyncGranule.Failed e)
  /\ changesOnly (readsOnly (lockOrLogEvent (provider_id Sample.provider)))
                 Sample.worldLocked (snd run).
Proof.
  refine (syncGranule_locked Sample.sched Sample.toString Sample.timedOut Sample.taskConfig
            Sample.provider Sample.granule1 [Sample.granule2] Sample.worldLocked _ _).
  - reflexivity.
  - vm_compute. reflexivity.
Defined.

(** ** Duplicates: overwriting and skipping *)

Section Duplicates.
Context `{Runtime}.

(** X24: replace is the default, and it always overwrites: whenever the
    existence check answers, duplicates are not skipped and the provider has
    the file, [ingestFile] transfers it, and the object under the staged key
    holds the provider's bytes afterwards, whatever was there before and
    whatever the outcome of the validation. *)
Theorem ingestFile_overwrites (g : Granule.t) (sched : Granule.Schedule) (file : File)
    (b duplicateHandling body : string) (w : World) :
  (b, checkedKey g file) ∉ headFailures w ->
  duplicateHandling <> "skip" ->
  remote w !! remotePathOf file = Some body ->
  let run := Granule.ingestFile g sched file b duplicateHandling w in
  objects (snd run) !! (b, stagedKey g file) = Some body
  /\ Sync (remotePathOf file) b (stagedKey g file) ∈ trace (snd run).
Proof.
  intros Hhead Hdup Hremote. cbv zeta.
  assert (Hskip : skipsExisting g file b duplicateHandling w = false).
  { unfold skipsExisting.
    destruct (String.eqb_spec duplicateHandling "skip"); [contradiction|].
    apply andb_false_r. }
  destruct (ingestFile_transfers g sched file b duplicateHandling body w Hhead Hskip Hremote)
    as (w3 & Ho3 & _ & _ & (l1 & l2 & Ht3 & _) & ->).
  pose proof (afterTransfer_frame g file b w3) as [Hobj _].
  split.
  - rewrite Hobj, Ho3. apply lookup_insert_eq.
  - pose proof (framed_validateChecksum
                  (readsOnly (fun _ => True)) g file b (stagedKey g file)
                  (fun _ => I) (fun _ => I) w3) as Hv.
    unfold afterTransfer, bind.
    destruct (Granule.validateChecksum g file b (stagedKey g file) w3) as [[u|e] w4];
      cbn [snd] in Hv; destruct Hv as (_ & _ & _ & _ & _ & _ & _ & _ & called & Ht4 & _).
    + unfold Granule.the_collection. destruct (Granule.this_collection g); cbn;
        rewrite Ht4, Ht3; rewrite !elem_of_app; left; right; right; right; left; left.
    + cbn. rewrite Ht4, Ht3. rewrite !elem_of_app. left. right. right. right. left. left.
Qed.



End Duplicates.

Lemma ingestFile_overwrites_witness :
  let file := Sample.listed "g1.hdf" JSUndefined JSUndefined in
  let g := Sample.ingestObject "replace" in
  let run := Granule.ingestFile g Granule.LandsBeforeSync file "internal-bucket" "replace"
               Sample.worldStaged in
  objects (snd run) !! ("internal-bucket", stagedKey g file) = Some "DATA-1"
  /\ Sync (remotePathOf file) "internal-bucket" (stagedKey g file) ∈ trace (snd run).
Proof.
  refine (ingestFile_overwrites (Sample.ingestObject "replace") Granule.LandsBeforeSync
            (Sample.listed "g1.hdf" JSUndefined JSUndefined) "internal-bucket" "replace"
            "DATA-1" Sample.worldStaged _ _ _).
  - apply not_elem_of_empty.
  - discriminate.
  - vm_compute. reflexivity.
Defined.


(** ** [getCmrFiles]: the metadata documents of a granule *)

Section CmrFilesProps.
Context `{Runtime} {Xml : Type}.
Variable basename : string -> string.
Variable parseXmlString : string -> outcome Xml.

(** A resolved [getMetadata] has read one object. *)
Lemma getMetadata_resolved (xmlFilePath : option string) (body : string) (w w1 : World) :
  Mover.getMetadata xmlFilePath w = (Resolved body, w1) ->
  exists b k, objects w !! (b, k) = Some body /\ w1 = emit (GetObject b k) w.
Proof.
  unfold Mover.getMetadata.
  destruct xmlFilePath as [uri|]; [|discriminate].
  destruct (negb (truthy_str (Some uri))); [discriminate|].
  destruct (str_match _ uri) as [parts|]; [|discriminate].
  destruct (capture parts 1) as [b|]; [|discriminate].
  destruct (capture parts 2) as [k|]; [|discriminate].
  unfold Mover.getS3Object. destruct (objects w !! (b, k)) as [body'|] eqn:Hobj;
    [|discriminate].
  intros [= <- <-]. eauto.
Qed.

(** The metadata entries of an input, entry by entry. *)
Lemma cmrEntries_cons (entry : option string) (rest : list (option string)) :
  cmrEntries (entry :: rest)
  = match (if truthy_str entry && matches ".*\.cmr\.xml$" (default "" entry)
           then entry else None) with
    | Some uri => uri :: cmrEntries rest
    | None => cmrEntries rest
    end.
Proof. reflexivity. Qed.

(** The loop of [getCmrFiles] only reads, whatever its outcome. *)
Lemma getCmrFiles_loop_footprint (input : list (option string)) (re : string)
    (files_ : list (CmrFiles.CmrFileObject (Xml := Xml))) (w : World) :
  changesOnly (readsOnly readEvent) w
    (snd (CmrFiles.getCmrFiles_loop basename parseXmlString input re files_ w)).
Proof.
  revert files_ w. induction input as [|entry rest IH]; intros files_ w.
  - apply changesOnly_refl.
  - cbn [CmrFiles.getCmrFiles_loop].
    destruct (truthy_str entry && matches ".*\.cmr\.xml$" (default "" entry));
      [|apply IH].
    pose proof (framed_getMetadata (readsOnly readEvent) entry (fun _ _ => I) w) as Hget.
    destruct (Mover.getMetadata entry w) as [[metadata|e] w1]; cbn [snd] in *;
      [|exact Hget].
    destruct (parseXmlString metadata) as [metadataObject|e]; [|exact Hget].
    destruct (CmrFiles.getGranuleId basename (default "" entry) re); try exact Hget.
    eapply changesOnly_trans; [exact Hget | apply IH].
Qed.

(** What the loop of [getCmrFiles] has done when it returns. *)
Lemma getCmrFiles_loop_returns (input : list (option string)) (re : string)
    (files_ out : list (CmrFiles.CmrFileObject (Xml := Xml))) (w w' : World) :
  CmrFiles.getCmrFiles_loop basename parseXmlString input re files_ w
  = (CmrFiles.Returns out, w') ->
  exists new,
    out = (files_ ++ new)%list
    /\ map CmrFiles.cmr_filename new = cmrEntries input
    /\ Forall (fun file =>
                 (exists b k, objects w !! (b, k) = Some (CmrFiles.cmr_metadata file))
                 /\ parseXmlString (CmrFiles.cmr_metadata file)
                    = Resolved (CmrFiles.cmr_metadataObject file)
                 /\ exists match_,
                      str_match re (basename (CmrFiles.cmr_filename file)) = Some match_
                      /\ CmrFiles.cmr_granuleId file = capture match_ 1) new.
Proof.
  revert files_ w. induction input as [|entry rest IH]; intros files_ w.
  - cbn. intros [= <- <-]. exists []. rewrite app_nil_r.
    split; [reflexivity|]. split; [reflexivity | constructor].
  - cbn [CmrFiles.getCmrFiles_loop]. rewrite cmrEntries_cons.
    destruct (truthy_str entry && matches ".*\.cmr\.xml$" (default "" entry)) eqn:Hsel.
    2:{ intros Hrun. destruct (IH _ _ Hrun) as (new & -> & Hn & Hall).
        exists new. split; [reflexivity|]. split; [exact Hn | exact Hall]. }
    destruct entry as [uri|]; [|discriminate].
    change (default "" (Some uri)) with uri.
    destruct (Mover.getMetadata (Some uri) w) as [[metadata|e] w1] eqn:Hget; [|discriminate].
    destruct (parseXmlString metadata) as [metadataObject|e] eqn:Hparse; [|discriminate].
    unfold CmrFiles.getGranuleId at 1.
    destruct (str_match re (basename uri)) as [match_|] eqn:Hmatch; cbn iota.
    2:{ discriminate. }
    intros Hrun. destruct (IH _ _ Hrun) as (new & -> & Hn & Hall).
    apply getMetadata_resolved in Hget as (b & k & Hobj & ->).
    exists (CmrFiles.mkCmrFileObject uri metadata metadataObject (capture match_ 1) :: new).
    split; [rewrite <- app_assoc; reflexivity|].
    split; [cbn; rewrite Hn; reflexivity|].
    constructor.
    + cbn. split; [eauto|]. split; [exact Hparse|]. eauto.
    + exact Hall.
Qed.

(** X26: when [getCmrFiles] returns, its result has one element per entry
    of the input that is set and matches [/.*\.cmr\.xml$/], in order; each
    holds the entry, the body of an object of the store as its metadata,
    what [parseXmlString] makes of that, and the first capture group of the
    extraction pattern on the entry's base name; and the store was only
    read. *)
Theorem getCmrFiles_returns (input : list (option string)) (re : string)
    (out : list (CmrFiles.CmrFileObject (Xml := Xml))) (w w' : World) :
  CmrFiles.getCmrFiles basename parseXmlString input re w = (CmrFiles.Returns out, w') ->
  map CmrFiles.cmr_filename out = cmrEntries input
  /\ Forall (fun file =>
               (exists b k, objects w !! (b, k) = Some (CmrFiles.cmr_metadata file))
               /\ parseXmlString (CmrFiles.cmr_metadata file)
                  = Resolved (CmrFiles.cmr_metadataObject file)
               /\ exists match_,
                    str_match re (basename (CmrFiles.cmr_filename file)) = Some match_
                    /\ CmrFiles.cmr_granuleId file = capture match_ 1) out
  /\ changesOnly (readsOnly readEvent) w w'.
Proof.
  intros Hrun. unfold CmrFiles.getCmrFiles in Hrun.
  pose proof (getCmrFiles_loop_footprint input re [] w) as Hfp.
  rewrite Hrun in Hfp. cbn [snd] in Hfp.
  apply getCmrFiles_loop_returns in Hrun as (new & -> & Hn & Hall).
  cbn. auto.
Qed.

(** X27: [getCmrFiles] never returns when the base name of one of its
    metadata entries does not match the extraction pattern, and it never
    ends with the error that [getGranuleId] means to throw: it ends with the
    rejection of a read or of the parser, or with a [ReferenceError],
    because the message of that error is built from a variable that is not
    defined. *)
Theorem getCmrFiles_unmatched_name (input : list (option string)) (re uri : string)
    (w : World) :
  uri ∈ cmrEntries input ->
  str_match re (basename uri) = None ->
  match fst (CmrFiles.getCmrFiles basename parseXmlString input re w) with
  | CmrFiles.Returns _ => False
  | CmrFiles.Rejects e =>
      (exists entry w0, entry ∈ cmrEntries input
                        /\ fst (Mover.getMetadata (Some entry) w0) = Rejected e)
      \/ (exists metadata, parseXmlString metadata = Rejected e)
  | CmrFiles.ReferenceError message => message = "filename is not defined"
  end.
Proof.
  unfold CmrFiles.getCmrFiles. generalize (@nil (CmrFiles.CmrFileObject (Xml := Xml))).
  revert w. induction input as [|entry rest IH]; intros w files_ Hin Hno.
  - inversion Hin.
  - cbn [CmrFiles.getCmrFiles_loop]. revert Hin. rewrite cmrEntries_cons.
    destruct (truthy_str entry && matches ".*\.cmr\.xml$" (default "" entry)) eqn:Hsel.
    2:{ intros Hin. exact (IH w files_ Hin Hno). }
    destruct entry as [uri'|]; [|discriminate].
    change (default "" (Some uri')) with uri'.
    intros Hin.
    destruct (Mover.getMetadata (Some uri') w) as [[metadata|e] w1] eqn:Hget.
    2:{ cbn [fst]. left. exists uri', w. split; [left|]. rewrite Hget. reflexivity. }
    destruct (parseXmlString metadata) as [metadataObject|e] eqn:Hparse.
    2:{ cbn [fst]. right. eauto. }
    unfold CmrFiles.getGranuleId at 1.
    destruct (str_match re (basename uri')) as [match_|] eqn:Hmatch; [|reflexivity].
    apply elem_of_cons in Hin as [->|Hin]; [congruence|].
    specialize (IH w1 (files_ ++ [CmrFiles.mkCmrFileObject uri' metadata metadataObject
                                    (capture match_ 1)])%list Hin Hno).
    destruct (fst (CmrFiles.getCmrFiles_loop _ _ rest re _ w1)) as [out|e|message];
      [contradiction | | exact IH].
    destruct IH as [(entry' & w0 & Hin' & Hget')|Hparse']; [left | right; exact Hparse'].
    exists entry', w0. split; [right; exact Hin' | exact Hget'].
Qed.

End CmrFilesProps.

Lemma getCmrFiles_returns_witness :
  let input := [ Some "s3://public-bucket/staged/g1.cmr.xml"; None;
                 Some "s3://internal-bucket/staged/g1.txt" ] in
  exists out w',
    map CmrFiles.cmr_filename out = @cmrEntries Sample.runtimeCmr input
    /\ Forall (fun file =>
                 (exists b k, objects Sample.worldMove !! (b, k)
                              = Some (CmrFiles.cmr_metadata file))
                 /\ Sample.parseXmlString (CmrFiles.cmr_metadata file)
                    = Resolved (CmrFiles.cmr_metadataObject file)
                 /\ exists match_,
                      @str_match Sample.runtimeCmr "^([a-z0-9]+)\."
                        (Sample.basename (CmrFiles.cmr_filename file)) = Some match_
                      /\ CmrFiles.cmr_granuleId file = capture match_ 1) out
    /\ changesOnly (readsOnly readEvent) Sample.worldMove w'.
Proof.
  eexists _, _.
  eapply (@getCmrFiles_returns Sample.runtimeCmr string Sample.basename
            Sample.parseXmlString
            [ Some "s3://public-bucket/staged/g1.cmr.xml"; None;
              Some "s3://internal-bucket/staged/g1.txt" ]
            "^([a-z0-9]+)\." _ Sample.worldMove _).
  vm_compute. reflexivity.
Defined.

Lemma getCmrFiles_unmatched_name_witness :
  let input := [Some "s3://public-bucket/staged/g1.cmr.xml"] in
  match fst (@CmrFiles.getCmrFiles Sample.runtimeCmr string Sample.basename
               Sample.parseXmlString input "^MOD" Sample.worldMove) with
  | CmrFiles.Returns _ => False
  | CmrFiles.Rejects e =>
      (exists entry w0, entry ∈ @cmrEntries Sample.runtimeCmr input
                        /\ fst (@Mover.getMetadata Sample.runtimeCmr (Some entry) w0)
                           = Rejected e)
      \/ (exists metadata, Sample.parseXmlString metadata = Rejected e)
  | CmrFiles.ReferenceError message => message = "filename is not defined"
  end.
Proof.
  refine (@getCmrFiles_unmatched_name Sample.runtimeCmr string Sample.basename
            Sample.parseXmlString [Some "s3://public-bucket/staged/g1.cmr.xml"] "^MOD"
            "s3://public-bucket/staged/g1.cmr.xml" Sample.worldMove _ _).
  - apply list_elem_of_In. vm_compute. left. reflexivity.
  - vm_compute. reflexivity.
Defined.
